(** * LabRobots: liquid-handling protocols, embedded and verified

    The protocols are sequential Python scripts that issue calls into the
    robot vendor's API.  Each script is embedded as a function from its
    run-time parameters (and uploaded CSV) to the trace of API calls it issues
    together with the way the run ends (normally, or by a raised exception).

    Conventions of the embedding:
    - Python [float] volumes and durations are exact rationals ([Q]);
      rounding is outside the model, and so are the special values [nan]
      and [inf], except in [DilutionCells], which follows the dilution
      script on every value [float()] can return up to its last check.
    - A Python [str] is the list of the bytes of its UTF-8 encoding.
    - Python [int] is [Z]; list indices and counts are [nat].
    - [protocol.comment], labware/instrument loading and liquid definitions
      issue no robot command and are not recorded in the traces.
    - The vendor API is not part of the repository: a call is recorded in
      the trace and assumed to return normally (valid well names).  For the
      two CSV scripts, whose number of tips depends on the file, the tips of
      the loaded racks are counted in [DilutionDeck] and [PoolingDeck]:
      there [pick_up_tip] raises [OutOfTipsError] when the racks are
      empty. *)

From Stdlib Require Import String Ascii QArith Qround ZArith Bool Arith List.
From Stdlib Require Import Lia Lqa Permutation Sorted.
Import ListNotations.

(** ** Python helpers shared by the scripts *)

Module Py.
Local Open Scope Q_scope.

(** [a < b] on floats. *)
Definition Qltb (a b : Q) : bool := negb (Qle_bool b a).

(** [min(a, b)]: Python keeps the first argument unless a later one is
    strictly smaller. *)
Definition min2 (a b : Q) : Q := if Qltb b a then b else a.

(** [min(a, b, c)]. *)
Definition min3 (a b c : Q) : Q := min2 (min2 a b) c.

(** [math.ceil]. *)
Definition math_ceil (x : Q) : Z := Qceiling x.

(** [int(x)] on a float: truncation toward zero. *)
Definition int_of_float (x : Q) : Z := Z.quot (Qnum x) (Zpos (Qden x)).

(** [sum(f(r) for r in l)]: left-to-right accumulation from 0. *)
Definition sum_by {A : Type} (f : A -> Q) (l : list A) : Q :=
  fold_left (fun acc r => acc + f r) l 0.

(** [enumerate(l)]. *)
Definition enumerate {A : Type} (l : list A) : list (nat * A) :=
  combine (seq 0 (length l)) l.

(** [len(np.arange(start, stop, step))] = max(0, ceil((stop - start)/step)). *)
Definition arange_len (start stop step : Q) : nat :=
  Z.to_nat (math_ceil ((stop - start) / step)).

(** The white space [str.strip()] removes: U+0009 to U+000D, U+001C to
    U+0020, U+0085, U+00A0, U+1680, U+2000 to U+200A, U+2028, U+2029,
    U+202F, U+205F and U+3000.  [is_space] is for those of one byte in
    UTF-8, [is_space2] and [is_space3] for those of two and three bytes. *)
Definition is_space (c : ascii) : bool :=
  let n := nat_of_ascii c in
  ((9 <=? n) && (n <=? 13) || (28 <=? n) && (n <=? 32))%nat.

Definition is_space2 (c d : ascii) : bool :=
  let a := nat_of_ascii c in
  let b := nat_of_ascii d in
  ((a =? 194) && ((b =? 133) || (b =? 160)))%nat.

Definition is_space3 (c d e : ascii) : bool :=
  let a := nat_of_ascii c in
  let b := nat_of_ascii d in
  let n := nat_of_ascii e in
  ((a =? 225) && (b =? 154) && (n =? 128)
   || (a =? 226) && (b =? 128)
      && ((128 <=? n) && (n <=? 138) || (n =? 168) || (n =? 169)
          || (n =? 175))
   || (a =? 226) && (b =? 129) && (n =? 159)
   || (a =? 227) && (b =? 128) && (n =? 128))%nat.

(** The bytes left when the white space at the front is removed; with
    [backwards] the bytes are those of the string read from its end, and
    so are those of each character. *)
Fixpoint drop_spaces (backwards : bool) (l : list ascii) : list ascii :=
  match l with
  | c :: l1 =>
      if is_space c then drop_spaces backwards l1
      else match l1 with
           | d :: l2 =>
               if is_space2 (if backwards then d else c)
                            (if backwards then c else d)
               then drop_spaces backwards l2
               else match l2 with
                    | e :: l3 =>
                        if is_space3 (if backwards then e else c) d
                                     (if backwards then c else e)
                        then drop_spaces backwards l3
                        else l
                    | [] => l
                    end
           | [] => l
           end
  | [] => []
  end.

Definition lstrip (s : string) : string :=
  string_of_list_ascii (drop_spaces false (list_ascii_of_string s)).

Definition rstrip (s : string) : string :=
  string_of_list_ascii
    (rev (drop_spaces true (rev (list_ascii_of_string s)))).

(** [s.strip()]. *)
Definition strip (s : string) : string := rstrip (lstrip s).

(** A reader of plain decimal literals ([12], [-3.5], [0.25]); it agrees with
    Python's [float()] on them and is used to instantiate [float()] on
    concrete CSV files. *)
Fixpoint decimal_digits (s : string) (num : Z) (den : positive)
    (dot any : bool) : option Q :=
  match s with
  | EmptyString => if any then Some (num # den) else None
  | String c s' =>
      let n := nat_of_ascii c in
      if ((48 <=? n) && (n <=? 57))%nat
      then decimal_digits s' (10 * num + Z.of_nat (n - 48))%Z
             (if dot then (10 * den)%positive else den) dot true
      else if (n =? 46)%nat && negb dot
           then decimal_digits s' num den true any
           else None
  end.

Definition decimal (s : string) : option Q :=
  match s with
  | String "-"%char s' =>
      option_map Qopp (decimal_digits s' 0%Z 1%positive false false)
  | _ => decimal_digits s 0%Z 1%positive false false
  end.

End Py.

(** How a run, or a part of it, ends.  [OutOfFuel] is an artefact of the
    embedding of [while] loops and is proved unreachable. *)
Inductive outcome (E A : Type) : Type :=
| Ok (a : A)
| Raise (e : E)
| OutOfFuel.
Arguments Ok {E A} a.
Arguments Raise {E A} e.
Arguments OutOfFuel {E A}.

(** ** MultiPlateDilutions_v6.py *)

Module MultiPlateDilutions.
Import Py.
Local Open Scope Q_scope.

(** One entry of [well_data]. *)
Record well_entry : Type := mk_well_entry {
  source_plate : Z;
  source_well : string;
  destination_plate : Z;
  destination_well : string;
  sample_volume : Q;
  water_volume : Q;
  initial_sample_volume : Q
}.

(** The exceptions the script can raise. *)
Inductive error : Type :=
| IndexError
| ValueError_csv_parsing
| ValueError_validation (n_errors : nat)
| ValueError_tubes (total_tubes_needed : Z)
| ValueError_ran_out_of_water.

Definition is_ValueError (e : error) : bool :=
  match e with IndexError => false | _ => true end.

Inductive validation_error : Type :=
| SourcePlateInvalid (row_number : nat) (plate : Z)
| DestPlateInvalid (row_number : nat) (plate : Z)
| SampleVolumeNotPositive (row_number : nat)
| WaterVolumeNegative (row_number : nat)
| InitialSampleVolumeNotPositive (row_number : nat).

(** Wells of the deck.  [Tube i] is
    [water_reservoir[well_names_column_order[i]]]. *)
Inductive location : Type :=
| Tube (i : nat)
| SourceWell (plate : Z) (well : string)
| DestWell (plate : Z) (well : string).

(** [well], [well.bottom(z=..)], [well.top(z=..)]. *)
Inductive position : Type :=
| Default
| Bottom (z : Q)
| Top (z : Q).

Definition place : Type := (location * position)%type.

(** Calls on [p20_single]. *)
Inductive command : Type :=
| PickUpTip
| DropTip
| Aspirate (vol : Q) (at_ : place)
| Dispense (vol : Q) (at_ : place) (rate : Q)
| AirGap (vol : Q)
| BlowOut (at_ : place)
| TouchTip (loc : location) (v_offset speed : Q)
| Mix (reps : nat) (vol : Q) (at_ : place).

(** The numbered steps of the script (section banners of [run]). *)
Inductive step : Type :=
| ReservoirWater   (* STEP 1: water to reservoir tubes (large dilutions) *)
| PlateWater       (* STEP 2: water to destination wells (water first) *)
| LargeDilution    (* STEP 3: sample, mix and 50 uL transfer (large) *)
| WaterFirstSample (* STEP 4: samples to wells that already hold water *)
| WaterAfterSample (* STEP 5: samples first (water < 5 uL) *)
| WaterAfterWater. (* STEP 6: water after samples *)

(** The commands issued by one iteration of a [for row in ...] loop
    ([blk_row = Some row]), or around such a loop ([blk_row = None]). *)
Record block : Type := mk_block {
  blk_step : step;
  blk_row : option well_entry;
  blk_cmds : list command
}.

Definition result (A : Type) : Type := (list block * outcome error A)%type.

Definition ret {A : Type} (a : A) : result A := ([], Ok a).

Definition bind {A B : Type} (m : result A) (f : A -> result B) : result B :=
  match m with
  | (bs, Ok a) => let '(bs', o) := f a in (bs ++ bs', o)
  | (bs, Raise e) => (bs, Raise e)
  | (bs, OutOfFuel) => (bs, OutOfFuel)
  end.

Definition issue (s : step) (cmds : list command) : result unit :=
  ([mk_block s None cmds], Ok tt).

Definition raise {A : Type} (e : error) : result A := ([], Raise e).

Notation "x <- m ;; k" := (bind m (fun x => k))
  (at level 61, m at next level, right associativity).
Notation "m ;;; k" := (bind m (fun _ => k))
  (at level 61, right associativity).

(** State of the water-tube bookkeeping:
    [current_water_tube_index], [water_remaining_in_current_tube]. *)
Record tube_state : Type := mk_tube_state {
  current_water_tube_index : nat;
  water_remaining_in_current_tube : Q
}.

Definition WATER_TUBE_CAPACITY : Q := 1500.
Definition tips_per_rack : Z := 96.

Section Protocol.

(** Python's [float()] on a CSV cell; [None] when it raises [ValueError]. *)
Variable float : string -> option Q.

(** [protocol.params]. *)
Variable num_source_plates : Z.
Variable num_destination_plates : Z.

(** Body of the [try] at lines 57-66: any [ValueError] or [IndexError] is
    turned into [ValueError("CSV parsing error")], here [None]. *)
Definition parse_row (row : list string) : option well_entry :=
  match row with
  | c0 :: c1 :: c2 :: c3 :: c4 :: c5 :: c6 :: _ =>
      match float c0, float c2, float c4, float c5, float c6 with
      | Some sp, Some dp, Some sv, Some wv, Some iv =>
          Some (mk_well_entry (int_of_float sp) (strip c1)
                              (int_of_float dp) (strip c3) sv wv iv)
      | _, _, _, _, _ => None
      end
  | _ => None
  end.

(** The loop [for row in csv_rows[1:]] building [well_data]. *)
Fixpoint parse_rows (rows : list (list string)) : option (list well_entry) :=
  match rows with
  | [] => Some []
  | row :: rest =>
      match parse_row row with
      | None => None
      | Some w =>
          match parse_rows rest with
          | None => None
          | Some ws => Some (w :: ws)
          end
      end
  end.

Definition final_volume (row : well_entry) : Q :=
  sample_volume row + water_volume row.

(** The checks of lines 98-119 on one row. *)
Definition row_errors (row_number : nat) (row : well_entry)
  : list validation_error :=
  (if (source_plate row <? 1)%Z || (num_source_plates <? source_plate row)%Z
   then [SourcePlateInvalid row_number (source_plate row)] else [])
  ++ (if (destination_plate row <? 1)%Z
         || (num_destination_plates <? destination_plate row)%Z
      then [DestPlateInvalid row_number (destination_plate row)] else [])
  ++ (if Qle_bool (sample_volume row) 0
      then [SampleVolumeNotPositive row_number] else [])
  ++ (if Qltb (water_volume row) 0
      then [WaterVolumeNegative row_number] else [])
  ++ (if Qle_bool (initial_sample_volume row) 0
      then [InitialSampleVolumeNotPositive row_number] else []).

Definition validation_errors (well_data : list well_entry)
  : list validation_error :=
  flat_map (fun ir => row_errors (fst ir + 2) (snd ir)) (enumerate well_data).

Definition is_large (row : well_entry) : bool := Qltb 200 (final_volume row).

Definition wells_large_dilution (well_data : list well_entry) :=
  filter is_large well_data.

Definition wells_normal (well_data : list well_entry) :=
  filter (fun row => negb (is_large row)) well_data.

Definition wells_water_first (well_data : list well_entry) :=
  filter (fun row => Qle_bool 5 (water_volume row)) (wells_normal well_data).

Definition wells_water_after (well_data : list well_entry) :=
  filter (fun row => Qltb (water_volume row) 5) (wells_normal well_data).

Definition total_water (well_data : list well_entry) : Q :=
  sum_by water_volume (wells_normal well_data)
  + sum_by water_volume (wells_large_dilution well_data).

Definition total_water_with_buffer (well_data : list well_entry) : Q :=
  total_water well_data + 50.

Definition num_water_tubes (well_data : list well_entry) : Z :=
  math_ceil (total_water_with_buffer well_data / WATER_TUBE_CAPACITY).

Definition num_reservoir_tubes_needed (well_data : list well_entry) : Z :=
  Z.of_nat (length (wells_large_dilution well_data)).

Definition total_tubes_needed (well_data : list well_entry) : Z :=
  (num_water_tubes well_data + num_reservoir_tubes_needed well_data)%Z.

Definition total_tips_needed (well_data : list well_entry) : Z :=
  ((match wells_large_dilution well_data with
    | [] => 0
    | l => 1 + Z.of_nat (length l)
    end)
   + (match wells_water_first well_data with
      | [] => 0
      | l => 1 + Z.of_nat (length l)
      end)
   + Z.of_nat (length (wells_water_after well_data)) * 2)%Z.

Definition tip_racks_needed (well_data : list well_entry) : Z :=
  math_ceil (inject_Z (total_tips_needed well_data) / inject_Z tips_per_rack).

Definition water_per_tube (well_data : list well_entry) : Q :=
  total_water_with_buffer well_data / inject_Z (num_water_tubes well_data).


(** *** Pipetting idioms of the script *)

(** [aspirate(vol, src)] followed by the air-gap dispense used everywhere:
    [if vol >= 0.5: air_gap(0.5); dispense(vol + 0.5, dst, rate)]
    [else: dispense(vol, dst, rate)]. *)
Definition aspirate_dispense (vol : Q) (src dst : place) (rate : Q)
  : list command :=
  Aspirate vol src
  :: (if Qle_bool 0.5 vol
      then [AirGap 0.5; Dispense (vol + 0.5) dst rate]
      else [Dispense vol dst rate]).

(** [blow_out(bottom(2)); touch_tip(v_offset=-5, speed=10); blow_out(top(-2))]. *)
Definition blow_touch_blow (dest_well : location) : list command :=
  [BlowOut (dest_well, Bottom 2); TouchTip dest_well (-5) 10;
   BlowOut (dest_well, Top (-2))].

Definition mix_before_volume (row : well_entry) : Q :=
  min2 (initial_sample_volume row * 0.8) 20.

Definition mix_after_volume (row : well_entry) : Q :=
  min2 (final_volume row * 0.8) 20.

Definition dest_well_of (row : well_entry) : location :=
  DestWell (destination_plate row) (destination_well row).

Definition source_well_of (row : well_entry) : location :=
  SourceWell (source_plate row) (source_well row).

(** *** The water-distribution [while] loop (lines 328-351, 378-402, 645-676)

    The three copies differ only in the commands issued for one transfer,
    given here by [emit transfer_vol water_vol_remaining tube_index].
    [fuel] bounds the number of iterations. *)
Fixpoint water_loop (n_tubes : Z) (per_tube : Q)
    (emit : Q -> Q -> nat -> list command)
    (fuel : nat) (water_vol_remaining : Q) (st : tube_state)
  : list command * outcome error tube_state :=
  if Qltb 0 water_vol_remaining then
    match fuel with
    | O => ([], OutOfFuel)
    | S fuel' =>
        let switch := Qltb (water_remaining_in_current_tube st) 1 in
        let index := if switch then S (current_water_tube_index st)
                     else current_water_tube_index st in
        if switch && (n_tubes <=? Z.of_nat index)%Z
        then ([], Raise ValueError_ran_out_of_water)
        else
          let remaining := if switch then per_tube
                           else water_remaining_in_current_tube st in
          let transfer_vol := min3 water_vol_remaining remaining 19 in
          let cmds := emit transfer_vol water_vol_remaining index in
          let '(rest, o) :=
            water_loop n_tubes per_tube emit fuel'
              (water_vol_remaining - transfer_vol)
              (mk_tube_state index (remaining - transfer_vol)) in
          (cmds ++ rest, o)
    end
  else ([], Ok st).

(** Iterations granted to the loop for one row. *)
Definition loop_fuel (water_vol : Q) : nat := Z.to_nat (Qceiling water_vol).

(** Commands of one transfer in STEP 1 (lines 339-348). *)
Definition emit_reservoir_water (reservoir_tube : location)
    (transfer_vol water_vol_remaining : Q) (index : nat) : list command :=
  aspirate_dispense transfer_vol (Tube index, Default)
                    (reservoir_tube, Bottom 1) 0.9
  ++ [BlowOut (reservoir_tube, Bottom 2); BlowOut (reservoir_tube, Top (-2))].

(** Commands of one transfer in STEP 2 (lines 389-399). *)
Definition emit_plate_water (dest_well : location)
    (transfer_vol water_vol_remaining : Q) (index : nat) : list command :=
  aspirate_dispense transfer_vol (Tube index, Default)
                    (dest_well, Bottom 1) 0.3
  ++ blow_touch_blow dest_well.

(** Commands of one transfer in STEP 6 (lines 656-673). *)
Definition emit_water_after (row : well_entry)
    (transfer_vol water_vol_remaining : Q) (index : nat) : list command :=
  let dest_well := dest_well_of row in
  aspirate_dispense transfer_vol (Tube index, Default) (dest_well, Bottom 1) 1
  ++ (if Qle_bool (water_vol_remaining - transfer_vol) 0
      then [Mix 9 (mix_after_volume row) (dest_well, Bottom 0.5);
            Aspirate (mix_after_volume row) (dest_well, Bottom 1);
            Dispense (mix_after_volume row) (dest_well, Bottom 1) 0.5]
      else [])
  ++ blow_touch_blow dest_well.

(** *** Sample transfers, split into 19 uL portions *)

(** [transfer_vol] of iteration [i] of [for i in range(num_transfers)]. *)
Definition split_transfer_vol (sample_vol : Q) (num_transfers : Z) (i : nat)
  : Q :=
  if (Z.of_nat i =? num_transfers - 1)%Z
  then sample_vol - inject_Z (Z.of_nat i * 19)
  else 19.

(** The [if sample_vol > 19: ... else: ...] statement shared by STEPS 3-5:
    [split i n vol] is the body of the split loop and [single] the
    unsplit branch. *)
Definition sample_transfer (sample_vol : Q)
    (split : nat -> Z -> Q -> list command) (single : list command)
  : list command :=
  if Qltb 19 sample_vol then
    let num_transfers := math_ceil (sample_vol / 19) in
    flat_map (fun i => split i num_transfers
                         (split_transfer_vol sample_vol num_transfers i))
             (seq 0 (Z.to_nat num_transfers))
  else single.

(** One large dilution of STEP 3 (lines 417-494). *)
Definition large_dilution_row (reservoir_tube : location) (row : well_entry)
  : list command :=
  let source_well := source_well_of row in
  let dest_well := dest_well_of row in
  let sample_vol := sample_volume row in
  [PickUpTip]
  ++ sample_transfer sample_vol
       (fun i num_transfers transfer_vol =>
          (if (i =? 0)%nat
           then [Mix 10 (mix_before_volume row) (source_well, Bottom 0.5)]
           else [])
          ++ aspirate_dispense transfer_vol (source_well, Bottom 0.5)
                               (reservoir_tube, Bottom 1) 1
          ++ (if (Z.of_nat i =? num_transfers - 1)%Z
              then [Mix 10 (mix_after_volume row) (reservoir_tube, Bottom 0.5)]
              else []))
       ([Mix 10 (mix_before_volume row) (source_well, Bottom 0.5)]
        ++ aspirate_dispense sample_vol (source_well, Bottom 0.5)
                             (reservoir_tube, Bottom 1) 1
        ++ [Mix 10 (mix_after_volume row) (reservoir_tube, Bottom 0.5)])
  ++ [Aspirate 19 (reservoir_tube, Bottom 0.5); AirGap 0.5;
      Dispense 19.5 (dest_well, Bottom 1) 0.3; BlowOut (dest_well, Top (-2));
      Aspirate 19 (reservoir_tube, Bottom 0.5); AirGap 0.5;
      Dispense 19.5 (dest_well, Bottom 1) 0.7; BlowOut (dest_well, Top (-2));
      Aspirate 12 (reservoir_tube, Bottom 0.5); AirGap 0.5;
      Dispense 12.5 (dest_well, Bottom 1) 1; BlowOut (dest_well, Top (-2));
      DropTip].

(** One row of STEP 4 (lines 506-562). *)
Definition water_first_sample_row (row : well_entry) : list command :=
  let source_well := source_well_of row in
  let dest_well := dest_well_of row in
  let sample_vol := sample_volume row in
  [PickUpTip]
  ++ sample_transfer sample_vol
       (fun i num_transfers transfer_vol =>
          (if (i =? 0)%nat
           then [Mix 10 (mix_before_volume row) (source_well, Bottom 0.5)]
           else [])
          ++ aspirate_dispense transfer_vol (source_well, Bottom 0.5)
                               (dest_well, Bottom 1) 0.5
          ++ (if (Z.of_nat i =? num_transfers - 1)%Z
              then [Mix 10 (mix_after_volume row) (dest_well, Bottom 0.5)]
              else [])
          ++ blow_touch_blow dest_well)
       ([Mix 10 (mix_before_volume row) (source_well, Bottom 0.5)]
        ++ aspirate_dispense sample_vol (source_well, Bottom 0.5)
                             (dest_well, Bottom 1) 0.3
        ++ [Mix 9 (mix_after_volume row) (dest_well, Bottom 0.5);
            Aspirate (mix_after_volume row) (dest_well, Bottom 0.5);
            Dispense (mix_after_volume row) (dest_well, Bottom 0.5) 0.3]
        ++ blow_touch_blow dest_well)
  ++ [DropTip].

(** One row of STEP 5 (lines 572-619). *)
Definition water_after_sample_row (row : well_entry) : list command :=
  let source_well := source_well_of row in
  let dest_well := dest_well_of row in
  let sample_vol := sample_volume row in
  [PickUpTip]
  ++ sample_transfer sample_vol
       (fun i num_transfers transfer_vol =>
          (if (i =? 0)%nat
           then [Mix 10 (mix_before_volume row) (source_well, Bottom 0.5)]
           else [])
          ++ aspirate_dispense transfer_vol (source_well, Bottom 0.5)
                               (dest_well, Bottom 1) 0.5
          ++ blow_touch_blow dest_well)
       ([Mix 10 (mix_before_volume row) (source_well, Bottom 0.5)]
        ++ aspirate_dispense sample_vol (source_well, Bottom 0.5)
                             (dest_well, Bottom 1) 0.5
        ++ blow_touch_blow dest_well)
  ++ [DropTip].

(** *** Loops over rows *)

(** [for idx, row in enumerate(rows)] with a body that threads a state and
    may raise; one block per iteration. *)
Fixpoint for_rows {St : Type} (s : step)
    (body : nat -> well_entry -> St -> list command * outcome error St)
    (idx : nat) (rows : list well_entry) (st : St) : result St :=
  match rows with
  | [] => ([], Ok st)
  | row :: rest =>
      let '(cmds, o) := body idx row st in
      let b := mk_block s (Some row) cmds in
      match o with
      | Ok st' =>
          let '(bs, o') := for_rows s body (S idx) rest st' in (b :: bs, o')
      | Raise e => ([b], Raise e)
      | OutOfFuel => ([b], OutOfFuel)
      end
  end.

(** A body without state that cannot raise. *)
Definition pure_body (f : nat -> well_entry -> list command)
  : nat -> well_entry -> unit -> list command * outcome error unit :=
  fun idx row st => (f idx row, Ok st).

Section Steps.

Variable well_data : list well_entry.

Let n_tubes : Z := num_water_tubes well_data.
Let per_tube : Q := water_per_tube well_data.
Let dilution_tube_start_index : nat := Z.to_nat n_tubes.
Let first_tube : tube_state := mk_tube_state 0 per_tube.

(** STEP 1 (lines 301-355). *)
Definition step_reservoir_water : result unit :=
  match wells_large_dilution well_data with
  | [] => ret tt
  | large =>
      issue ReservoirWater [PickUpTip] ;;;
      _ <- for_rows ReservoirWater
             (fun idx row st =>
                water_loop n_tubes per_tube
                  (emit_reservoir_water
                     (Tube (dilution_tube_start_index + idx)))
                  (loop_fuel (water_volume row)) (water_volume row) st)
             0 large first_tube ;;
      issue ReservoirWater [DropTip]
  end.

(** STEP 2 (lines 360-406). *)
Definition step_plate_water : result unit :=
  match wells_water_first well_data with
  | [] => ret tt
  | water_first =>
      issue PlateWater [PickUpTip] ;;;
      _ <- for_rows PlateWater
             (fun idx row st =>
                water_loop n_tubes per_tube
                  (emit_plate_water (dest_well_of row))
                  (loop_fuel (water_volume row)) (water_volume row) st)
             0 water_first first_tube ;;
      issue PlateWater [DropTip]
  end.

(** STEP 3 (lines 411-496). *)
Definition step_large_dilution : result unit :=
  _ <- for_rows LargeDilution
         (pure_body (fun idx row =>
            large_dilution_row (Tube (dilution_tube_start_index + idx)) row))
         0 (wells_large_dilution well_data) tt ;;
  ret tt.

(** STEP 4 (lines 501-562). *)
Definition step_water_first_sample : result unit :=
  _ <- for_rows WaterFirstSample
         (pure_body (fun idx row => water_first_sample_row row))
         0 (wells_water_first well_data) tt ;;
  ret tt.

(** STEP 5 (lines 567-619). *)
Definition step_water_after_sample : result unit :=
  _ <- for_rows WaterAfterSample
         (pure_body (fun idx row => water_after_sample_row row))
         0 (wells_water_after well_data) tt ;;
  ret tt.

(** STEP 6 (lines 624-678): every row has a tip of its own around the loop. *)
Definition step_water_after_water : result unit :=
  _ <- for_rows WaterAfterWater
         (fun idx row st =>
            let '(cmds, o) :=
              water_loop n_tubes per_tube (emit_water_after row)
                (loop_fuel (water_volume row)) (water_volume row) st in
            match o with
            | Ok st' => ([PickUpTip] ++ cmds ++ [DropTip], Ok st')
            | _ => ([PickUpTip] ++ cmds, o)
            end)
         0 (wells_water_after well_data) first_tube ;;
  ret tt.

(** Everything after the tube-capacity check. *)
Definition pipetting : result unit :=
  step_reservoir_water ;;;
  step_plate_water ;;;
  step_large_dilution ;;;
  step_water_first_sample ;;;
  step_water_after_sample ;;;
  step_water_after_water.

End Steps.

(** [run(protocol)] on the rows of the uploaded CSV: the calls the script
    makes, every one of them returning.  [DilutionDeck.run_on_deck] is the
    run with the tips the two loaded racks hold. *)
Definition run (csv_rows : list (list string)) : result unit :=
  match csv_rows with
  | [] => raise IndexError
  | headers :: data =>
      match parse_rows data with
      | None => raise ValueError_csv_parsing
      | Some well_data =>
          let errs := validation_errors well_data in
          match errs with
          | _ :: _ => raise (ValueError_validation (List.length errs))
          | [] =>
              if (24 <? total_tubes_needed well_data)%Z
              then raise (ValueError_tubes (total_tubes_needed well_data))
              else pipetting well_data
          end
      end
  end.

End Protocol.

(** *** Validated input *)

(** What the validation section demands of one row. *)
Definition row_ok (num_source_plates num_destination_plates : Z)
    (row : well_entry) : Prop :=
  (1 <= source_plate row <= num_source_plates)%Z
  /\ (1 <= destination_plate row <= num_destination_plates)%Z
  /\ 0 < sample_volume row
  /\ 0 <= water_volume row
  /\ 0 < initial_sample_volume row.

(** The data rows [data] parse to [well_data], which passes the validation
    section and the tube-capacity check. *)
Definition validated (float : string -> option Q)
    (num_source_plates num_destination_plates : Z)
    (data : list (list string)) (well_data : list well_entry) : Prop :=
  parse_rows float data = Some well_data
  /\ validation_errors num_source_plates num_destination_plates well_data = []
  /\ (total_tubes_needed well_data <= 24)%Z.

(** What makes the validation section report a row. *)
Definition row_bad (num_source_plates num_destination_plates : Z)
    (row : well_entry) : Prop :=
  ((source_plate row < 1)%Z \/ (num_source_plates < source_plate row)%Z)
  \/ ((destination_plate row < 1)%Z
      \/ (num_destination_plates < destination_plate row)%Z)
  \/ sample_volume row <= 0
  \/ water_volume row < 0
  \/ initial_sample_volume row <= 0.

(** The data rows are refused: a row does not parse, a parsed row is
    reported by the validation section, or the tubes do not fit the rack. *)
Definition rejected (float : string -> option Q)
    (num_source_plates num_destination_plates : Z)
    (data : list (list string)) : Prop :=
  (exists row, In row data /\ parse_row float row = None)
  \/ exists well_data,
       parse_rows float data = Some well_data
       /\ ((exists row, In row well_data
                        /\ row_bad num_source_plates num_destination_plates row)
           \/ (24 < total_tubes_needed well_data)%Z).


(** *** Reading a trace *)

(** The blocks a loop over [rows] leaves behind, one per row and in order,
    the commands of the block of row [r] at position [idx] satisfying
    [P idx r]. *)
Fixpoint blocks_for (s : step) (P : nat -> well_entry -> list command -> Prop)
    (idx : nat) (rows : list well_entry) (bs : list block) : Prop :=
  match rows, bs with
  | [], [] => True
  | r :: rows', b :: bs' =>
      blk_step b = s /\ blk_row b = Some r /\ P idx r (blk_cmds b)
      /\ blocks_for s P (S idx) rows' bs'
  | _, _ => False
  end.

(** The rows whose blocks belong to a step selected by [p], in trace order. *)
Definition block_rows (p : step -> bool) (bs : list block) : list well_entry :=
  flat_map (fun b => if p (blk_step b)
                     then match blk_row b with Some r => [r] | None => [] end
                     else []) bs.


Definition is_water_step (s : step) : bool :=
  match s with
  | ReservoirWater | PlateWater | WaterAfterWater => true
  | _ => false
  end.

Definition is_sample_step (s : step) : bool := negb (is_water_step s).

Definition commands (bs : list block) : list command :=
  flat_map blk_cmds bs.

Definition is_pick_up_tip (c : command) : bool :=
  match c with PickUpTip => true | _ => false end.

(** Number of [pick_up_tip] calls in a trace. *)
Definition tips_used (bs : list block) : nat :=
  List.length (filter is_pick_up_tip (commands bs)).

(** Volumes aspirated from the water tubes: the water transfers. *)
Definition water_transfers (n_tubes : Z) (cmds : list command) : list Q :=
  flat_map (fun c => match c with
                     | Aspirate vol (Tube i, _) =>
                         if (Z.of_nat i <? n_tubes)%Z then [vol] else []
                     | _ => []
                     end) cmds.

(** Volumes aspirated from tube [i] of the rack. *)
Definition tube_transfers (i : nat) (cmds : list command) : list Q :=
  flat_map (fun c => match c with
                     | Aspirate vol (Tube j, _) =>
                         if (j =? i)%nat then [vol] else []
                     | _ => []
                     end) cmds.

(** Volumes aspirated from source-plate wells: the sample transfers. *)
Definition sample_transfers (cmds : list command) : list Q :=
  flat_map (fun c => match c with
                     | Aspirate vol (SourceWell _ _, _) => [vol]
                     | _ => []
                     end) cmds.

Definition Qsum (l : list Q) : Q := fold_right Qplus 0 l.

(** [ts] splits [required] into portions a 20 uL tip can carry next to its
    air gap: each is strictly positive and at most 19 uL, and together they
    make up exactly [required]. *)
Definition split_into (required : Q) (ts : list Q) : Prop :=
  Forall (fun t => 0 < t /\ t <= 19) ts /\ Qsum ts == required.

Definition location_eqb (a b : location) : bool :=
  match a, b with
  | Tube i, Tube j => (i =? j)%nat
  | SourceWell p w, SourceWell p' w' => (p =? p')%Z && String.eqb w w'
  | DestWell p w, DestWell p' w' => (p =? p')%Z && String.eqb w w'
  | _, _ => false
  end.

(** Liquid bookkeeping of the tip while a trace is replayed: [air] is the
    air gap currently held below the liquid, [gained] the net liquid volume
    the observed well has received so far.  An air gap sits at the tip
    opening, so a dispense expels it before any liquid. *)
Record tally : Type := mk_tally { air : Q; gained : Q }.

Definition account (w : location) (t : tally) (c : command) : tally :=
  match c with
  | AirGap vol => mk_tally (air t + vol) (gained t)
  | Aspirate vol (l, _) =>
      if location_eqb l w then mk_tally (air t) (gained t - vol) else t
  | Dispense vol (l, _) _ =>
      if Qle_bool (air t) vol
      then mk_tally 0 (if location_eqb l w then gained t + (vol - air t)
                       else gained t)
      else mk_tally (air t - vol) (gained t)
  | DropTip => mk_tally 0 (gained t)
  | PickUpTip | BlowOut _ | TouchTip _ _ _ | Mix _ _ _ => t
  end.

(** Net liquid volume well [w] receives over a trace. *)
Definition received (w : location) (cmds : list command) : Q :=
  gained (fold_left (account w) cmds (mk_tally 0 0)).



(** *** A small dilution file

    A water-first row with a split sample, a water-after row and a large
    dilution; used to run the script on concrete data. *)
Definition example_csv : list (list string) :=
  [ ["Source Plate"; "Source Well"; "Dest Plate"; "Dest Well";
     "Sample Vol"; "Water Vol"; "Initial Sample Vol"];
    ["1"; " A1 "; "1"; "B2"; "25"; "40.5"; "50"];
    ["2"; "A2"; "2"; "B3"; "3"; "2"; "50"];
    ["1"; "A3"; "1"; "B4"; "10"; "300"; "50"] ]%string.

Definition example_well_data : list well_entry :=
  [ mk_well_entry 1 "A1" 1 "B2" 25 40.5 50;
    mk_well_entry 2 "A2" 2 "B3" 3 2 50;
    mk_well_entry 1 "A3" 1 "B4" 10 300 50 ].

End MultiPlateDilutions.

(** ** MultiPlateDilutions_v6.py: the tips on the deck

    [p20_single] is loaded with [tip_racks=[tips_20_1, tips_20_2]] (lines
    269-277), two racks of 96 tips, whatever [tip_racks_needed] says.
    [pick_up_tip()] takes the next tip of these racks and raises
    [OutOfTipsError] when none is left; the script does not catch it, so the
    run stops there, the calls issued so far having been carried out. *)

Module DilutionDeck.
Import Py MultiPlateDilutions.
Local Open Scope Q_scope.

(** What a run on the robot can end with: an exception of the script, or
    [OutOfTipsError]. *)
Inductive robot_error : Type :=
| Script (e : error)
| OutOfTipsError.

Definition tips_loaded : nat := 2 * 96.

(** The calls carried out with [tips] tips left in the racks: all of them
    ([true]), or those before the [pick_up_tip] that finds no tip
    ([false]). *)
Fixpoint carried_out (tips : nat) (cmds : list command)
  : list command * bool :=
  match cmds with
  | [] => ([], true)
  | PickUpTip :: rest =>
      match tips with
      | O => ([], false)
      | S tips' =>
          let '(done, all) := carried_out tips' rest in
          (PickUpTip :: done, all)
      end
  | c :: rest =>
      let '(done, all) := carried_out tips rest in (c :: done, all)
  end.

(** Number of [pick_up_tip] calls among [cmds]. *)
Definition pick_ups (cmds : list command) : nat :=
  List.length (filter is_pick_up_tip cmds).

(** [run(protocol)] with the tips of the two racks. *)
Definition run_on_deck (float : string -> option Q)
    (num_source_plates num_destination_plates : Z)
    (csv_rows : list (list string))
  : list command * outcome robot_error unit :=
  let '(bs, o) := run float num_source_plates num_destination_plates
                      csv_rows in
  match carried_out tips_loaded (commands bs) with
  | (done, false) => (done, Raise OutOfTipsError)
  | (done, true) =>
      (done, match o with
             | Ok a => Ok a
             | Raise e => Raise (Script e)
             | OutOfFuel => OutOfFuel
             end)
  end.

(** A file of 97 rows with less than 5 uL of water each, which take two
    tips a row. *)
Definition many_rows_csv : list (list string) :=
  ["header"]%string :: repeat ["1"; "A1"; "1"; "B2"; "10"; "1"; "50"]%string 97.

Definition many_rows_well_data : list well_entry :=
  repeat (mk_well_entry 1 "A1" 1 "B2" 10 1 50) 97.

End DilutionDeck.

(** ** MultiPlateDilutions_v6.py: cells that are not finite numbers

    [float()] also reads [nan], [inf] and [-inf].  This is the run up to the
    tube-capacity check (lines 56-163), before any labware is loaded, on
    every value [float()] can return; on finite cells it is the beginning of
    [MultiPlateDilutions.run]. *)

Module DilutionCells.
Import Py.
Local Open Scope Q_scope.

(** A Python [float]; rounding and overflow of finite values are outside
    the model. *)
Inductive pyfloat : Type :=
| Finite (q : Q)
| PosInf
| NegInf
| NaN.

(** [a + b]. *)
Definition fadd (a b : pyfloat) : pyfloat :=
  match a, b with
  | NaN, _ | _, NaN => NaN
  | PosInf, NegInf | NegInf, PosInf => NaN
  | PosInf, _ | _, PosInf => PosInf
  | NegInf, _ | _, NegInf => NegInf
  | Finite x, Finite y => Finite (x + y)
  end.

(** [a / c] for a positive constant [c]. *)
Definition fdiv_const (a : pyfloat) (c : Q) : pyfloat :=
  match a with
  | Finite x => Finite (x / c)
  | other => other
  end.

(** [a <= c], [a < c] and [a > c] for a constant [c]: every comparison
    with [nan] is false. *)
Definition le_const (a : pyfloat) (c : Q) : bool :=
  match a with
  | Finite x => Qle_bool x c
  | NegInf => true
  | PosInf | NaN => false
  end.

Definition lt_const (a : pyfloat) (c : Q) : bool :=
  match a with
  | Finite x => Qltb x c
  | NegInf => true
  | PosInf | NaN => false
  end.

Definition gt_const (a : pyfloat) (c : Q) : bool :=
  match a with
  | Finite x => Qltb c x
  | PosInf => true
  | NegInf | NaN => false
  end.

(** The exceptions of lines 56-163. *)
Inductive error : Type :=
| ValueError_csv_parsing            (* line 69 *)
| OverflowError_int                 (* [int(inf)], lines 59 and 61 *)
| ValueError_validation (n_errors : nat)   (* line 139 *)
| ValueError_ceil_nan               (* [math.ceil(nan)], line 149 *)
| OverflowError_ceil                (* [math.ceil(inf)], line 149 *)
| ValueError_tubes (total_tubes_needed : Z).   (* line 160 *)

Definition is_ValueError (e : error) : bool :=
  match e with
  | OverflowError_int | OverflowError_ceil => false
  | _ => true
  end.

(** What the body of the [try] (lines 58-66) raises. *)
Inductive parse_error : Type :=
| IndexError
| ValueError
| OverflowError.

(** One entry of [well_data]. *)
Record entry : Type := mk_entry {
  source_plate : Z;
  source_well : string;
  destination_plate : Z;
  destination_well : string;
  sample_volume : pyfloat;
  water_volume : pyfloat;
  initial_sample_volume : pyfloat
}.

Section Checks.

(** Python's [float()] on a CSV cell; [None] when it raises [ValueError]. *)
Variable float : string -> option pyfloat.

Variable num_source_plates : Z.
Variable num_destination_plates : Z.

(** [row[i]]. *)
Definition cell (row : list string) (i : nat) : outcome parse_error string :=
  match nth_error row i with
  | Some c => Ok c
  | None => Raise IndexError
  end.

(** [float(row[i])]. *)
Definition float_cell (row : list string) (i : nat)
  : outcome parse_error pyfloat :=
  match cell row i with
  | Ok c => match float c with
            | Some x => Ok x
            | None => Raise ValueError
            end
  | Raise e => Raise e
  | OutOfFuel => OutOfFuel
  end.

(** [int(float(row[i]))]: [int] raises [ValueError] on [nan] and
    [OverflowError] on an infinity. *)
Definition int_cell (row : list string) (i : nat) : outcome parse_error Z :=
  match float_cell row i with
  | Ok (Finite q) => Ok (int_of_float q)
  | Ok NaN => Raise ValueError
  | Ok _ => Raise OverflowError
  | Raise e => Raise e
  | OutOfFuel => OutOfFuel
  end.

(** The dictionary display of lines 58-66, its values computed in order. *)
Definition parse_row (row : list string) : outcome parse_error entry :=
  match int_cell row 0 with
  | Ok sp =>
  match cell row 1 with
  | Ok sw =>
  match int_cell row 2 with
  | Ok dp =>
  match cell row 3 with
  | Ok dw =>
  match float_cell row 4 with
  | Ok sv =>
  match float_cell row 5 with
  | Ok wv =>
  match float_cell row 6 with
  | Ok iv => Ok (mk_entry sp (strip sw) dp (strip dw) sv wv iv)
  | Raise e => Raise e | OutOfFuel => OutOfFuel end
  | Raise e => Raise e | OutOfFuel => OutOfFuel end
  | Raise e => Raise e | OutOfFuel => OutOfFuel end
  | Raise e => Raise e | OutOfFuel => OutOfFuel end
  | Raise e => Raise e | OutOfFuel => OutOfFuel end
  | Raise e => Raise e | OutOfFuel => OutOfFuel end
  | Raise e => Raise e | OutOfFuel => OutOfFuel end.

(** The loop of lines 56-69: [except (ValueError, IndexError)] turns these
    two into [ValueError("CSV parsing error")]; an [OverflowError] is not
    caught. *)
Fixpoint parse_rows (rows : list (list string))
  : outcome error (list entry) :=
  match rows with
  | [] => Ok []
  | row :: rest =>
      match parse_row row with
      | Ok w =>
          match parse_rows rest with
          | Ok ws => Ok (w :: ws)
          | other => other
          end
      | Raise OverflowError => Raise OverflowError_int
      | Raise _ => Raise ValueError_csv_parsing
      | OutOfFuel => OutOfFuel
      end
  end.

Definition final_volume (row : entry) : pyfloat :=
  fadd (sample_volume row) (water_volume row).

(** Number of messages lines 98-119 append for one row. *)
Definition row_errors (row : entry) : nat :=
  ((if (source_plate row <? 1)%Z || (num_source_plates <? source_plate row)%Z
    then 1 else 0)
   + (if (destination_plate row <? 1)%Z
         || (num_destination_plates <? destination_plate row)%Z
      then 1 else 0)
   + (if le_const (sample_volume row) 0 then 1 else 0)
   + (if lt_const (water_volume row) 0 then 1 else 0)
   + (if le_const (initial_sample_volume row) 0 then 1 else 0))%nat.

Definition validation_errors (well_data : list entry) : nat :=
  fold_left (fun n row => (n + row_errors row)%nat) well_data 0%nat.

Definition is_large (row : entry) : bool := gt_const (final_volume row) 200.

Definition wells_large_dilution (well_data : list entry) : list entry :=
  filter is_large well_data.

Definition wells_normal (well_data : list entry) : list entry :=
  filter (fun row => negb (is_large row)) well_data.

(** [sum(row['water_volume'] for row in l)], from the integer 0. *)
Definition sum_water (l : list entry) : pyfloat :=
  fold_left (fun acc row => fadd acc (water_volume row)) l (Finite 0).

Definition total_water_with_buffer (well_data : list entry) : pyfloat :=
  fadd (fadd (sum_water (wells_normal well_data))
             (sum_water (wells_large_dilution well_data)))
       (Finite 50).

(** [math.ceil(total_water_with_buffer / WATER_TUBE_CAPACITY)], line 149. *)
Definition num_water_tubes (well_data : list entry) : outcome error Z :=
  match fdiv_const (total_water_with_buffer well_data) 1500 with
  | Finite x => Ok (math_ceil x)
  | NaN => Raise ValueError_ceil_nan
  | PosInf | NegInf => Raise OverflowError_ceil
  end.

(** Lines 56-163 on the data rows: the rows as parsed, or the exception
    that stops the run before it loads any labware. *)
Definition checks (data : list (list string)) : outcome error (list entry) :=
  match parse_rows data with
  | Ok well_data =>
      match validation_errors well_data with
      | S n => Raise (ValueError_validation (S n))
      | O =>
          match num_water_tubes well_data with
          | Ok tubes =>
              let total_tubes_needed :=
                (tubes + Z.of_nat (List.length
                                     (wells_large_dilution well_data)))%Z in
              if (24 <? total_tubes_needed)%Z
              then Raise (ValueError_tubes total_tubes_needed)
              else Ok well_data
          | Raise e => Raise e
          | OutOfFuel => OutOfFuel
          end
      end
  | other => other
  end.

End Checks.

(** [float()] on the literals [nan], [inf] and [-inf] and on plain
    decimals. *)
Definition float_literal (s : string) : option pyfloat :=
  if String.eqb s "nan" then Some NaN
  else if String.eqb s "inf" then Some PosInf
  else if String.eqb s "-inf" then Some NegInf
  else option_map Finite (decimal s).

(** [float()] when it returns finite values only. *)
Definition finite (float : string -> option Q) (s : string)
  : option pyfloat :=
  option_map Finite (float s).

(** An entry of [MultiPlateDilutions] as an entry here. *)
Definition of_well_entry (r : MultiPlateDilutions.well_entry) : entry :=
  mk_entry (MultiPlateDilutions.source_plate r)
           (MultiPlateDilutions.source_well r)
           (MultiPlateDilutions.destination_plate r)
           (MultiPlateDilutions.destination_well r)
           (Finite (MultiPlateDilutions.sample_volume r))
           (Finite (MultiPlateDilutions.water_volume r))
           (Finite (MultiPlateDilutions.initial_sample_volume r)).

(** The exception of [MultiPlateDilutions.run] an exception here stands
    for, if any. *)
Definition script_error (e : error) : option MultiPlateDilutions.error :=
  match e with
  | ValueError_csv_parsing => Some MultiPlateDilutions.ValueError_csv_parsing
  | ValueError_validation n => Some (MultiPlateDilutions.ValueError_validation n)
  | ValueError_tubes n => Some (MultiPlateDilutions.ValueError_tubes n)
  | OverflowError_int | ValueError_ceil_nan | OverflowError_ceil => None
  end.

(** A row whose water volume is [nan], and one whose source plate is
    [inf]. *)
Definition nan_water_rows : list (list string) :=
  [["1"; "A1"; "1"; "B2"; "10"; "nan"; "50"]]%string.

Definition inf_plate_rows : list (list string) :=
  [["inf"; "A1"; "1"; "B2"; "10"; "20"; "50"]]%string.

End DilutionCells.

(** ** MultiPlateDilutions_v6.py: what a row brings to its well *)

Module DilutionWells.
Import Py MultiPlateDilutions.
Local Open Scope Q_scope.




End DilutionWells.

(** ** EquiMolar_pooling_v2.py *)

Module EquiMolarPooling.
Import Py.
Local Open Scope Q_scope.

Inductive error : Type :=
| IndexError   (* a data row without a second column *)
| ValueError.  (* a second column that [float()] rejects *)

(** Calls on [p20]; wells are named by the CSV's first column, the pooling
    tube is [tube_block['A1']]. *)
Inductive well : Type :=
| PlateWell (well_name : string)   (* source_plate[well_name] *)
| TubeWell (well_name : string).   (* tube_block[well_name] *)

Inductive command : Type :=
| PickUpTip
| Mix (reps : nat) (vol : Q) (at_ : well)
| Transfer (volume : Q) (source dest : well)
| DropTip.

Definition pooling_tube : well := TubeWell "A1".

Section Protocol.

(** Python's [float()] on a CSV cell; [None] when it raises [ValueError]. *)
Variable float : string -> option Q.

(** [float(row[1])]. *)
Definition volume_of (row : list string) : outcome error Q :=
  match row with
  | _ :: c :: _ =>
      match float c with
      | Some v => Ok v
      | None => Raise ValueError
      end
  | _ => Raise IndexError
  end.

(** [row[0]]; every row that has a second column has a first one. *)
Definition well_name_of (row : list string) : string := hd EmptyString row.

(** [list.sort] first computes the key of every element, in order. *)
Fixpoint with_keys (rows : list (list string))
  : outcome error (list (Q * list string)) :=
  match rows with
  | [] => Ok []
  | row :: rest =>
      match volume_of row with
      | Ok v =>
          match with_keys rest with
          | Ok ks => Ok ((v, row) :: ks)
          | Raise e => Raise e
          | OutOfFuel => OutOfFuel
          end
      | Raise e => Raise e
      | OutOfFuel => OutOfFuel
      end
  end.

(** [sort(key=.., reverse=True)] is a stable sort into descending key order:
    an element stays in front of every later element whose key is not
    strictly larger. *)
Fixpoint insert_desc (x : Q * list string) (l : list (Q * list string))
  : list (Q * list string) :=
  match l with
  | [] => [x]
  | y :: l' => if Qltb (fst x) (fst y) then y :: insert_desc x l' else x :: l
  end.

Definition sort_desc (l : list (Q * list string)) : list (Q * list string) :=
  fold_right insert_desc [] l.

(** Body of the transfer loop (lines 59-80). *)
Definition transfer_row (row : list string)
  : list command * outcome error unit :=
  match volume_of row with
  | Ok volume =>
      let source := PlateWell (well_name_of row) in
      ([PickUpTip; Mix 3 15 source; Transfer volume source pooling_tube;
        DropTip], Ok tt)
  | Raise e => ([], Raise e)
  | OutOfFuel => ([], OutOfFuel)
  end.

Fixpoint transfer_all (rows : list (list string))
  : list command * outcome error unit :=
  match rows with
  | [] => ([], Ok tt)
  | row :: rest =>
      match transfer_row row with
      | (cmds, Ok _) => let '(cmds', o) := transfer_all rest in (cmds ++ cmds', o)
      | r => r
      end
  end.

(** [run(protocol)] on the rows of the uploaded CSV: the calls the script
    makes, every one of them returning.  [PoolingDeck.run_on_deck] is the
    run with the tips the loaded rack holds. *)
Definition run (csv_rows : list (list string))
  : list command * outcome error unit :=
  let transfer_data := tl csv_rows in
  match with_keys transfer_data with
  | Ok keyed => transfer_all (map snd (sort_desc keyed))
  | Raise e => ([], Raise e)
  | OutOfFuel => ([], OutOfFuel)
  end.

End Protocol.

(** The transfer the script reads off a data row, with its own readers
    [well_name_of] and [volume_of]. *)
Definition planned (float : string -> option Q) (row : list string)
  : list (well * Q * well) :=
  match volume_of float row with
  | Ok v => [(PlateWell (well_name_of row), v, pooling_tube)]
  | _ => []
  end.

(** The transfers of a trace, in order: (source, volume, destination). *)
Definition transfers (cmds : list command) : list (well * Q * well) :=
  flat_map (fun c => match c with
                     | Transfer v s d => [(s, v, d)]
                     | _ => []
                     end) cmds.

(** A pooling file with a tie and an unsorted order. *)
Definition example_csv : list (list string) :=
  [ ["Well"; "Volume"]; ["A1"; "5"]; ["B1"; "12.5"]; ["C1"; "5"];
    ["D1"; "20"] ]%string.

End EquiMolarPooling.

(** ** EquiMolar_pooling_v2.py: the tips on the deck, and the specification's words

    [p20] is loaded with [tip_racks=[tiprack]] (lines 38-41), one rack of 96
    tips.  [pick_up_tip()] takes the next tip of the rack and raises
    [OutOfTipsError] when none is left; the script does not catch it, so
    the run stops there, the calls issued so far having been carried out. *)

Module PoolingDeck.
Import Py EquiMolarPooling.
Local Open Scope Q_scope.

(** What a run on the robot can end with: an exception of the script, or
    [OutOfTipsError]. *)
Inductive robot_error : Type :=
| Script (e : error)
| OutOfTipsError.

Definition tips_loaded : nat := 96.

(** The calls carried out with [tips] tips left in the rack: all of them
    ([true]), or those before the [pick_up_tip] that finds no tip
    ([false]). *)
Fixpoint carried_out (tips : nat) (cmds : list command)
  : list command * bool :=
  match cmds with
  | [] => ([], true)
  | PickUpTip :: rest =>
      match tips with
      | O => ([], false)
      | S tips' =>
          let '(done, all) := carried_out tips' rest in
          (PickUpTip :: done, all)
      end
  | c :: rest =>
      let '(done, all) := carried_out tips rest in (c :: done, all)
  end.

(** [run(protocol)] with the tips of the rack. *)
Definition run_on_deck (float : string -> option Q)
    (csv_rows : list (list string))
  : list command * outcome robot_error unit :=
  let '(cmds, o) := run float csv_rows in
  match carried_out tips_loaded cmds with
  | (done, false) => (done, Raise OutOfTipsError)
  | (done, true) =>
      (done, match o with
             | Ok a => Ok a
             | Raise e => Raise (Script e)
             | OutOfFuel => OutOfFuel
             end)
  end.

(** The transfer a data row asks for, in the words of the specification:
    from the well its first column names into pooling tube A1, the volume
    being its second column read as a number. *)
Definition requested (float : string -> option Q) (row : list string)
  : option (well * Q * well) :=
  match row with
  | name :: volume :: _ =>
      match float volume with
      | Some v => Some (PlateWell name, v, TubeWell "A1")
      | None => None
      end
  | _ => None
  end.

(** A pooling file of 97 data rows. *)
Definition many_rows_csv : list (list string) :=
  ["Well"; "Volume"]%string :: repeat ["A1"; "5"]%string 97.

End PoolingDeck.

(** ** The Flex scripts: shared events and the state-and-trace monad *)

Module Flex.
Local Open Scope Q_scope.

Inductive error : Type :=
| IndexError
| NameError.

(** The API calls the claims are about.  Liquid transfers, flow-rate
    settings, module commands and labware moves neither wait, pause nor
    touch a tip rack and are not recorded.  A timed call carries the line
    of the script that issues it, which identifies the wait across runs. *)
Inductive event : Type :=
| PickUpTip (tip : nat)
| ReturnTip
| DropTip
| Delay (line : nat) (minutes : Q)
| Hold (line : nat) (temperature hold_time_seconds : Q)
| Pause (msg : string)
| Home
| SetRailLights (on : bool).

Definition M (St A : Type) : Type :=
  St -> list event * outcome error (A * St).

Definition ret {St A : Type} (a : A) : M St A := fun s => ([], Ok (a, s)).

Definition bind {St A B : Type} (m : M St A) (f : A -> M St B) : M St B :=
  fun s =>
    match m s with
    | (es, Ok (a, s')) => let '(es', o) := f a s' in (es ++ es', o)
    | (es, Raise e) => (es, Raise e)
    | (es, OutOfFuel) => (es, OutOfFuel)
    end.

Definition get {St : Type} : M St St := fun s => ([], Ok (s, s)).
Definition put {St : Type} (s : St) : M St unit := fun _ => ([], Ok (tt, s)).
Definition emit {St : Type} (e : event) : M St unit :=
  fun s => ([e], Ok (tt, s)).
Definition raise {St A : Type} (e : error) : M St A :=
  fun s => ([], Raise e).
Definition when {St : Type} (b : bool) (m : M St unit) : M St unit :=
  if b then m else ret tt.

(** [for x in l: body(x)]. *)
Fixpoint for_each {St X : Type} (l : list X) (body : X -> M St unit)
  : M St unit :=
  match l with
  | [] => ret tt
  | x :: rest => bind (body x) (fun _ => for_each rest body)
  end.

(** [l[i]] for its side condition only: [IndexError] when out of range. *)
Definition index_check {St : Type} (i len : nat) : M St unit :=
  if (i <? len)%nat then ret tt else raise IndexError.

(** [for t in np.arange(start, stop, step): ctx.delay(minutes=0.5)], the
    [ctx.delay] being at [line]. *)
Definition countdown {St : Type} (line : nat) (start stop step : Q)
  : M St unit :=
  for_each (seq 0 (Py.arange_len start stop step))
           (fun _ => emit (Delay line 0.5)).

(** The script line and the minutes of a timed event. *)
Definition wait_of (e : event) : list (nat * Q) :=
  match e with
  | Delay line m => [(line, m)]
  | Hold line _ s => [(line, s / 60)]
  | _ => []
  end.

(** The timed waits of a trace, in order. *)
Definition waits (es : list event) : list (nat * Q) := flat_map wait_of es.

(** Lines of the script that wait at least once in a trace. *)
Definition wait_lines (es : list event) : list nat := map fst (waits es).

(** Minutes of the successive waits that [line] performs in a trace. *)
Definition waits_at (line : nat) (es : list event) : list Q :=
  map snd (filter (fun w => (fst w =? line)%nat) (waits es)).

(** [no_longer dry normal]: the k-th wait of [dry] lasts no longer than the
    k-th wait of [normal]; [normal] may go on waiting after [dry] stopped. *)
Inductive no_longer : list Q -> list Q -> Prop :=
| nl_nil : forall normal, no_longer [] normal
| nl_cons : forall d n dry normal,
    d <= n -> no_longer dry normal -> no_longer (d :: dry) (n :: normal).

Fixpoint no_longerb (dry normal : list Q) : bool :=
  match dry, normal with
  | [], _ => true
  | d :: dry', n :: normal' => Qle_bool d n && no_longerb dry' normal'
  | _ :: _, [] => false
  end.

(** Every wait of the dry run is no longer than the corresponding wait (same
    line of the script, same occurrence) of the normal run. *)
Definition dry_run_no_longer (dry normal : list event) : Prop :=
  forall line, no_longer (waits_at line dry) (waits_at line normal).

Definition dry_run_no_longerb (dry normal : list event) : bool :=
  forallb (fun line => no_longerb (waits_at line dry) (waits_at line normal))
          (wait_lines dry).

Definition is_pause (msg : string) (e : event) : bool :=
  match e with Pause m => String.eqb m msg | _ => false end.

Definition picked_tips (es : list event) : list nat :=
  flat_map (fun e => match e with PickUpTip t => [t] | _ => [] end) es.

End Flex.

Declare Scope flex_scope.
Delimit Scope flex_scope with flex.
Notation "x <- m ;; k" := (Flex.bind m (fun x => k))
  (at level 61, m at next level, right associativity) : flex_scope.
Notation "m ;;; k" := (Flex.bind m (fun _ => k))
  (at level 61, right associativity) : flex_scope.

(** ** Flex/SelectASizeCleaning.py *)

Module SelectASizeCleaning.
Import Flex.
Local Open Scope Q_scope.

(** [run(protocol)]: the waits and pauses of the script, in program order;
    the script is one straight line of pipetting steps between them, and
    the calls on its two pipettes and on the gripper are left out.
    [magbead_incubation_time] is a float parameter with minimum 1.0 and
    maximum 30.0. *)
Definition run (magbead_incubation_time bead_mixing_volume : Q)
    (DryRun : bool) : list event :=
  (* STEP 5: Incubate *)
  [Delay 159 (if negb DryRun then 5 else 0.5)]
  (* STEP 7: Magnetic separation *)
  ++ [Delay 167 (if negb DryRun then magbead_incubation_time else 0.5)]
  (* after STEP 10 *)
  ++ (if negb DryRun then [Pause "Ensure all buffer removed."] else [])
  (* STEP 13: Elution incubation *)
  ++ [Delay 224 (if negb DryRun then 5 else 0.5)]
  (* STEP 14: Final magnet separation *)
  ++ [Delay 229 (if negb DryRun then magbead_incubation_time else 0.5)].

End SelectASizeCleaning.

(** ** Flex/Zymo_LibraryPrep_TG_V2.py *)

Module LibraryPrep.
Import Flex.
Local Open Scope Q_scope.

(** [tc_mod.execute_profile(steps, repetitions)]. *)
Definition execute_profile (line : nat) (steps : list (Q * Q))
    (repetitions : nat) : list event :=
  flat_map (fun _ => map (fun s => Hold line (fst s) (snd s)) steps)
           (seq 0 repetitions).

Definition profile1 : list (Q * Q) := [(95, 600)].
Definition profile2 : list (Q * Q) := [(95, 30); (55, 30); (72, 180)].

(** [drop()]. *)
Definition drop (DryRun : bool) : event :=
  if DryRun then ReturnTip else DropTip.

(** [run(protocol)]; [protocol.delay(seconds=1)] waits 1/60 minute.
    Tip 0 is [tip50_full1], tip 1 the first column of [tip50_partial1]. *)
Definition run (DryRun using_thermocycler : bool) : list event :=
  [PickUpTip 0; Delay 135 (1 / 60); Delay 142 (1 / 60); drop DryRun]
  ++ (if using_thermocycler
      then (if negb DryRun
            then execute_profile 160 profile1 1
                 ++ execute_profile 166 profile2 42
            else [])
      else [Pause "Please remove the sample plate and place it in an external thermocycler or incubator for PCR amplification. After PCR is complete, place the plate back in slot C2 and resume the protocol."])
  ++ [PickUpTip 1]
  ++ flat_map (fun _ => [Delay 187 (1 / 60)]) (seq 0 12)
  ++ [DropTip].

End LibraryPrep.

(** ** Flex/Zymo_Magbead_DNA_Kit_48samples.py *)

Module Zymo48.
Import Flex Py.
Local Open Scope Q_scope.
Local Open Scope flex_scope.

(** Module-level globals.  [waste_vol] is declared [global] in
    [_waste_track] but never assigned at module level: it starts unbound. *)
Record globals : Type := mk_globals {
  whichwash : nat;
  tip1k : nat;
  tip200 : nat;
  drop_count : nat;
  waste_vol : option Q
}.

Definition initial_globals : globals := mk_globals 1 0 0 0 None.

Definition sample_max : nat := 48.

(** Number of wells of [tips]: five 96-tip racks. *)
Definition n_tips : nat := 5 * 96.

Definition empty_bin_msg : string :=
  "Please empty the waste bin of all the tips before continuing.".
Definition empty_liquid_msg : string :=
  "Please empty liquid waste before resuming.".

(** [tiptrack(pip, tipbox)]; every call site passes [tips]. *)
Definition tiptrack : M globals unit :=
  g <- get ;;
  index_check (tip1k g) n_tips ;;;
  emit (PickUpTip (tip1k g)) ;;;
  let count := (drop_count g + 8)%nat in
  if (150 <=? count)%nat
  then put (mk_globals (whichwash g) (tip1k g + 8) (tip200 g) 0 (waste_vol g)) ;;;
       emit (Pause empty_bin_msg)
  else put (mk_globals (whichwash g) (tip1k g + 8) (tip200 g) count
                       (waste_vol g)).

(** [blink()]. *)
Definition blink : M globals unit :=
  for_each (seq 0 3) (fun _ =>
    emit (SetRailLights true) ;;;
    emit (Delay 204 0.01666667) ;;;
    emit (SetRailLights false) ;;;
    emit (Delay 206 0.01666667)).

(** [_waste_track(vol)], local to [remove_supernatant]. *)
Definition _waste_track (vol : Q) : M globals unit :=
  g <- get ;;
  match waste_vol g with
  | None => raise NameError
  | Some w =>
      let w' := w + vol * 8 in
      put (mk_globals (whichwash g) (tip1k g) (tip200 g) (drop_count g)
                      (Some w')) ;;;
      if Qle_bool 185000 w'
      then emit Home ;;; blink ;;; emit (Pause empty_liquid_msg) ;;;
           g' <- get ;;
           put (mk_globals (whichwash g') (tip1k g') (tip200 g')
                           (drop_count g') (Some 0))
      else ret tt
  end.

Section Protocol.

(** Values delivered by [get_values]. *)
Variable dry_run : bool.
Variable heater_shaker : bool.
Variable num_samples : nat.

Definition settling_time : Q := if negb dry_run then 2 else 0.25.
Definition settling_time_binding : Q := if negb dry_run then 5 else 0.25.
Definition settling_time_wash : Q := if negb dry_run then 1 else 0.25.

Definition num_cols : nat :=
  Z.to_nat (math_ceil (inject_Z (Z.of_nat num_samples) / 8)).

(** [samples_m = sample_plate.rows()[0][:num_cols]], as column indices. *)
Definition samples_m : list nat := firstn num_cols (seq 0 12).

(** Lengths of the reagent well lists. *)
Definition len_binding_buffer : nat := 3.   (* res1.wells()[0:3] *)
Definition len_bind2_res : nat := 2.        (* res1.wells()[4:6] *)
Definition len_wash1 : nat := 2.            (* res1.wells()[7:9] *)
Definition len_wash2 : nat := 6.            (* res2.wells()[:6]  *)
Definition len_wash3 : nat := 6.            (* res2.wells()[6:]  *)

(** The shake of a step: a timed delay on the heater-shaker, or a pause for
    the user when there is none (skipped in a dry run). *)
Definition shake (line : nat) (minutes : Q) (msg : string)
  : M globals unit :=
  if heater_shaker
  then emit (Delay line (if negb dry_run then minutes else 0.25))
  else when (negb dry_run) (emit (Pause msg)).

(** [remove_supernatant(vol)].  [_waste_track] is defined in its body and
    not called. *)
Definition remove_supernatant : M globals unit :=
  for_each samples_m (fun m =>
    tiptrack ;;;
    emit DropTip).

(** [bind(vol1, vol2)]. *)
Definition bind_ : M globals unit :=
  for_each samples_m (fun i =>
    tiptrack ;;;
    index_check (i / 2) len_binding_buffer ;;;
    emit DropTip) ;;;
  shake 338 10 "Place on shaker at 1800 rpm for 10 minutes" ;;;
  countdown 357 (settling_time_binding + 1) 0 (-0.5) ;;;
  remove_supernatant ;;;
  tiptrack ;;;
  for_each samples_m (fun i =>
    index_check (i / 3) len_bind2_res) ;;;
  for_each (seq 0 num_cols) (fun i =>
    when (negb (i =? 0)%nat) tiptrack ;;;
    index_check i (List.length samples_m) ;;;
    emit DropTip) ;;;
  shake 387 1 "Place on shaker at 1800 rpm for 1 minute." ;;;
  countdown 406 (settling_time_wash + 1) 0 (-0.5) ;;;
  remove_supernatant.

(** [wash(vol, source)] for the reagent list numbered [which] of length
    [len_source]. *)
Definition wash (which len_source : nat) : M globals unit :=
  g <- get ;;
  put (mk_globals which (tip1k g) (tip200 g) (drop_count g) (waste_vol g)) ;;;
  let const := (6 / len_source)%nat in
  tiptrack ;;;
  for_each samples_m (fun i =>
    index_check (i / const) len_source) ;;;
  emit DropTip ;;;
  shake 447 2 "Shaker for 2 minutes at 1800 rpm" ;;;
  countdown 466 settling_time_wash 0 (-0.5) ;;;
  remove_supernatant.

(** [elute(vol)]. *)
Definition elute : M globals unit :=
  tiptrack ;;;
  emit DropTip ;;;
  shake 480 5 "Place on a shaker at 1800 rpm for 5 minutes." ;;;
  countdown 499 settling_time 0 (-0.5) ;;;
  for_each samples_m (fun m =>
    tiptrack ;;;
    emit DropTip).

(** [run(ctx)], from "Protocol execution" on. *)
Definition run : M globals unit :=
  bind_ ;;;
  wash 1 len_wash1 ;;;
  (if negb dry_run
   then wash 2 len_wash2 ;;; wash 3 len_wash3
   else ret tt) ;;;
  countdown 524 (if negb dry_run then 9 else 0.5) 0 (-0.5) ;;;
  elute.

End Protocol.

(** The trace of a run started from the module's initial globals. *)
Definition trace (dry_run heater_shaker : bool) (num_samples : nat)
  : list event :=
  fst (run dry_run heater_shaker num_samples initial_globals).

End Zymo48.

(** ** Zymo_Magbead_DNA_Kit_24samples_20250828.py *)

Module Zymo24.
Import Flex Py.
Local Open Scope Q_scope.
Local Open Scope flex_scope.

(** [ReagentVolume], the fields the tracked calls use. *)
Definition SAMPLE : Q := 200.
Definition MAGBINDING_BUFFER : Q := 600.
Definition MAGBEADS : Q := 20.
Definition MAGBINDING_BUFFER_WASH : Q := 500.
Definition MAGWASH_1 : Q := 500.
Definition MAGWASH_2_1 : Q := 900.
Definition MAGWASH_2_2 : Q := 900.
Definition TOTAL_BINDING_VOLUME : Q := MAGBINDING_BUFFER + MAGBEADS + SAMPLE.

(** [Timer]. *)
Record Timer : Type := mk_Timer {
  MAGNET_SETTLING : Q;
  MAGNET_SETTLING_EXT : Q;
  WASH : Q;
  SHAKER_WASH : Q;
  SHAKER_ELUTE : Q;
  BLINK : Q;
  BIND : Q;
  BEAD_DRY : Q
}.

Definition default_timers : Timer := mk_Timer 2 3 1 1 5 (1 / 60) 3 10.

(** [RunTimeParameters], the mutable fields. *)
Record RunTimeParameters : Type := mk_runtime {
  WASH_COUNT : nat;
  TIP1000 : nat;
  TIP200 : nat;
  DROP_COUNT : nat;
  WASTE_VOL : Q
}.

Definition MAX_SAMPLES : nat := 48.

Definition empty_bin_msg : string :=
  "Please empty the waste bin before continuing.".
Definition empty_liquid_msg : string :=
  "Please empty liquid waste before resuming.".

(** [l[a:b]]. *)
Definition slice {A : Type} (l : list A) (a b : nat) : list A :=
  firstn (b - a) (skipn a l).

(** Columns of the three tip racks, by index into [total_tips]. *)
Definition total_tips : list nat := seq 0 (3 * 12).

(** [drop_tips()]. *)
Definition drop_tips : M RunTimeParameters unit :=
  emit DropTip ;;;
  r <- get ;;
  let count := (DROP_COUNT r + 1)%nat in
  if (18 <=? count)%nat
  then put (mk_runtime (WASH_COUNT r) (TIP1000 r) (TIP200 r) 0 (WASTE_VOL r)) ;;;
       emit (Pause empty_bin_msg)
  else put (mk_runtime (WASH_COUNT r) (TIP1000 r) (TIP200 r) count
                       (WASTE_VOL r)).

(** [return_tips()]. *)
Definition return_tips : M RunTimeParameters unit := emit ReturnTip.

(** [get_tips()]: the next tip column that is not reserved. *)
Definition get_tips : M RunTimeParameters unit :=
  r <- get ;;
  index_check (TIP1000 r) (List.length total_tips) ;;;
  emit (PickUpTip (nth (TIP1000 r) total_tips 0%nat)) ;;;
  put (mk_runtime (WASH_COUNT r) (TIP1000 r + 1) (TIP200 r) (DROP_COUNT r)
                  (WASTE_VOL r)).

Section Protocol.

(** [ctx.params]. *)
Variable sample_count : nat.
Variable dry_run : bool.

(** Lines 165-168: a dry run sets every field of [timers] to 0.25. *)
Definition timers : Timer :=
  if dry_run
  then mk_Timer 0.25 0.25 0.25 0.25 0.25 0.25 0.25 0.25
  else default_timers.

Definition num_sample_columns : nat :=
  Z.to_nat (math_ceil (inject_Z (Z.of_nat sample_count) / 8)).

Definition sample_index_columns : list nat :=
  firstn num_sample_columns (seq 0 12).

Definition reagent_tips : nat := nth 0 total_tips 0%nat.
Definition supernatant_tips : list nat :=
  slice total_tips 1 (num_sample_columns + 1).
Definition elution_tips : list nat :=
  slice total_tips (1 + num_sample_columns) (1 + 2 * num_sample_columns).
Definition remaining_tips : list nat :=
  skipn (1 + 2 * num_sample_columns) total_tips.

(** [runtime] after line 222. *)
Definition initial_runtime : RunTimeParameters :=
  mk_runtime 1 (List.length total_tips - List.length remaining_tips) 0 0 0.

(** [blink()]. *)
Definition blink : M RunTimeParameters unit :=
  for_each (seq 0 3) (fun _ =>
    emit (SetRailLights true) ;;;
    emit (Delay 409 (BLINK timers)) ;;;
    emit (SetRailLights false) ;;;
    emit (Delay 411 (BLINK timers))).

(** [track_waste(volume)]. *)
Definition track_waste (volume : Q) : M RunTimeParameters unit :=
  r <- get ;;
  let w := WASTE_VOL r + volume * 8 in
  put (mk_runtime (WASH_COUNT r) (TIP1000 r) (TIP200 r) (DROP_COUNT r) w) ;;;
  if Qle_bool 185000 w
  then emit Home ;;; blink ;;; emit (Pause empty_liquid_msg) ;;;
       r' <- get ;;
       put (mk_runtime (WASH_COUNT r') (TIP1000 r') (TIP200 r')
                       (DROP_COUNT r') 0)
  else ret tt.

(** [move_to_magnet(source_plate, duration)]; [np.arange(duration, -0.5)]
    has start [duration], stop [-0.5] and the default step 1. *)
Definition move_to_magnet (duration : Q) : M RunTimeParameters unit :=
  when (Qltb 0 duration) (countdown 375 duration (-0.5) 1).

(** [shake_mix(..., duration, ...)]. *)
Definition shake_mix (duration : Q) : M RunTimeParameters unit :=
  countdown 400 duration (-0.5) 1.

(** [remove_supernatant(volume, dispose_tips)]. *)
Definition remove_supernatant (volume : Q) (dispose_tips : bool)
  : M RunTimeParameters unit :=
  track_waste volume ;;;
  for_each (combine supernatant_tips sample_index_columns) (fun tc =>
    emit (PickUpTip (fst tc)) ;;;
    if dispose_tips then drop_tips else return_tips).

(** [wash(source_plate, volume, dispose_tips)], [num_res_wells] being
    [len(source_plate)]. *)
Definition wash (num_res_wells : nat) (volume : Q) (dispose_tips : bool)
  : M RunTimeParameters unit :=
  r <- get ;;
  put (mk_runtime (WASH_COUNT r + 1) (TIP1000 r) (TIP200 r) (DROP_COUNT r)
                  (WASTE_VOL r)) ;;;
  let max_sample_columns := (MAX_SAMPLES / 8)%nat in
  let uses_per_res_well := (max_sample_columns / num_res_wells)%nat in
  emit (PickUpTip reagent_tips) ;;;
  for_each sample_index_columns (fun index =>
    index_check (index / uses_per_res_well) num_res_wells) ;;;
  return_tips ;;;
  shake_mix (SHAKER_WASH timers) ;;;
  move_to_magnet (MAGNET_SETTLING timers) ;;;
  remove_supernatant volume dispose_tips.

(** [bind()]; [binding_buffer] has three wells. *)
Definition bind_ : M RunTimeParameters unit :=
  emit (PickUpTip reagent_tips) ;;;
  for_each sample_index_columns (fun index =>
    index_check (index / 2) 3) ;;;
  return_tips ;;;
  for_each (combine supernatant_tips sample_index_columns) (fun tc =>
    emit (PickUpTip (fst tc)) ;;;
    return_tips) ;;;
  countdown 544 (BIND timers) (-0.5) 1 ;;;
  move_to_magnet (MAGNET_SETTLING_EXT timers) ;;;
  remove_supernatant TOTAL_BINDING_VOLUME false.

(** [elute()]. *)
Definition elute : M RunTimeParameters unit :=
  countdown 557 (BEAD_DRY timers) (-0.5) 1 ;;;
  for_each (combine elution_tips sample_index_columns) (fun tc =>
    emit (PickUpTip (fst tc)) ;;;
    return_tips) ;;;
  shake_mix (SHAKER_ELUTE timers) ;;;
  move_to_magnet (MAGNET_SETTLING timers) ;;;
  for_each (combine elution_tips sample_index_columns) (fun tc =>
    emit (PickUpTip (fst tc)) ;;;
    drop_tips).

(** [run(ctx)], lines 601-606; the reagent lists have 2, 2, 6 and 6 wells. *)
Definition run : M RunTimeParameters unit :=
  bind_ ;;;
  wash 2 MAGBINDING_BUFFER_WASH false ;;;
  wash 2 MAGWASH_1 false ;;;
  wash 6 MAGWASH_2_1 false ;;;
  wash 6 MAGWASH_2_2 true ;;;
  elute.

End Protocol.

(** The trace of a run and the runtime record it ends with. *)
Definition trace (sample_count : nat) (dry_run : bool) : list event :=
  fst (run sample_count dry_run (initial_runtime sample_count)).

Definition final_runtime (sample_count : nat) (dry_run : bool)
  : option RunTimeParameters :=
  match snd (run sample_count dry_run (initial_runtime sample_count)) with
  | Ok (_, r) => Some r
  | _ => None
  end.

(** How each use of tip column [c] ends: [true] when the tips are dropped
    into the trash, [false] when they are returned to the rack. *)
Fixpoint tip_fates (c : nat) (holding : bool) (es : list event) : list bool :=
  match es with
  | [] => []
  | PickUpTip t :: es' => tip_fates c (t =? c)%nat es'
  | ReturnTip :: es' =>
      (if holding then [false] else []) ++ tip_fates c false es'
  | DropTip :: es' =>
      (if holding then [true] else []) ++ tip_fates c false es'
  | _ :: es' => tip_fates c holding es'
  end.

End Zymo24.

(** ** EquiMolar_pooling_v2.py: the calls of a transfer *)

Module PoolingCalls.
Import Py EquiMolarPooling.
Local Open Scope Q_scope.

(** The four calls the loop body makes for a transfer (lines 59-80). *)
Definition calls_of (t : well * Q * well) : list command :=
  let '(source, volume, dest) := t in
  [PickUpTip; Mix 3 15 source; Transfer volume source dest; DropTip].

(** The rows of a list whose volume equals [v]. *)
Definition with_volume (v : Q) (ts : list (well * Q * well))
  : list (well * Q * well) :=
  filter (fun t => Qeq_bool (snd (fst t)) v) ts.

(** The rows of a keyed list whose key equals [v]. *)
Definition key_is (v : Q) (kr : Q * list string) : bool :=
  Qeq_bool (fst kr) v.

End PoolingCalls.

(** ** MultiPlateDilutions_v6.py: the tip while a trace is replayed *)

Module DilutionTip.
Import Py MultiPlateDilutions.
Local Open Scope Q_scope.

(** Whether [p20_single] carries a tip, and the volume (liquid and air) the
    commands issued so far have left in it. *)
Record tip_state : Type := mk_tip { attached : bool; held : Q }.

(** The tips of [opentrons_96_filtertiprack_20ul]. *)
Definition tip_capacity : Q := 20.

(** A positive volume that fits the attached tip next to what it holds. *)
Definition fits (s : tip_state) (vol : Q) : bool :=
  attached s && Qltb 0 vol && Qle_bool (held s + vol) tip_capacity.

(** One command replayed on the tip; [None] when the command makes no sense
    in that state: a pipetting command without a tip, a second tip picked up
    over the first, a volume that is not positive or does not fit the tip, a
    dispense of more than the tip holds, a tip dropped with something left
    in it. *)
Definition tip_step (s : tip_state) (c : command) : option tip_state :=
  match c with
  | PickUpTip => if attached s then None else Some (mk_tip true 0)
  | DropTip =>
      if attached s && Qle_bool (held s) 0 then Some (mk_tip false 0) else None
  | Aspirate vol _ | AirGap vol =>
      if fits s vol then Some (mk_tip true (held s + vol)) else None
  | Dispense vol _ _ =>
      if attached s && Qltb 0 vol && Qle_bool vol (held s)
      then Some (mk_tip true (held s - vol)) else None
  | Mix _ vol _ => if fits s vol then Some s else None
  | BlowOut _ | TouchTip _ _ _ => if attached s then Some s else None
  end.

Fixpoint tip_replay (s : tip_state) (cmds : list command)
  : option tip_state :=
  match cmds with
  | [] => Some s
  | c :: rest =>
      match tip_step s c with
      | Some s' => tip_replay s' rest
      | None => None
      end
  end.

End DilutionTip.

(** ** MultiPlateDilutions_v6.py: the 24-tube rack *)

Module DilutionRack.
Import Py MultiPlateDilutions.
Local Open Scope Q_scope.

(** [str(col)] for a one-digit column number. *)
Definition str_digit (n : nat) : string :=
  String (ascii_of_nat (48 + n)) EmptyString.

(** Lines 178-181: the wells of the rack, column by column. *)
Definition well_names_column_order : list string :=
  flat_map (fun col =>
              map (fun row => (row ++ str_digit col)%string)
                  ["A"; "B"; "C"; "D"]%string)
           (seq 1 6).

(** [[well_names_column_order[i] for i in range(first, first + count)]];
    [None] when an index is out of range ([IndexError]). *)
Definition names_in_range (first count : nat) : option (list string) :=
  fold_right (fun i acc =>
                match nth_error well_names_column_order i, acc with
                | Some name, Some names => Some (name :: names)
                | _, _ => None
                end)
             (Some []) (seq first count).

(** Line 280 (and the comment of line 191): where the user loads water. *)
Definition water_tube_names (well_data : list well_entry)
  : option (list string) :=
  names_in_range 0 (Z.to_nat (num_water_tubes well_data)).

(** Line 198: where the large dilutions are prepared. *)
Definition dilution_tube_names (well_data : list well_entry)
  : option (list string) :=
  names_in_range (Z.to_nat (num_water_tubes well_data))
                 (List.length (wells_large_dilution well_data)).

(** The tube a command aspirates from. *)
Definition aspirated_tube (c : command) : list nat :=
  match c with
  | Aspirate _ (Tube i, _) => [i]
  | _ => []
  end.

(** The tube any other command addresses. *)
Definition addressed_tube (c : command) : list nat :=
  match c with
  | Dispense _ (Tube i, _) _ | BlowOut (Tube i, _) | Mix _ _ (Tube i, _)
  | TouchTip (Tube i) _ _ => [i]
  | _ => []
  end.

(** Tubes the water steps aspirate from. *)
Definition water_sources (bs : list block) : list nat :=
  flat_map (fun b => if is_water_step (blk_step b)
                     then flat_map aspirated_tube (blk_cmds b) else []) bs.

(** Every other use of a tube: tubes dispensed into, mixed in or blown out
    over in any step, and tubes the sample steps aspirate from. *)
Definition preparation_tubes (bs : list block) : list nat :=
  flat_map (fun b => flat_map addressed_tube (blk_cmds b)
                     ++ (if is_water_step (blk_step b) then []
                         else flat_map aspirated_tube (blk_cmds b))) bs.

End DilutionRack.

(** ** MultiPlateDilutions_v6.py: what is taken out of each tube *)

Module DilutionDraw.
Import Py MultiPlateDilutions.
Local Open Scope Q_scope.

(** Volume the commands aspirate from tube [i] of the rack. *)
Definition drawn (i : nat) (cmds : list command) : Q :=
  Qsum (tube_transfers i cmds).

(** A file that needs two water tubes: two large dilutions of 375 uL of
    water each and four normal ones of 187.5 uL. *)
Definition two_tube_csv : list (list string) :=
  [ ["Source Plate"; "Source Well"; "Dest Plate"; "Dest Well";
     "Sample Vol"; "Water Vol"; "Initial Sample Vol"];
    ["1"; "A1"; "1"; "A1"; "10"; "375"; "50"];
    ["1"; "A2"; "1"; "A2"; "10"; "375"; "50"];
    ["1"; "A3"; "1"; "A3"; "10"; "187.5"; "50"];
    ["1"; "A4"; "1"; "A4"; "10"; "187.5"; "50"];
    ["1"; "A5"; "1"; "A5"; "10"; "187.5"; "50"];
    ["1"; "A6"; "1"; "A6"; "10"; "187.5"; "50"] ]%string.

Definition two_tube_well_data : list well_entry :=
  [ mk_well_entry 1 "A1" 1 "A1" 10 375 50;
    mk_well_entry 1 "A2" 1 "A2" 10 375 50;
    mk_well_entry 1 "A3" 1 "A3" 10 187.5 50;
    mk_well_entry 1 "A4" 1 "A4" 10 187.5 50;
    mk_well_entry 1 "A5" 1 "A5" 10 187.5 50;
    mk_well_entry 1 "A6" 1 "A6" 10 187.5 50 ].

End DilutionDraw.

(** ** Flex/SelectASizeCleaning.py: the pipetting

    The run with the calls on its two pipettes; heights inside a well, flow
    rates and labware moves are left out.  The waits and the pause are the
    events of [SelectASizeCleaning.run]. *)

Module SelectASizePipetting.
Import Flex Py.
Local Open Scope Q_scope.

Inductive pipette : Type :=
| Pip50      (* flex_8channel_50 *)
| Pip1000.   (* flex_8channel_1000 *)

Inductive rack : Type :=
| MixingTips1000
| TransferTips50
| WashTips50
| ElutionTips50.

(** Wells the eight channels reach together. *)
Inductive well : Type :=
| Reagent (i : nat)         (* reagent_reservoir.wells()[i] *)
| Waste                     (* waste_reservoir.wells()[0] *)
| SampleColumn (c : nat)    (* sample_columns[c][0] *)
| ElutionColumn (c : nat).  (* elution_columns[c][0] *)

Inductive call : Type :=
| PickUpTip (pip : pipette) (tips : rack) (column : nat)
| ReturnTip (pip : pipette)
| DropTip (pip : pipette)
| Aspirate (pip : pipette) (volume : Q) (source : well)
| Dispense (pip : pipette) (volume : Q) (destination : well)
| BlowOut (pip : pipette) (destination : well)
| Wait (e : event).

Definition dnase_free_water : well := Reagent 0.
Definition dna_wash_buffer : well := Reagent 2.
Definition water_magbead_mix : well := Reagent 11.

(** Volumes of lines 88-90. *)
Definition loaded : list (well * Q) :=
  [(dnase_free_water, 3000); (dna_wash_buffer, 6000);
   (water_magbead_mix, 3347.5)].

(** [bead_mixing(well, pip, mvol, reps)]: [mvol] is not used. *)
Definition bead_mixing (well_ : well) (pip : pipette) (mvol : Q) (reps : nat)
  : list call :=
  let vol := 200 in
  flat_map (fun i => [Aspirate pip vol well_; Dispense pip vol well_;
                      Aspirate pip vol well_; Dispense pip vol well_])
           (seq 0 reps).

(** [mixing(well, pip, mvol, reps)]. *)
Definition mixing (well_ : well) (pip : pipette) (mvol : Q) (reps : nat)
  : list call :=
  let vol := min2 mvol 1000 * 0.8 in
  flat_map (fun i => [Aspirate pip vol well_; Dispense pip vol well_])
           (seq 0 reps).

(** [run(protocol)]. *)
Definition run (magbead_incubation_time bead_mixing_volume : Q)
    (DryRun : bool) : list call :=
  (* STEP 1 *)
  [PickUpTip Pip1000 MixingTips1000 0]
  (* STEP 2 *)
  ++ [PickUpTip Pip50 TransferTips50 0]
  ++ flat_map (fun col_idx =>
       bead_mixing water_magbead_mix Pip1000
                   (200 - 10 * inject_Z (Z.of_nat col_idx)) 5
       ++ [Aspirate Pip50 26 water_magbead_mix;
           Dispense Pip50 26 (SampleColumn col_idx);
           ReturnTip Pip50]
       ++ (if (col_idx <? 11)%nat
           then [PickUpTip Pip50 TransferTips50 (col_idx + 1)] else []))
     (seq 0 12)
  ++ [ReturnTip Pip1000]
  (* STEP 4 *)
  ++ flat_map (fun col_idx =>
       [PickUpTip Pip50 TransferTips50 col_idx]
       ++ mixing (SampleColumn col_idx) Pip50 20 20
       ++ [ReturnTip Pip50])
     (seq 0 12)
  (* STEP 5 *)
  ++ [Wait (Delay 159 (if negb DryRun then 5 else 0.5))]
  (* STEP 7 *)
  ++ [Wait (Delay 167 (if negb DryRun then magbead_incubation_time
                       else 0.5))]
  (* STEP 8 *)
  ++ flat_map (fun col_idx =>
       [PickUpTip Pip50 TransferTips50 col_idx;
        Aspirate Pip50 35 (SampleColumn col_idx);
        Dispense Pip50 35 Waste;
        DropTip Pip50])
     (seq 0 12)
  (* STEP 9 *)
  ++ [PickUpTip Pip1000 MixingTips1000 1]
  ++ mixing dna_wash_buffer Pip1000 bead_mixing_volume 5
  ++ [ReturnTip Pip1000]
  ++ flat_map (fun col_idx =>
       [PickUpTip Pip50 WashTips50 col_idx;
        Aspirate Pip50 50 dna_wash_buffer;
        Dispense Pip50 50 (SampleColumn col_idx);
        BlowOut Pip50 (SampleColumn col_idx);
        ReturnTip Pip50])
     (seq 0 12)
  (* STEP 10 *)
  ++ flat_map (fun col_idx =>
       [PickUpTip Pip50 WashTips50 col_idx;
        Aspirate Pip50 50 (SampleColumn col_idx);
        Dispense Pip50 50 Waste;
        DropTip Pip50])
     (seq 0 12)
  ++ (if negb DryRun then [Wait (Pause "Ensure all buffer removed.")] else [])
  (* STEP 11 *)
  ++ [PickUpTip Pip1000 MixingTips1000 3]
  ++ mixing dnase_free_water Pip1000 bead_mixing_volume 5
  ++ [ReturnTip Pip1000]
  ++ flat_map (fun col_idx =>
       [PickUpTip Pip50 ElutionTips50 col_idx;
        Aspirate Pip50 20 dnase_free_water;
        Dispense Pip50 20 (SampleColumn col_idx);
        ReturnTip Pip50])
     (seq 0 12)
  (* STEP 12 *)
  ++ flat_map (fun col_idx =>
       [PickUpTip Pip50 ElutionTips50 col_idx]
       ++ mixing (SampleColumn col_idx) Pip50 18 20
       ++ [ReturnTip Pip50])
     (seq 0 12)
  (* STEP 13 *)
  ++ [Wait (Delay 224 (if negb DryRun then 5 else 0.5))]
  (* STEP 14 *)
  ++ [Wait (Delay 229 (if negb DryRun then magbead_incubation_time
                       else 0.5))]
  (* STEP 15 *)
  ++ flat_map (fun col_idx =>
       [PickUpTip Pip50 ElutionTips50 col_idx;
        Aspirate Pip50 18 (SampleColumn col_idx);
        Dispense Pip50 18 (ElutionColumn col_idx);
        BlowOut Pip50 (ElutionColumn col_idx);
        DropTip Pip50])
     (seq 0 12).

(** *** Reading the calls *)

Definition waits_and_pauses (cs : list call) : list event :=
  flat_map (fun c => match c with Wait e => [e] | _ => [] end) cs.

Definition pipetting (cs : list call) : list call :=
  filter (fun c => match c with Wait _ => false | _ => true end) cs.

Definition pipette_eqb (a b : pipette) : bool :=
  match a, b with
  | Pip50, Pip50 | Pip1000, Pip1000 => true
  | _, _ => false
  end.

Definition well_eqb (a b : well) : bool :=
  match a, b with
  | Reagent i, Reagent j | SampleColumn i, SampleColumn j
  | ElutionColumn i, ElutionColumn j => (i =? j)%nat
  | Waste, Waste => true
  | _, _ => false
  end.

(** The column of the plates a well belongs to, if any. *)
Definition plate_column (w : well) : option nat :=
  match w with
  | SampleColumn c | ElutionColumn c => Some c
  | _ => None
  end.

(** The tips on the two pipettes: the rack column they were taken from. *)
Record tips_on : Type := mk_tips_on {
  on50 : option (rack * nat);
  on1000 : option (rack * nat)
}.

Definition tips_of (p : pipette) (s : tips_on) : option (rack * nat) :=
  match p with Pip50 => on50 s | Pip1000 => on1000 s end.

Definition set_tips (p : pipette) (t : option (rack * nat)) (s : tips_on)
  : tips_on :=
  match p with
  | Pip50 => mk_tips_on t (on1000 s)
  | Pip1000 => mk_tips_on (on50 s) t
  end.

(** A pipette with tips from column [c] of a rack may reach into the
    reservoirs and into column [c] of the plates only. *)
Definition reaches (s : tips_on) (p : pipette) (w : well) : bool :=
  match tips_of p s with
  | Some (_, c) =>
      match plate_column w with
      | Some c' => (c =? c')%nat
      | None => true
      end
  | None => false
  end.

(** One call replayed on the pipettes; [None] when tips are picked up over
    others, returned or dropped when there are none, or when liquid is
    moved without tips or in a plate column other than that of the tips. *)
Definition tips_step (s : tips_on) (c : call) : option tips_on :=
  match c with
  | PickUpTip p r col =>
      match tips_of p s with
      | None => Some (set_tips p (Some (r, col)) s)
      | Some _ => None
      end
  | ReturnTip p | DropTip p =>
      match tips_of p s with
      | Some _ => Some (set_tips p None s)
      | None => None
      end
  | Aspirate p _ w | Dispense p _ w | BlowOut p w =>
      if reaches s p w then Some s else None
  | Wait _ => Some s
  end.

Fixpoint tips_replay (s : tips_on) (cs : list call) : option tips_on :=
  match cs with
  | [] => Some s
  | c :: rest =>
      match tips_step s c with
      | Some s' => tips_replay s' rest
      | None => None
      end
  end.

(** The rack columns whose tips end in the waste chute, resp. back in
    their rack, in order. *)
Fixpoint fates (drop : bool) (s : tips_on) (cs : list call)
  : list (rack * nat) :=
  match cs with
  | [] => []
  | c :: rest =>
      match c with
      | ReturnTip p | DropTip p =>
          let is_drop := match c with DropTip _ => true | _ => false end in
          (if Bool.eqb is_drop drop
           then match tips_of p s with Some t => [t] | None => [] end
           else [])
          ++ fates drop (set_tips p None s) rest
      | PickUpTip p r col => fates drop (set_tips p (Some (r, col)) s) rest
      | _ => fates drop s rest
      end
  end.

(** Net volume each channel of pipette [p] brings to well [w]. *)
Definition brought (p : pipette) (w : well) (cs : list call) : Q :=
  fold_left (fun acc c =>
               match c with
               | Aspirate p' vol src =>
                   if pipette_eqb p' p && well_eqb src w
                   then Qred (acc - vol) else acc
               | Dispense p' vol dst =>
                   if pipette_eqb p' p && well_eqb dst w
                   then Qred (acc + vol) else acc
               | _ => acc
               end) cs 0.

(** [Pip1000] only mixes: each of its aspirates is followed at once by a
    dispense of the same volume into the same well, and the volume is
    positive and at most [cap]. *)
Inductive mixes_only (cap : Q) : list call -> Prop :=
| mo_nil : mixes_only cap []
| mo_mix : forall vol w rest,
    0 < vol -> vol <= cap -> mixes_only cap rest ->
    mixes_only cap (Aspirate Pip1000 vol w :: Dispense Pip1000 vol w :: rest)
| mo_other : forall c rest,
    match c with
    | Aspirate Pip1000 _ _ | Dispense Pip1000 _ _ | BlowOut Pip1000 _ => False
    | _ => True
    end ->
    mixes_only cap rest -> mixes_only cap (c :: rest).

(** The volumes [Pip50] moves, each positive and at most 50 uL, always one
    aspirate and then one dispense of the same volume. *)
Fixpoint pip50_volumes (holding : option Q) (cs : list call) : bool :=
  match cs with
  | [] => match holding with None => true | Some _ => false end
  | Aspirate Pip50 vol _ :: rest =>
      match holding with
      | None => Qltb 0 vol && Qle_bool vol 50 && pip50_volumes (Some vol) rest
      | Some _ => false
      end
  | Dispense Pip50 vol _ :: rest =>
      match holding with
      | Some held => Qeq_bool vol held && pip50_volumes None rest
      | None => false
      end
  | (ReturnTip Pip50 | DropTip Pip50 | PickUpTip Pip50 _ _) :: rest =>
      match holding with
      | None => pip50_volumes None rest
      | Some _ => false
      end
  | _ :: rest => pip50_volumes holding rest
  end.

Definition rack_columns (r : rack) (cols : list nat) : list (rack * nat) :=
  map (fun c => (r, c)) cols.

Definition fate_eqb (a b : rack * nat) : bool :=
  match fst a, fst b with
  | MixingTips1000, MixingTips1000 | TransferTips50, TransferTips50
  | WashTips50, WashTips50 | ElutionTips50, ElutionTips50 =>
      (snd a =? snd b)%nat
  | _, _ => false
  end.

Fixpoint fates_eqb (a b : list (rack * nat)) : bool :=
  match a, b with
  | [], [] => true
  | x :: a', y :: b' => fate_eqb x y && fates_eqb a' b'
  | _, _ => false
  end.

(** The checks on tips of a run, which do not look at its volumes. *)
Definition tips_check (cs : list call) : bool :=
  match tips_replay (mk_tips_on None None) cs with
  | Some s => match on50 s, on1000 s with None, None => true | _, _ => false end
  | None => false
  end
  && fates_eqb (fates true (mk_tips_on None None) cs)
               (rack_columns TransferTips50 (seq 0 12)
                ++ rack_columns WashTips50 (seq 0 12)
                ++ rack_columns ElutionTips50 (seq 0 12)).

End SelectASizePipetting.

(** ** Flex/Zymo_Magbead_DNA_Kit_48samples.py: volumes split into transfers

    [remove_supernatant] (lines 211-212), [bind] (lines 316-317 and
    365-366) and [wash] (lines 428-429) move a volume in [num_trans]
    transfers of [vol_per_trans] each. *)

Module Zymo48Transfers.
Import Py.
Local Open Scope Q_scope.

Inductive error : Type :=
| ZeroDivisionError.

(** [num_trans = math.ceil(vol/980)]. *)
Definition num_trans (vol : Q) : Z := math_ceil (vol / 980).

(** [vol_per_trans = vol/num_trans]. *)
Definition vol_per_trans (vol : Q) : outcome error Q :=
  if (num_trans vol =? 0)%Z then Raise ZeroDivisionError
  else Ok (vol / inject_Z (num_trans vol)).

(** The volumes of [for _ in range(num_trans): transfer(vol_per_trans, ..)]. *)
Definition transfers (vol : Q) : outcome error (list Q) :=
  match vol_per_trans vol with
  | Ok v => Ok (repeat v (Z.to_nat (num_trans vol)))
  | Raise e => Raise e
  | OutOfFuel => OutOfFuel
  end.

(** The air gap of these transfers, and the tips they are made with. *)
Definition air_gap : Q := 20.
Definition tip_capacity : Q := 1000.

End Zymo48Transfers.

(** ** [liquids_] of the two Zymo scripts

    The function is the same in [Flex/Zymo_Magbead_DNA_Kit_48samples.py]
    (lines 145-180) and [Zymo_Magbead_DNA_Kit_24samples_20250828.py] (lines
    285-321) but for the names of its free variables, here the variables of
    the section.  It declares the liquid the user has to load; the wells are
    of any type [W]. *)

Module ZymoLiquids.
Import Py.
Local Open Scope Q_scope.

Inductive error : Type :=
| ZeroDivisionError.

(** [while left > limit: left = left - limit]. *)
Fixpoint reduce_left (fuel : nat) (limit left_ : Q) : outcome error Q :=
  if Qltb limit left_ then
    match fuel with
    | O => OutOfFuel
    | S fuel' => reduce_left fuel' limit (left_ - limit)
    end
  else Ok left_.

Section Liquids.

Variable W : Type.

(** [sample_max], resp. [runtime.MAX_SAMPLES]. *)
Variable sample_max : Z.

(** [sampnum]: [8 * math.ceil(num_samples / 8)], resp.
    [rounded_sample_count]. *)
Variable sampnum : Z.

(** The liquid whose extra volume is computed from another volume:
    ["MagBinding Beads"] and [bind_vol], resp.
    ["MagBinding Buffer With Beads"] and [BINDING_BUFFER_VOLUME]. *)
Variable special_liquid : string.
Variable special_vol : Q.

(** [limit = sample_max / len(location)]. *)
Definition limit_of (n_wells : nat) : Q :=
  inject_Z sample_max / inject_Z (Z.of_nat n_wells).

(** [iterations = math.ceil(sampnum / limit)]. *)
Definition iterations_of (n_wells : nat) : Z :=
  math_ceil (inject_Z sampnum / limit_of n_wells).

(** [samples_per_well] for a list of [n_wells] wells. *)
Definition samples_per_well (n_wells : nat) : outcome error (list Q) :=
  if (n_wells =? 0)%nat then Raise ZeroDivisionError
  else
    let limit := limit_of n_wells in
    if Qeq_bool limit 0 then Raise ZeroDivisionError
    else
      let iterations := iterations_of n_wells in
      match reduce_left (Z.to_nat iterations) limit
                        (inject_Z sampnum - limit) with
      | Ok left_ =>
          let last_iteration_samp_num :=
            if Qltb 0 left_ then left_
            else if Qltb left_ 0 then inject_Z sampnum
                 else limit in
          Ok (map (fun i => if (Z.of_nat i =? iterations - 1)%Z
                            then last_iteration_samp_num else limit)
                  (seq 0 (Z.to_nat iterations)))
      | Raise e => Raise e
      | OutOfFuel => OutOfFuel
      end.

Definition extra_samples (liq : string) (vol : Q) : outcome error Z :=
  let divisor := if String.eqb liq special_liquid then special_vol else vol in
  if Qeq_bool divisor 0 then Raise ZeroDivisionError
  else Ok (math_ceil (1500 / divisor)).

(** [liquids_(liq, location, color, vol)]: the wells it loads and the
    volume it declares for each; [location] is one well or a list. *)
Definition liquids_ (liq : string) (location : W + list W) (vol : Q)
  : outcome error (list (W * Q)) :=
  match extra_samples liq vol with
  | Ok extra =>
      match location with
      | inr wells =>
          match samples_per_well (List.length wells) with
          | Ok per_well =>
              Ok (map (fun sw => (snd sw, vol * (fst sw + inject_Z extra)))
                      (combine per_well
                               (firstn (List.length per_well) wells)))
          | Raise e => Raise e
          | OutOfFuel => OutOfFuel
          end
      | inl well => Ok [(well, vol * (inject_Z sampnum + inject_Z extra))]
      end
  | Raise e => Raise e
  | OutOfFuel => OutOfFuel
  end.

End Liquids.

End ZymoLiquids.

(** ** The Zymo scripts: whole runs *)

Module ZymoRuns.
Import Py Flex.
Local Open Scope Q_scope.

(** The messages of the pauses of a trace, in order. *)
Definition pauses (es : list event) : list string :=
  flat_map (fun e => match e with Pause msg => [msg] | _ => [] end) es.

Fixpoint nats_eqb (a b : list nat) : bool :=
  match a, b with
  | [], [] => true
  | x :: a', y :: b' => (x =? y)%nat && nats_eqb a' b'
  | _, _ => false
  end.

(** Tips the 48-sample script picks up in a complete run over [k] sample
    columns: every call of [tiptrack]. *)
Definition zymo48_pick_ups (dry_run : bool) (k : nat) : nat :=
  if dry_run then 6 * k + 2 else 8 * k + 4.

(** The k-th tip of the five racks counted eight by eight. *)
Definition zymo48_tips (count : nat) : list nat :=
  map (fun i => 8 * i)%nat (seq 0 count).

(** A complete run of the 48-sample script: it ends normally, having
    picked up the tips [0, 8, 16, ...] in this order, one for each call of
    [tiptrack]. *)
Definition zymo48_complete (dry_run heater_shaker : bool) (num_samples : nat)
  : bool :=
  let m := zymo48_pick_ups dry_run (Zymo48.num_cols num_samples) in
  match Zymo48.run dry_run heater_shaker num_samples Zymo48.initial_globals
  with
  | (es, Ok (_, g)) =>
      nats_eqb (picked_tips es) (zymo48_tips m)
      && (Zymo48.tip1k g =? 8 * m)%nat
      && (8 * m <=? Zymo48.n_tips)%nat
  | _ => false
  end.

(** The counters of the 24-sample script at the end of a run. *)
Definition zymo24_counters (sample_count : nat) (dry_run : bool) : bool :=
  match Zymo24.final_runtime sample_count dry_run with
  | Some r =>
      Qeq_bool (Zymo24.WASTE_VOL r) 28960
      && (Zymo24.DROP_COUNT r
          =? 2 * Zymo24.num_sample_columns sample_count)%nat
  | None => false
  end.

End ZymoRuns.

(** ** Zymo_Magbead_DNA_Kit_24samples_20250828.py: the liquid handling

    The run again, this time with the calls that move liquid.  The calls on
    tips, waits and pauses are those of [Zymo24] and are issued through its
    functions; heights inside a well ([bottom(z)], [top(z)]) and flow rates
    are left out. *)

Module Zymo24Calls.
Import Flex Zymo24.
Local Open Scope Q_scope.

(** Wells the eight channels reach together: a well of a reservoir, the
    first well of a column of a plate, the waste reservoir. *)
Inductive well : Type :=
| Reservoir1 (i : nat)      (* reservoir_1.wells()[i] *)
| Reservoir2 (i : nat)      (* reservoir_2.wells()[i] *)
| SampleColumn (c : nat)    (* sample_plate.columns()[c][0] *)
| ElutionColumn (c : nat)   (* elution_plate.columns()[c][0] *)
| LiquidWaste.              (* waste *)

(** Calls on [m1000] and [ctx]; volumes are per channel. *)
Inductive call : Type :=
| Tracked (e : event)
| Aspirate (volume : Q) (source : well)
| AirGap (volume : Q)
| Dispense (volume : Q) (destination : well)
| BlowOut (destination : well).

Definition L (A : Type) : Type :=
  RunTimeParameters -> list call * outcome error (A * RunTimeParameters).

Definition ret {A : Type} (a : A) : L A := fun s => ([], Ok (a, s)).

Definition bind {A B : Type} (m : L A) (f : A -> L B) : L B :=
  fun s =>
    match m s with
    | (cs, Ok (a, s')) => let '(cs', o) := f a s' in (cs ++ cs', o)
    | (cs, Raise e) => (cs, Raise e)
    | (cs, OutOfFuel) => (cs, OutOfFuel)
    end.

Definition issue (c : call) : L unit := fun s => ([c], Ok (tt, s)).

(** A function of the tip-and-wait model, called as it is. *)
Definition lift {A : Type} (m : M RunTimeParameters A) : L A :=
  fun s => let '(es, o) := m s in (map Tracked es, o).

Fixpoint for_each {X : Type} (l : list X) (body : X -> L unit) : L unit :=
  match l with
  | [] => ret tt
  | x :: rest => bind (body x) (fun _ => for_each rest body)
  end.

(** [l[i]]. *)
Definition item {X : Type} (l : list X) (i : nat) : L X :=
  match nth_error l i with
  | Some x => ret x
  | None => fun s => ([], Raise IndexError)
  end.

End Zymo24Calls.

Declare Scope calls_scope.
Delimit Scope calls_scope with calls.
Notation "x <- m ;; k" := (Zymo24Calls.bind m (fun x => k))
  (at level 61, m at next level, right associativity) : calls_scope.
Notation "m ;;; k" := (Zymo24Calls.bind m (fun _ => k))
  (at level 61, right associativity) : calls_scope.

Module Zymo24Liquid.
Import Flex Py Zymo24 Zymo24Calls.
Local Open Scope Q_scope.
Local Open Scope calls_scope.

(** [ReagentVolume], the fields not yet used, and [MixingCycle]. *)
Definition ELUTION : Q := 75.
Definition SUPERNATANT_EXT : Q := 200.
Definition AIR_GAP : Q := 20.
Definition BINDING_BUFFER_VOLUME : Q := MAGBINDING_BUFFER + MAGBEADS.
Definition PRE_MIX_MAGBEADS : nat := 3.
Definition MIX_BINDING_SAMPLES : nat := 8.

(** Reagent locations (lines 195-200); the reservoirs have twelve wells. *)
Definition binding_buffer : list well := map Reservoir1 (slice (seq 0 12) 1 4).
Definition binding_buffer_2 : list well :=
  map Reservoir1 (slice (seq 0 12) 4 6).
Definition wash_1 : list well := map Reservoir1 (slice (seq 0 12) 6 8).
Definition elution_solution : well := Reservoir1 11.
Definition wash_2_1 : list well := map Reservoir2 (firstn 6 (seq 0 12)).
Definition wash_2_2 : list well := map Reservoir2 (skipn 6 (seq 0 12)).

(** [aspirate_and_dispense(volume, source, destination, air_gap,
    blow_out)]. *)
Definition aspirate_and_dispense (volume : Q) (source destination : well)
    (air_gap : Q) (blow_out : bool) : L unit :=
  issue (Aspirate volume source) ;;;
  issue (AirGap air_gap) ;;;
  issue (Dispense (volume + air_gap) destination) ;;;
  if blow_out then issue (BlowOut destination) else ret tt.

(** [smart_mix(source, volume, large_volume_mix, reps)], [mix_ratio] being
    left at 0.8: every position of [mix_positions] is in [source]. *)
Definition smart_mix (source : well) (volume : Q) (large_volume_mix : bool)
    (reps : nat) : L unit :=
  let mixing_volume := volume * 0.8 in
  let num_locations := if large_volume_mix then 4%nat else 3%nat in
  for_each (seq 0 reps) (fun rep =>
    for_each (seq 0 num_locations) (fun loc_index =>
      aspirate_and_dispense mixing_volume source source 0 false)) ;;;
  aspirate_and_dispense mixing_volume source source 0 false.

Section Protocol.

Variable sample_count : nat.
Variable dry_run : bool.

Local Notation "'COLUMNS'" := (sample_index_columns sample_count).

(** [elution_sample_index_columns]. *)
Definition elution_sample_index_columns : list nat :=
  firstn (num_sample_columns sample_count) (seq 0 12).

(** [remove_supernatant(volume, dispose_tips)]. *)
Definition remove_supernatant (volume : Q) (dispose_tips : bool) : L unit :=
  lift (track_waste dry_run volume) ;;;
  for_each (combine (supernatant_tips sample_count) COLUMNS) (fun tc =>
    let '(super_tips, sample_col) := tc in
    issue (Tracked (PickUpTip super_tips)) ;;;
    aspirate_and_dispense volume (SampleColumn sample_col) LiquidWaste
                          AIR_GAP false ;;;
    aspirate_and_dispense SUPERNATANT_EXT (SampleColumn sample_col)
                          LiquidWaste AIR_GAP true ;;;
    if dispose_tips then lift drop_tips else lift return_tips).

(** [wash(source_plate, volume, dispose_tips)]. *)
Definition wash (source_plate : list well) (volume : Q) (dispose_tips : bool)
  : L unit :=
  lift (r <- get ;;
        put (mk_runtime (WASH_COUNT r + 1) (TIP1000 r) (TIP200 r)
                        (DROP_COUNT r) (WASTE_VOL r)))%flex ;;;
  let num_res_wells := List.length source_plate in
  let max_sample_columns := (MAX_SAMPLES / 8)%nat in
  let uses_per_res_well := (max_sample_columns / num_res_wells)%nat in
  issue (Tracked (PickUpTip reagent_tips)) ;;;
  for_each (enumerate COLUMNS) (fun iw =>
    let '(index, sample_well) := iw in
    source <- item source_plate (index / uses_per_res_well) ;;
    aspirate_and_dispense volume source (SampleColumn sample_well)
                          AIR_GAP false) ;;;
  lift return_tips ;;;
  lift (shake_mix (SHAKER_WASH (timers dry_run))) ;;;
  lift (move_to_magnet (MAGNET_SETTLING (timers dry_run))) ;;;
  remove_supernatant volume dispose_tips.

(** [bind()]. *)
Definition bind_ : L unit :=
  issue (Tracked (PickUpTip reagent_tips)) ;;;
  for_each (enumerate COLUMNS) (fun iw =>
    let '(index, sample_well) := iw in
    source <- item binding_buffer (index / 2) ;;
    smart_mix source BINDING_BUFFER_VOLUME true PRE_MIX_MAGBEADS ;;;
    aspirate_and_dispense BINDING_BUFFER_VOLUME source
                          (SampleColumn sample_well) AIR_GAP false) ;;;
  lift return_tips ;;;
  for_each (combine (supernatant_tips sample_count) COLUMNS) (fun tc =>
    let '(super_tips, sample_col) := tc in
    issue (Tracked (PickUpTip super_tips)) ;;;
    smart_mix (SampleColumn sample_col) TOTAL_BINDING_VOLUME false
              MIX_BINDING_SAMPLES ;;;
    lift return_tips) ;;;
  lift (countdown 544 (BIND (timers dry_run)) (-0.5) 1) ;;;
  lift (move_to_magnet (MAGNET_SETTLING_EXT (timers dry_run))) ;;;
  remove_supernatant TOTAL_BINDING_VOLUME false.

(** [elute()]. *)
Definition elute : L unit :=
  lift (countdown 557 (BEAD_DRY (timers dry_run)) (-0.5) 1) ;;;
  for_each (combine (elution_tips sample_count) COLUMNS) (fun tc =>
    let '(elute_tips, sample_col) := tc in
    issue (Tracked (PickUpTip elute_tips)) ;;;
    aspirate_and_dispense ELUTION elution_solution (SampleColumn sample_col)
                          0 false ;;;
    lift return_tips) ;;;
  lift (shake_mix (SHAKER_ELUTE (timers dry_run))) ;;;
  lift (move_to_magnet (MAGNET_SETTLING (timers dry_run))) ;;;
  for_each (combine (elution_tips sample_count)
                    (combine COLUMNS elution_sample_index_columns)) (fun tce =>
    let '(elute_tips, (sample_col, elute_col)) := tce in
    issue (Tracked (PickUpTip elute_tips)) ;;;
    aspirate_and_dispense ELUTION (SampleColumn sample_col)
                          (ElutionColumn elute_col) 0 false ;;;
    lift drop_tips).

(** [run(ctx)], lines 601-606. *)
Definition run : L unit :=
  bind_ ;;;
  wash binding_buffer_2 MAGBINDING_BUFFER_WASH false ;;;
  wash wash_1 MAGWASH_1 false ;;;
  wash wash_2_1 MAGWASH_2_1 false ;;;
  wash wash_2_2 MAGWASH_2_2 true ;;;
  elute.

(** The liquids declared before the run (lines 249-325), in the order of
    the calls of [liquids_]. *)
Definition liquids : list (string * (well + list well) * Q) :=
  [ ("MagBinding Buffer With Beads"%string, inr binding_buffer,
     BINDING_BUFFER_VOLUME);
    ("MagBinding Buffer Wash"%string, inr binding_buffer_2,
     MAGBINDING_BUFFER_WASH);
    ("MagWash 1"%string, inr wash_1, MAGWASH_1);
    ("MagWash 2-1"%string, inr wash_2_1, MAGWASH_2_1);
    ("MagWash 2-2"%string, inr wash_2_2, MAGWASH_2_2);
    ("DNase/RNase Free Water"%string, inl elution_solution, ELUTION) ].

Definition rounded_sample_count : Z :=
  8 * Z.of_nat (num_sample_columns sample_count).

Fixpoint generate_liquids (l : list (string * (well + list well) * Q))
  : outcome ZymoLiquids.error (list (well * Q)) :=
  match l with
  | [] => Ok []
  | (liquid_name, location, vol) :: rest =>
      match ZymoLiquids.liquids_ well (Z.of_nat MAX_SAMPLES)
              rounded_sample_count "MagBinding Buffer With Beads"
              BINDING_BUFFER_VOLUME liquid_name location vol with
      | Ok loads =>
          match generate_liquids rest with
          | Ok loads' => Ok (loads ++ loads')
          | Raise e => Raise e
          | OutOfFuel => OutOfFuel
          end
      | Raise e => Raise e
      | OutOfFuel => OutOfFuel
      end
  end.

End Protocol.

(** The calls of a run and the way it ends. *)
Definition calls (sample_count : nat) (dry_run : bool) : list call :=
  fst (run sample_count dry_run (initial_runtime sample_count)).

(** *** Reading the calls *)

(** The calls of the tip-and-wait model among the calls of a run. *)
Definition tracked (cs : list call) : list event :=
  flat_map (fun c => match c with Tracked e => [e] | _ => [] end) cs.

Definition well_eqb (a b : well) : bool :=
  match a, b with
  | Reservoir1 i, Reservoir1 j | Reservoir2 i, Reservoir2 j
  | SampleColumn i, SampleColumn j | ElutionColumn i, ElutionColumn j =>
      (i =? j)%nat
  | LiquidWaste, LiquidWaste => true
  | _, _ => false
  end.

(** Liquid bookkeeping for one channel while the calls are replayed: [air]
    is the air gap held below the liquid, which a dispense expels first;
    [gained] is the net liquid volume well [w] has received. *)
Record tally : Type := mk_tally { air : Q; gained : Q }.

Definition account (w : well) (t : tally) (c : call) : tally :=
  match c with
  | AirGap vol => mk_tally (air t + vol) (gained t)
  | Aspirate vol src =>
      if well_eqb src w then mk_tally (air t) (gained t - vol) else t
  | Dispense vol dst =>
      if Qle_bool (air t) vol
      then mk_tally 0 (if well_eqb dst w then gained t + (vol - air t)
                       else gained t)
      else mk_tally (air t - vol) (gained t)
  | Tracked ReturnTip | Tracked DropTip => mk_tally 0 (gained t)
  | _ => t
  end.

(** Net liquid volume each channel brings to well [w] over the calls. *)
Definition received (w : well) (cs : list call) : Q :=
  gained (fold_left (account w) cs (mk_tally 0 0)).

(** The tips of [opentrons_flex_96_tiprack_1000ul]. *)
Definition tip_capacity : Q := 1000.

(** Whether tips are on, and the volume (liquid and air) the calls issued
    so far have left in each of them, kept in lowest terms. *)
Record tip_state : Type := mk_tip { attached : bool; held : Q }.

(** One call replayed on the pipette; [None] when the call makes no sense
    in that state: a liquid call without tips, tips picked up over others, an
    aspirated volume that is not positive or does not fit the tip with what
    it holds, a dispense of anything but the volume the tip holds (liquid
    and air), tips returned or dropped with something left in them. *)
Definition tip_step (s : tip_state) (c : call) : option tip_state :=
  match c with
  | Tracked (PickUpTip _) =>
      if attached s then None else Some (mk_tip true 0)
  | Tracked ReturnTip | Tracked DropTip =>
      if attached s && Qle_bool (held s) 0 then Some (mk_tip false 0)
      else None
  | Tracked _ => Some s
  | Aspirate vol _ =>
      if attached s && Qltb 0 vol && Qle_bool (held s + vol) tip_capacity
      then Some (mk_tip true (Qred (held s + vol))) else None
  | AirGap vol =>
      if attached s && Qle_bool 0 vol && Qle_bool (held s + vol) tip_capacity
      then Some (mk_tip true (Qred (held s + vol))) else None
  | Dispense vol _ =>
      if attached s && Qltb 0 vol && Qeq_bool vol (held s)
      then Some (mk_tip true 0) else None
  | BlowOut _ => if attached s then Some s else None
  end.

Fixpoint tip_replay (s : tip_state) (cs : list call) : option tip_state :=
  match cs with
  | [] => Some s
  | c :: rest =>
      match tip_step s c with
      | Some s' => tip_replay s' rest
      | None => None
      end
  end.

(** The largest volume the tips hold at any time. *)
Fixpoint tip_peak (held peak : Q) (cs : list call) : Q :=
  match cs with
  | [] => peak
  | c :: rest =>
      let held' := match c with
                   | Aspirate vol _ | AirGap vol => Qred (held + vol)
                   | Dispense vol _ => Qred (held - vol)
                   | _ => held
                   end in
      tip_peak held' (if Qltb peak held' then held' else peak) rest
  end.

(** The wells of the two reagent reservoirs. *)
Definition reagent_wells : list well :=
  map Reservoir1 (seq 0 12) ++ map Reservoir2 (seq 0 12).

(** Volume declared for well [w]. *)
Definition declared (w : well) (loads : list (well * Q)) : Q :=
  sum_by snd (filter (fun l => well_eqb (fst l) w) loads).

(** *** Checks on a run, decided by running it *)

Definition Q_eqb (a b : Q) : bool :=
  (Qnum a =? Qnum b)%Z && (Qden a =? Qden b)%positive.

Definition event_eqb (a b : event) : bool :=
  match a, b with
  | PickUpTip t, PickUpTip t' => (t =? t')%nat
  | ReturnTip, ReturnTip | DropTip, DropTip | Home, Home => true
  | Delay l m, Delay l' m' => (l =? l')%nat && Q_eqb m m'
  | Hold l t h, Hold l' t' h' => (l =? l')%nat && Q_eqb t t' && Q_eqb h h'
  | Pause m, Pause m' => String.eqb m m'
  | SetRailLights b, SetRailLights b' => Bool.eqb b b'
  | _, _ => false
  end.

Fixpoint trace_eqb (a b : list event) : bool :=
  match a, b with
  | [], [] => true
  | x :: a', y :: b' => event_eqb x y && trace_eqb a' b'
  | _, _ => false
  end.

Definition runtime_eqb (r r' : RunTimeParameters) : bool :=
  (WASH_COUNT r =? WASH_COUNT r')%nat && (TIP1000 r =? TIP1000 r')%nat
  && (TIP200 r =? TIP200 r')%nat && (DROP_COUNT r =? DROP_COUNT r')%nat
  && Q_eqb (WASTE_VOL r) (WASTE_VOL r').

(** The run ends normally, with the calls of the tip-and-wait model and
    in the same final state of the counters. *)
Definition same_tracked (sample_count : nat) (dry_run : bool) : bool :=
  match run sample_count dry_run (initial_runtime sample_count),
        Zymo24.run sample_count dry_run (initial_runtime sample_count) with
  | (cs, Ok (_, r)), (es, Ok (_, r')) =>
      trace_eqb (tracked cs) es && runtime_eqb r r'
  | _, _ => false
  end.

Definition tips_ok (sample_count : nat) (dry_run : bool) : bool :=
  match tip_replay (mk_tip false 0) (calls sample_count dry_run) with
  | Some s => negb (attached s)
  | None => false
  end
  && Qeq_bool (tip_peak 0 0 (calls sample_count dry_run)) 920.

Definition waste_ok (sample_count : nat) (dry_run : bool) : bool :=
  Qeq_bool (received LiquidWaste (calls sample_count dry_run))
           (4620 * inject_Z (Z.of_nat (num_sample_columns sample_count))).

Definition reagents_ok (sample_count : nat) (dry_run : bool) : bool :=
  match generate_liquids sample_count liquids with
  | Ok loads =>
      forallb (fun w =>
                 Qle_bool 0 (declared w loads
                             + 8 * received w (calls sample_count dry_run)))
              reagent_wells
      && forallb (fun l => existsb (well_eqb (fst l)) reagent_wells) loads
  | _ => false
  end.

End Zymo24Liquid.

(** * Proofs

    Facts about the Python helpers. *)

Module PyFacts.
Import Py.
Local Open Scope Q_scope.

(** [strip] on a cell padded with a tab, a no-break space and an
    ideographic space. *)
Example strip_padded :
  strip (String (ascii_of_nat 9) (String (ascii_of_nat 194)
          (String (ascii_of_nat 160) ("B 2" ++
            String (ascii_of_nat 227) (String (ascii_of_nat 128)
              (String (ascii_of_nat 128) " ")))))) = "B 2"%string.
Proof. reflexivity. Qed.

Lemma Qltb_true a b : Qltb a b = true <-> a < b.
Proof.
  unfold Qltb. rewrite negb_true_iff. split; intro H.
  - apply Qnot_le_lt. intro L. apply Qle_bool_iff in L. congruence.
  - destruct (Qle_bool b a) eqn:E; [|reflexivity].
    apply Qle_bool_iff in E. exfalso. exact (Qlt_not_le _ _ H E).
Qed.

Lemma Qltb_false a b : Qltb a b = false <-> b <= a.
Proof.
  unfold Qltb. rewrite negb_false_iff. apply Qle_bool_iff.
Qed.

Lemma Qle_bool_false a b : Qle_bool a b = false <-> b < a.
Proof.
  rewrite <- Qltb_true. unfold Qltb. rewrite negb_true_iff. tauto.
Qed.

Lemma min2_cases a b :
  (min2 a b = a /\ a <= b) \/ (min2 a b = b /\ b < a).
Proof.
  unfold min2. destruct (Qltb b a) eqn:E.
  - right. split; [reflexivity|]. now apply Qltb_true.
  - left. split; [reflexivity|]. now apply Qltb_false.
Qed.

Lemma min3_cases a b c :
  let m := min3 a b c in
  m <= a /\ m <= b /\ m <= c /\ (m = a \/ m = b \/ m = c).
Proof.
  unfold min3. cbv zeta.
  destruct (min2_cases a b) as [[E1 L1]|[E1 L1]];
    destruct (min2_cases (min2 a b) c) as [[E2 L2]|[E2 L2]];
    rewrite E2; rewrite ?E1 in *; repeat split; auto; lra.
Qed.

Lemma sum_by_acc {A} (f : A -> Q) l acc :
  fold_left (fun a r => a + f r) l acc == acc + sum_by f l.
Proof.
  unfold sum_by. revert acc. induction l as [|x l IH]; intro acc; simpl.
  - lra.
  - rewrite IH. rewrite (IH (0 + f x)). lra.
Qed.

Lemma sum_by_cons {A} (f : A -> Q) x l :
  sum_by f (x :: l) == f x + sum_by f l.
Proof.
  unfold sum_by at 1. simpl. rewrite sum_by_acc. lra.
Qed.

Lemma sum_by_nil {A} (f : A -> Q) : sum_by f [] == 0.
Proof. reflexivity. Qed.

Lemma sum_by_nonneg {A} (f : A -> Q) l :
  Forall (fun x => 0 <= f x) l -> 0 <= sum_by f l.
Proof.
  induction 1 as [|x l Hx _ IH].
  - rewrite sum_by_nil. lra.
  - rewrite sum_by_cons. lra.
Qed.

Lemma sum_by_filter_le {A} (f : A -> Q) p l :
  Forall (fun x => 0 <= f x) l -> sum_by f (filter p l) <= sum_by f l.
Proof.
  induction 1 as [|x l Hx _ IH]; simpl.
  - lra.
  - destruct (p x); rewrite ?sum_by_cons; lra.
Qed.

Lemma ceil_pos w : 0 < w -> (1 <= Qceiling w)%Z.
Proof.
  intro H. pose proof (Qle_ceiling w) as L.
  assert (0 < inject_Z (Qceiling w)) as P by lra.
  change 0 with (inject_Z 0) in P. rewrite <- Zlt_Qlt in P. lia.
Qed.

Lemma ceil_le_Z x (z : Z) : x <= inject_Z z -> (Qceiling x <= z)%Z.
Proof.
  intro H. rewrite <- (Qceiling_Z z). now apply Qceiling_resp_le.
Qed.

Lemma ceil_step w t (f : nat) :
  (Qceiling w <= Z.of_nat (S f))%Z -> (w - t <= 0 \/ 1 <= t) ->
  (Qceiling (w - t) <= Z.of_nat f)%Z.
Proof.
  intros Hf [H|H].
  - apply ceil_le_Z. change (inject_Z (Z.of_nat f)) with (inject_Z (Z.of_nat f)).
    assert (0 <= inject_Z (Z.of_nat f)).
    { change 0 with (inject_Z 0). rewrite <- Zle_Qle. lia. }
    lra.
  - apply ceil_le_Z.
    pose proof (Qle_ceiling w) as L.
    assert (inject_Z (Qceiling w) <= inject_Z (Z.of_nat (S f))) as M
      by (now rewrite <- Zle_Qle).
    rewrite Nat2Z.inj_succ in M. unfold Z.succ in M. rewrite inject_Z_plus in M.
    change (inject_Z 1) with 1 in M. lra.
Qed.

Lemma inject_nat_nonneg (k : nat) : 0 <= inject_Z (Z.of_nat k).
Proof. change 0 with (inject_Z 0). rewrite <- Zle_Qle. lia. Qed.

End PyFacts.

Module DilutionFacts.
Import Py PyFacts MultiPlateDilutions.
Local Open Scope Q_scope.

(** One iteration of the water loop: the volume transferred, the volume
    still required before it, and the water tube it is taken from. *)
Definition transfer_step : Type := (Q * Q * nat)%type.
Definition step_vol (s : transfer_step) : Q := fst (fst s).

Definition emit_steps (emit : Q -> Q -> nat -> list command)
    (steps : list transfer_step) : list command :=
  flat_map (fun s => emit (fst (fst s)) (snd (fst s)) (snd s)) steps.

Section WaterLoop.

Variable n_tubes : Z.
Variable per_tube : Q.
Hypothesis n_tubes_le : (n_tubes <= 24)%Z.
Hypothesis per_tube_min : 1 <= per_tube.

(** Water in the tubes after the current one. *)
Definition later_tubes (index : nat) : Q :=
  inject_Z (n_tubes - 1 - Z.of_nat index) * per_tube.

(** The bookkeeping invariant of a pass that still has to deliver
    [demand]: the water not yet used covers it with the 50 uL buffer, less
    at most 1 uL for every tube already abandoned. *)
Definition covers (st : tube_state) (demand : Q) : Prop :=
  (Z.of_nat (current_water_tube_index st) < n_tubes)%Z
  /\ 0 <= water_remaining_in_current_tube st
  /\ demand + 50 <= later_tubes (current_water_tube_index st)
                    + water_remaining_in_current_tube st
                    + inject_Z (Z.of_nat (current_water_tube_index st)).

Definition steps_ok (required : Q) (steps : list transfer_step) : Prop :=
  Forall (fun s => 0 < step_vol s /\ step_vol s <= 19
                   /\ (Z.of_nat (snd s) < n_tubes)%Z) steps
  /\ Qsum (map step_vol steps) == required.

Lemma later_tubes_succ index :
  later_tubes (S index) == later_tubes index - per_tube.
Proof.
  unfold later_tubes. rewrite Nat2Z.inj_succ. unfold Z.succ.
  replace (n_tubes - 1 - (Z.of_nat index + 1))%Z
    with ((n_tubes - 1 - Z.of_nat index) + - (1))%Z by lia.
  rewrite inject_Z_plus. change (inject_Z (- (1))) with (- (1)). ring.
Qed.

Lemma later_tubes_pos index :
  0 < later_tubes index -> (Z.of_nat (S index) < n_tubes)%Z.
Proof.
  unfold later_tubes. intro H.
  destruct (Z_lt_le_dec (Z.of_nat (S index)) n_tubes) as [L|L]; [exact L|].
  exfalso.
  assert (inject_Z (n_tubes - 1 - Z.of_nat index) <= 0) as K.
  { change 0 with (inject_Z 0). rewrite <- Zle_Qle. lia. }
  assert (inject_Z (n_tubes - 1 - Z.of_nat index) * per_tube <= 0 * per_tube).
  { apply Qmult_le_compat_r; lra. }
  lra.
Qed.

Lemma covers_weaken st d d' : d' <= d -> covers st d -> covers st d'.
Proof. unfold covers. intros L (A & B & C). repeat split; auto. lra. Qed.

Lemma water_loop_ok emit : forall fuel w st later,
  0 <= w -> 0 <= later -> covers st (w + later) ->
  (Qceiling w <= Z.of_nat fuel)%Z ->
  exists steps st',
    water_loop n_tubes per_tube emit fuel w st
      = (emit_steps emit steps, Ok st')
    /\ covers st' later /\ steps_ok w steps.
Proof.
  induction fuel as [|fuel IH]; intros w st later Hw Hl Hc Hf.
  - exists [], st. simpl.
    destruct (Qltb 0 w) eqn:E.
    + apply Qltb_true in E. pose proof (ceil_pos w E). simpl in Hf. lia.
    + apply Qltb_false in E. split; [reflexivity|]. split.
      * apply covers_weaken with (w + later); [lra|exact Hc].
      * split; [constructor|]. simpl. lra.
  - cbn [water_loop].
    destruct (Qltb 0 w) eqn:E.
    2:{ apply Qltb_false in E. exists [], st. split; [reflexivity|]. split.
        - apply covers_weaken with (w + later); [lra|exact Hc].
        - split; [constructor|]. simpl. lra. }
    apply Qltb_true in E.
    destruct st as [index rem]. destruct Hc as (Hi & Hr & Hd). simpl in Hi, Hr, Hd.
    cbn [current_water_tube_index water_remaining_in_current_tube].
    pose proof (inject_nat_nonneg index) as Hn.
    assert (inject_Z (Z.of_nat index) <= 23) as Hn'.
    { change 23 with (inject_Z 23). rewrite <- Zle_Qle. lia. }
    set (index' := if Qltb rem 1 then S index else index).
    set (rem' := if Qltb rem 1 then per_tube else rem).
    assert ((Z.of_nat index' < n_tubes)%Z /\ 1 <= rem'
            /\ w + later + 50 <= later_tubes index' + rem'
                                 + inject_Z (Z.of_nat index')) as (Hi' & Hr' & Hd').
    { subst index' rem'. destruct (Qltb rem 1) eqn:S1.
      - apply Qltb_true in S1.
        pose proof (later_tubes_succ index) as LS.
        split; [|split].
        + apply later_tubes_pos. lra.
        + exact per_tube_min.
        + rewrite LS. rewrite Nat2Z.inj_succ. unfold Z.succ.
          rewrite inject_Z_plus. change (inject_Z 1) with 1. lra.
      - apply Qltb_false in S1. repeat split; auto. }
    assert (Qltb rem 1 && (n_tubes <=? Z.of_nat index')%Z = false) as NoRaise.
    { apply andb_false_iff. right. apply Z.leb_gt. exact Hi'. }
    rewrite NoRaise.
    destruct (min3_cases w rem' 19) as (M1 & M2 & M3 & M4).
    set (t := min3 w rem' 19) in *.
    assert (0 < t) as Ht by (destruct M4 as [->| [->| ->]]; lra).
    assert (w - t <= 0 \/ 1 <= t) as Hstep
      by (destruct M4 as [->| [->| ->]]; [left|right|right]; lra).
    destruct (IH (w - t) (mk_tube_state index' (rem' - t)) later)
      as (steps & st' & Eq & Hc' & Hs & Hsum).
    + lra.
    + exact Hl.
    + unfold covers. simpl. repeat split; auto; lra.
    + apply ceil_step; assumption.
    + exists ((t, w, index') :: steps), st'. rewrite Eq. split; [reflexivity|].
      split; [exact Hc'|]. split.
      * constructor; [|exact Hs]. unfold step_vol. simpl. repeat split; auto.
      * simpl. unfold step_vol at 1. simpl. rewrite Hsum. lra.
Qed.

End WaterLoop.

(** *** Validation *)

Lemma if_single_nil {A} (b : bool) (x : A) :
  (if b then [x] else []) = [] <-> b = false.
Proof. destruct b; split; intro H; try discriminate; reflexivity. Qed.

Lemma app_nil_iff {A} (l l' : list A) : l ++ l' = [] <-> l = [] /\ l' = [].
Proof.
  split; [apply app_eq_nil|]. intros [-> ->]. reflexivity.
Qed.

Lemma row_errors_nil nsp ndp k r :
  row_errors nsp ndp k r = [] <-> row_ok nsp ndp r.
Proof.
  unfold row_errors, row_ok.
  rewrite !app_nil_iff, !if_single_nil, !orb_false_iff, !Z.ltb_ge.
  rewrite !Qle_bool_false, Qltb_false.
  intuition lia.
Qed.

Lemma flat_map_nil {A B} (f : A -> list B) l :
  flat_map f l = [] <-> Forall (fun x => f x = []) l.
Proof.
  induction l as [|x l IH]; simpl.
  - split; constructor.
  - split.
    + intro H. apply app_eq_nil in H as [H1 H2]. constructor; [exact H1|].
      now apply IH.
    + intro H. inversion H; subst. rewrite H2. simpl. now apply IH.
Qed.

Lemma enumerated_rows_ok nsp ndp wd : forall k,
  Forall (fun ir => row_errors nsp ndp (fst ir + 2) (snd ir) = [])
         (combine (seq k (List.length wd)) wd)
  <-> Forall (row_ok nsp ndp) wd.
Proof.
  induction wd as [|r wd IH]; intro k; simpl.
  - split; constructor.
  - split; intro H; inversion H as [|x l Hx Hl]; subst; constructor.
    + simpl in Hx. apply row_errors_nil in Hx. exact Hx.
    + apply (IH (S k)). exact Hl.
    + simpl. apply row_errors_nil. exact Hx.
    + apply (IH (S k)). exact Hl.
Qed.

Lemma validation_errors_nil nsp ndp wd :
  validation_errors nsp ndp wd = [] <-> Forall (row_ok nsp ndp) wd.
Proof.
  unfold validation_errors, enumerate. rewrite flat_map_nil.
  apply enumerated_rows_ok.
Qed.

(** *** Water quantities of a validated file *)

Section Water.

Variables nsp ndp : Z.
Variable wd : list well_entry.
Hypothesis rows_ok : Forall (row_ok nsp ndp) wd.
Hypothesis tubes_ok : (total_tubes_needed wd <= 24)%Z.

Lemma water_nonneg : Forall (fun r => 0 <= water_volume r) wd.
Proof.
  eapply Forall_impl; [|exact rows_ok]. intros r H. apply H.
Qed.

Lemma filter_Forall {A} (P : A -> Prop) p l :
  Forall P l -> Forall P (filter p l).
Proof.
  induction 1; simpl; [constructor|]. destruct (p x); auto.
Qed.

Lemma total_water_nonneg : 0 <= total_water wd.
Proof.
  unfold total_water, wells_normal, wells_large_dilution.
  pose proof (sum_by_nonneg water_volume _
                (filter_Forall _ (fun r => negb (is_large r)) _ water_nonneg)).
  pose proof (sum_by_nonneg water_volume _
                (filter_Forall _ is_large _ water_nonneg)).
  lra.
Qed.

Lemma num_water_tubes_pos : (1 <= num_water_tubes wd)%Z.
Proof.
  unfold num_water_tubes, math_ceil. apply ceil_pos.
  pose proof total_water_nonneg. unfold total_water_with_buffer,
    WATER_TUBE_CAPACITY.
  apply Qlt_shift_div_l; lra.
Qed.

Lemma num_water_tubes_le : (num_water_tubes wd <= 24)%Z.
Proof.
  pose proof tubes_ok as H. unfold total_tubes_needed,
    num_reservoir_tubes_needed in H. lia.
Qed.

Lemma per_tube_total :
  water_per_tube wd * inject_Z (num_water_tubes wd)
  == total_water_with_buffer wd.
Proof.
  unfold water_per_tube. field.
  pose proof num_water_tubes_pos as P.
  intro E. assert (inject_Z 0 < inject_Z (num_water_tubes wd)) as L
    by (rewrite <- Zlt_Qlt; lia).
  change (inject_Z 0) with 0 in L. lra.
Qed.

Lemma per_tube_ge : 1 <= water_per_tube wd.
Proof.
  pose proof num_water_tubes_pos as P.
  pose proof total_water_nonneg as T.
  assert (0 < inject_Z (num_water_tubes wd)) as L.
  { change 0 with (inject_Z 0). rewrite <- Zlt_Qlt. lia. }
  unfold water_per_tube. apply Qle_shift_div_l; [exact L|].
  pose proof (Qceiling_lt (total_water_with_buffer wd / WATER_TUBE_CAPACITY)) as C.
  fold (math_ceil (total_water_with_buffer wd / WATER_TUBE_CAPACITY)) in C.
  fold (num_water_tubes wd) in C.
  unfold Zminus in C. rewrite inject_Z_plus in C.
  change (inject_Z (- (1))) with (- (1)) in C.
  unfold total_water_with_buffer, WATER_TUBE_CAPACITY in *.
  assert ((total_water wd + 50) / 1500 == (total_water wd + 50) * (1 # 1500)) as D
    by (field).
  rewrite D in C. lra.
Qed.

(** The first tube covers any demand up to the total water. *)
Lemma first_tube_covers demand :
  demand <= total_water wd ->
  covers (num_water_tubes wd) (water_per_tube wd)
         (mk_tube_state 0 (water_per_tube wd)) demand.
Proof.
  intro H. unfold covers. simpl. pose proof num_water_tubes_pos.
  pose proof per_tube_ge. pose proof per_tube_total as E.
  split; [lia|]. split; [lra|].
  unfold later_tubes. simpl Z.of_nat.
  replace (num_water_tubes wd - 1 - 0)%Z with (num_water_tubes wd + - (1))%Z by lia.
  rewrite inject_Z_plus. change (inject_Z (- (1))) with (- (1)).
  change (inject_Z 0) with 0. unfold total_water_with_buffer in E.
  lra.
Qed.

Lemma large_demand :
  sum_by water_volume (wells_large_dilution wd) <= total_water wd.
Proof.
  unfold total_water.
  pose proof (sum_by_nonneg water_volume (wells_normal wd)
                (filter_Forall _ _ _ water_nonneg)). lra.
Qed.

Lemma normal_demand :
  sum_by water_volume (wells_normal wd) <= total_water wd.
Proof.
  unfold total_water.
  pose proof (sum_by_nonneg water_volume (wells_large_dilution wd)
                (filter_Forall _ _ _ water_nonneg)). lra.
Qed.

Lemma water_first_demand :
  sum_by water_volume (wells_water_first wd) <= total_water wd.
Proof.
  pose proof normal_demand. unfold wells_water_first.
  pose proof (sum_by_filter_le water_volume
                (fun row => Qle_bool 5 (water_volume row)) (wells_normal wd)
                (filter_Forall _ _ _ water_nonneg)). lra.
Qed.

Lemma water_after_demand :
  sum_by water_volume (wells_water_after wd) <= total_water wd.
Proof.
  pose proof normal_demand. unfold wells_water_after.
  pose proof (sum_by_filter_le water_volume
                (fun row => Qltb (water_volume row) 5) (wells_normal wd)
                (filter_Forall _ _ _ water_nonneg)). lra.
Qed.

End Water.

(** *** Loops over rows *)

Lemma for_rows_ok {St : Type} s
    (body : nat -> well_entry -> St -> list command * outcome error St)
    (I : St -> list well_entry -> Prop)
    (P : nat -> well_entry -> list command -> Prop) :
  (forall idx r rest st, I st (r :: rest) ->
     exists cmds st', body idx r st = (cmds, Ok st') /\ I st' rest
                      /\ P idx r cmds) ->
  forall rows idx st, I st rows ->
    exists bs st', for_rows s body idx rows st = (bs, Ok st')
                   /\ I st' [] /\ blocks_for s P idx rows bs.
Proof.
  intros Hbody. induction rows as [|r rows IH]; intros idx st HI.
  - exists [], st. simpl. repeat split; auto.
  - destruct (Hbody idx r rows st HI) as (cmds & st1 & E1 & I1 & P1).
    destruct (IH (S idx) st1 I1) as (bs & st2 & E2 & I2 & B2).
    exists (mk_block s (Some r) cmds :: bs), st2.
    simpl. rewrite E1, E2. simpl. repeat split; auto.
Qed.

Lemma blocks_for_impl s (P Q : nat -> well_entry -> list command -> Prop) :
  (forall i r c, P i r c -> Q i r c) ->
  forall rows idx bs, blocks_for s P idx rows bs -> blocks_for s Q idx rows bs.
Proof.
  intros H. induction rows as [|r rows IH]; intros idx [|b bs]; simpl; auto.
  intros (A & B & C & D). repeat split; auto.
Qed.

Lemma bind_ok {A B} (m : result A) (f : A -> result B) bs a bs' o :
  m = (bs, Ok a) -> f a = (bs', o) -> bind m f = (bs ++ bs', o).
Proof. intros -> H. unfold bind. rewrite H. reflexivity. Qed.

(** Blocks of a pass that shares one tip: the tip is picked up before the
    rows and dropped after them, unless there is no row at all. *)
Definition wrap (s : step) (rows : list well_entry) (bs : list block)
  : list block :=
  match rows with
  | [] => []
  | _ => mk_block s None [PickUpTip] :: bs ++ [mk_block s None [DropTip]]
  end.

Section Passes.

Variables nsp ndp : Z.
Variable wd : list well_entry.
Hypothesis rows_ok : Forall (row_ok nsp ndp) wd.
Hypothesis tubes_ok : (total_tubes_needed wd <= 24)%Z.

Local Notation "'NT'" := (num_water_tubes wd).
Local Notation "'WPT'" := (water_per_tube wd).

Definition reservoir_block (idx : nat) (r : well_entry)
    (cmds : list command) : Prop :=
  exists steps,
    cmds = emit_steps (emit_reservoir_water (Tube (Z.to_nat NT + idx))) steps
    /\ steps_ok NT (water_volume r) steps.

Definition plate_block (idx : nat) (r : well_entry)
    (cmds : list command) : Prop :=
  exists steps,
    cmds = emit_steps (emit_plate_water (dest_well_of r)) steps
    /\ steps_ok NT (water_volume r) steps.

Definition water_after_block (idx : nat) (r : well_entry)
    (cmds : list command) : Prop :=
  exists steps,
    cmds = [PickUpTip] ++ emit_steps (emit_water_after r) steps ++ [DropTip]
    /\ steps_ok NT (water_volume r) steps.

Definition large_block (idx : nat) (r : well_entry)
    (cmds : list command) : Prop :=
  cmds = large_dilution_row (Tube (Z.to_nat NT + idx)) r.

Definition water_first_block (idx : nat) (r : well_entry)
    (cmds : list command) : Prop :=
  cmds = water_first_sample_row r.

Definition water_after_sample_block (idx : nat) (r : well_entry)
    (cmds : list command) : Prop :=
  cmds = water_after_sample_row r.

(** Invariant of a water pass in front of the rows still to serve. *)
Definition pass_inv (st : tube_state) (rows : list well_entry) : Prop :=
  Forall (fun r => 0 <= water_volume r) rows
  /\ covers NT WPT st (sum_by water_volume rows).

Lemma pass_body emit r rest st :
  pass_inv st (r :: rest) ->
  exists steps st',
    water_loop NT WPT emit (loop_fuel (water_volume r)) (water_volume r) st
      = (emit_steps emit steps, Ok st')
    /\ pass_inv st' rest /\ steps_ok NT (water_volume r) steps.
Proof.
  intros [HF HC]. inversion HF as [|x l Hr Hrest]; subst.
  pose proof (sum_by_nonneg water_volume rest Hrest) as Hs.
  destruct (water_loop_ok NT WPT (num_water_tubes_le wd tubes_ok)
              (per_tube_ge nsp ndp wd rows_ok) emit
              (loop_fuel (water_volume r)) (water_volume r) st
              (sum_by water_volume rest))
    as (steps & st' & E & C & S); auto.
  - eapply covers_weaken; [|exact HC]. rewrite sum_by_cons. lra.
  - unfold loop_fuel. lia.
  - exists steps, st'. repeat split; auto. apply C. apply C. apply C.
    apply S. apply S.
Qed.

Lemma pass_start rows :
  Forall (fun r => 0 <= water_volume r) rows ->
  sum_by water_volume rows <= total_water wd ->
  pass_inv (mk_tube_state 0 WPT) rows.
Proof.
  intros HF HS. split; [exact HF|].
  apply (first_tube_covers nsp ndp wd rows_ok); assumption.
Qed.

Lemma step_reservoir_water_ok :
  exists bs,
    step_reservoir_water wd
      = (wrap ReservoirWater (wells_large_dilution wd) bs, Ok tt)
    /\ blocks_for ReservoirWater reservoir_block 0
                  (wells_large_dilution wd) bs.
Proof.
  unfold step_reservoir_water.
  pose proof (large_demand nsp ndp wd rows_ok) as D.
  pose proof (filter_Forall _ is_large _ (water_nonneg nsp ndp wd rows_ok)) as F.
  fold (wells_large_dilution wd) in F.
  destruct (wells_large_dilution wd) as [|r0 rows0] eqn:E.
  - exists []. simpl. split; auto.
  - destruct (for_rows_ok ReservoirWater
                (fun idx row st =>
                   water_loop NT WPT
                     (emit_reservoir_water (Tube (Z.to_nat NT + idx)))
                     (loop_fuel (water_volume row)) (water_volume row) st)
                pass_inv reservoir_block) with (rows := r0 :: rows0)
                (idx := 0%nat) (st := mk_tube_state 0 WPT)
      as (bs & st' & E1 & _ & B).
    + intros idx r rest st HI.
      destruct (pass_body (emit_reservoir_water (Tube (Z.to_nat NT + idx)))
                  r rest st HI) as (steps & st' & E1 & I1 & S1).
      exists (emit_steps (emit_reservoir_water (Tube (Z.to_nat NT + idx))) steps), st'.
      repeat split; auto; try apply I1. exists steps. auto.
    + apply pass_start; assumption.
    + exists bs. split; [|exact B].
      unfold wrap, bind, issue. rewrite E1. reflexivity.
Qed.

Lemma step_plate_water_ok :
  exists bs,
    step_plate_water wd
      = (wrap PlateWater (wells_water_first wd) bs, Ok tt)
    /\ blocks_for PlateWater plate_block 0 (wells_water_first wd) bs.
Proof.
  unfold step_plate_water.
  pose proof (water_first_demand nsp ndp wd rows_ok) as D.
  assert (Forall (fun r => 0 <= water_volume r) (wells_water_first wd)) as F.
  { unfold wells_water_first, wells_normal.
    do 2 apply filter_Forall. apply (water_nonneg nsp ndp wd rows_ok). }
  destruct (wells_water_first wd) as [|r0 rows0] eqn:E.
  - exists []. simpl. split; auto.
  - destruct (for_rows_ok PlateWater
                (fun idx row st =>
                   water_loop NT WPT (emit_plate_water (dest_well_of row))
                     (loop_fuel (water_volume row)) (water_volume row) st)
                pass_inv plate_block) with (rows := r0 :: rows0)
                (idx := 0%nat) (st := mk_tube_state 0 WPT)
      as (bs & st' & E1 & _ & B).
    + intros idx r rest st HI.
      destruct (pass_body (emit_plate_water (dest_well_of r))
                  r rest st HI) as (steps & st' & E1 & I1 & S1).
      exists (emit_steps (emit_plate_water (dest_well_of r)) steps), st'.
      repeat split; auto; try apply I1. exists steps. auto.
    + apply pass_start; assumption.
    + exists bs. split; [|exact B].
      unfold wrap, bind, issue. rewrite E1. reflexivity.
Qed.

Lemma step_water_after_water_ok :
  exists bs,
    step_water_after_water wd = (bs, Ok tt)
    /\ blocks_for WaterAfterWater water_after_block 0
                  (wells_water_after wd) bs.
Proof.
  unfold step_water_after_water.
  pose proof (water_after_demand nsp ndp wd rows_ok) as D.
  assert (Forall (fun r => 0 <= water_volume r) (wells_water_after wd)) as F.
  { unfold wells_water_after, wells_normal.
    do 2 apply filter_Forall. apply (water_nonneg nsp ndp wd rows_ok). }
  destruct (for_rows_ok WaterAfterWater
              (fun idx row st =>
                 let '(cmds, o) :=
                   water_loop NT WPT (emit_water_after row)
                     (loop_fuel (water_volume row)) (water_volume row) st in
                 match o with
                 | Ok st' => ([PickUpTip] ++ cmds ++ [DropTip], Ok st')
                 | _ => ([PickUpTip] ++ cmds, o)
                 end)
              pass_inv water_after_block) with (rows := wells_water_after wd)
              (idx := 0%nat) (st := mk_tube_state 0 WPT)
    as (bs & st' & E1 & _ & B).
  - intros idx r rest st HI.
    destruct (pass_body (emit_water_after r) r rest st HI)
      as (steps & st' & E1 & I1 & S1).
    exists ([PickUpTip] ++ emit_steps (emit_water_after r) steps ++ [DropTip]), st'.
    rewrite E1. repeat split; auto; try apply I1. exists steps. auto.
  - apply pass_start; assumption.
  - exists bs. split; [|exact B].
    unfold bind, ret. rewrite E1. now rewrite app_nil_r.
Qed.

Lemma pure_rows_ok s (f : nat -> well_entry -> list command) rows :
  forall idx, exists bs,
    for_rows s (pure_body f) idx rows tt = (bs, Ok tt)
    /\ blocks_for s (fun i r c => c = f i r) idx rows bs.
Proof.
  induction rows as [|r rows IH]; intro idx.
  - exists []. simpl. split; auto.
  - destruct (IH (S idx)) as (bs & E & B).
    exists (mk_block s (Some r) (f idx r) :: bs). simpl. rewrite E. simpl.
    repeat split; auto.
Qed.

(** The trace of the pipetting part of a validated run. *)
Lemma pipetting_ok :
  exists bA bB bC bD bE bF,
    pipetting wd
      = (wrap ReservoirWater (wells_large_dilution wd) bA
         ++ wrap PlateWater (wells_water_first wd) bB
         ++ bC ++ bD ++ bE ++ bF, Ok tt)
    /\ blocks_for ReservoirWater reservoir_block 0 (wells_large_dilution wd) bA
    /\ blocks_for PlateWater plate_block 0 (wells_water_first wd) bB
    /\ blocks_for LargeDilution large_block 0 (wells_large_dilution wd) bC
    /\ blocks_for WaterFirstSample water_first_block 0
                  (wells_water_first wd) bD
    /\ blocks_for WaterAfterSample water_after_sample_block 0
                  (wells_water_after wd) bE
    /\ blocks_for WaterAfterWater water_after_block 0
                  (wells_water_after wd) bF.
Proof.
  destruct step_reservoir_water_ok as (bA & EA & BA).
  destruct step_plate_water_ok as (bB & EB & BB).
  destruct step_water_after_water_ok as (bF & EF & BF).
  destruct (pure_rows_ok LargeDilution
              (fun idx row => large_dilution_row (Tube (Z.to_nat NT + idx)) row)
              (wells_large_dilution wd) 0) as (bC & EC & BC).
  destruct (pure_rows_ok WaterFirstSample
              (fun idx row => water_first_sample_row row)
              (wells_water_first wd) 0) as (bD & ED & BD).
  destruct (pure_rows_ok WaterAfterSample
              (fun idx row => water_after_sample_row row)
              (wells_water_after wd) 0) as (bE & EE & BE).
  exists bA, bB, bC, bD, bE, bF. split; [|repeat split; assumption].
  unfold pipetting, step_large_dilution, step_water_first_sample,
    step_water_after_sample, bind, ret.
  rewrite EA, EB, EC, ED, EE, EF. now rewrite !app_nil_r.
Qed.

End Passes.

(** *** The run as a whole *)

Lemma run_validated float nsp ndp headers data wd :
  validated float nsp ndp data wd ->
  run float nsp ndp (headers :: data) = pipetting wd.
Proof.
  intros (HP & HV & HT). unfold run. rewrite HP. cbv zeta. rewrite HV.
  destruct (24 <? total_tubes_needed wd)%Z eqn:E; [|reflexivity].
  apply Z.ltb_lt in E. lia.
Qed.

Lemma parse_rows_none float data :
  parse_rows float data = None
  <-> exists row, In row data /\ parse_row float row = None.
Proof.
  induction data as [|row data IH]; simpl.
  - split; [discriminate|]. intros (r & [] & _).
  - destruct (parse_row float row) eqn:E.
    + destruct (parse_rows float data) eqn:E'.
      * split; [discriminate|]. intros (r & [<-|Hin] & Hr); [congruence|].
        assert (Some l = None) as H by (apply IH; eauto). discriminate H.
      * split; [|reflexivity]. intros _.
        destruct (proj1 IH eq_refl) as (r & Hin & Hr). eauto.
    + split; [|reflexivity]. intros _. eauto.
Qed.

Lemma row_bad_not_ok nsp ndp r : row_bad nsp ndp r <-> ~ row_ok nsp ndp r.
Proof.
  unfold row_bad, row_ok. split.
  - intros [[H|H]|[[H|H]|[H|[H|H]]]] (A & B & C & D & E); try lia; lra.
  - intro H.
    destruct (Z_lt_le_dec (source_plate r) 1); [tauto|].
    destruct (Z_lt_le_dec nsp (source_plate r)); [tauto|].
    destruct (Z_lt_le_dec (destination_plate r) 1); [tauto|].
    destruct (Z_lt_le_dec ndp (destination_plate r)); [tauto|].
    destruct (Qlt_le_dec 0 (sample_volume r)); [|tauto].
    destruct (Qlt_le_dec (water_volume r) 0); [tauto|].
    destruct (Qlt_le_dec 0 (initial_sample_volume r)); [|tauto].
    exfalso. apply H. repeat split; auto.
Qed.

Lemma row_ok_dec nsp ndp r : {row_ok nsp ndp r} + {~ row_ok nsp ndp r}.
Proof.
  destruct (row_errors nsp ndp 0 r) eqn:E.
  - left. now apply (row_errors_nil nsp ndp 0).
  - right. intro H. apply (row_errors_nil nsp ndp 0) in H. congruence.
Qed.

Lemma some_row_bad nsp ndp wd :
  validation_errors nsp ndp wd <> []
  <-> exists r, In r wd /\ row_bad nsp ndp r.
Proof.
  rewrite validation_errors_nil. split.
  - intro H. apply neg_Forall_Exists_neg in H; [|apply row_ok_dec].
    apply Exists_exists in H as (r & Hin & Hr).
    exists r. split; [exact Hin|]. now apply row_bad_not_ok.
  - intros (r & Hin & Hr) HF. rewrite Forall_forall in HF.
    apply row_bad_not_ok in Hr. apply Hr. now apply HF.
Qed.

Lemma run_validated_ok float nsp ndp headers data wd :
  validated float nsp ndp data wd ->
  exists bs, run float nsp ndp (headers :: data) = (bs, Ok tt).
Proof.
  intro V. rewrite (run_validated _ _ _ _ _ _ V).
  destruct V as (HP & HV & HT). apply validation_errors_nil in HV.
  destruct (pipetting_ok nsp ndp wd HV HT)
    as (bA & bB & bC & bD & bE & bF & E & _).
  rewrite E. eauto.
Qed.

(** A run either is refused before it issues anything, or is validated. *)
Lemma rejected_or_validated float nsp ndp headers data :
  (rejected float nsp ndp data
   /\ exists e, is_ValueError e = true
                /\ run float nsp ndp (headers :: data) = ([], Raise e))
  \/ (~ rejected float nsp ndp data
      /\ exists wd, validated float nsp ndp data wd).
Proof.
  unfold run, rejected, validated. cbv zeta.
  destruct (parse_rows float data) as [wd|] eqn:HP.
  2:{ left. split; [left; now apply parse_rows_none|].
      exists ValueError_csv_parsing. split; reflexivity. }
  assert (~ exists row, In row data /\ parse_row float row = None) as NP.
  { intro H. apply parse_rows_none in H. congruence. }
  destruct (validation_errors nsp ndp wd) as [|v vs] eqn:HV.
  - destruct (24 <? total_tubes_needed wd)%Z eqn:HT.
    + apply Z.ltb_lt in HT. left. split.
      * right. exists wd. split; [reflexivity|]. right. exact HT.
      * exists (ValueError_tubes (total_tubes_needed wd)). split; reflexivity.
    + apply Z.ltb_ge in HT. right. split.
      * intros [H|(wd' & E & [H|H])]; [tauto| |].
        -- injection E as <-. apply some_row_bad in H. congruence.
        -- injection E as <-. lia.
      * exists wd. repeat split; auto.
  - left. split.
    + right. exists wd. split; [reflexivity|]. left.
      apply some_row_bad. congruence.
    + exists (ValueError_validation (List.length (v :: vs))).
      split; reflexivity.
Qed.


(** *** Tips *)

Definition picks (cmds : list command) : nat :=
  List.length (filter is_pick_up_tip cmds).

Lemma picks_app a b : picks (a ++ b) = (picks a + picks b)%nat.
Proof. unfold picks. now rewrite filter_app, length_app. Qed.

Lemma picks_aspirate_dispense vol src dst rate :
  picks (aspirate_dispense vol src dst rate) = 0%nat.
Proof. unfold aspirate_dispense. destruct (Qle_bool 0.5 vol); reflexivity. Qed.

Lemma picks_flat_map {A} (f : A -> list command) l :
  (forall x, picks (f x) = 0%nat) -> picks (flat_map f l) = 0%nat.
Proof.
  intro H. induction l as [|x l IH]; [reflexivity|].
  simpl. now rewrite picks_app, H, IH.
Qed.

Lemma picks_emit_steps emit steps :
  (forall t r i, picks (emit t r i) = 0%nat) ->
  picks (emit_steps emit steps) = 0%nat.
Proof. intro H. apply picks_flat_map. intro x. apply H. Qed.

Lemma picks_sample_transfer v split single :
  (forall i n t, picks (split i n t) = 0%nat) -> picks single = 0%nat ->
  picks (sample_transfer v split single) = 0%nat.
Proof.
  intros H1 H2. unfold sample_transfer. destruct (Qltb 19 v); [|exact H2].
  apply picks_flat_map. intro i. apply H1.
Qed.

Ltac picks_zero :=
  repeat first
    [ rewrite picks_app
    | rewrite picks_aspirate_dispense
    | match goal with |- context [if ?b then _ else _] => destruct b end
    | reflexivity ].

Lemma picks_emit_reservoir_water tube t r i :
  picks (emit_reservoir_water tube t r i) = 0%nat.
Proof. unfold emit_reservoir_water. picks_zero. Qed.

Lemma picks_emit_plate_water dest t r i :
  picks (emit_plate_water dest t r i) = 0%nat.
Proof. unfold emit_plate_water, blow_touch_blow. picks_zero. Qed.

Lemma picks_emit_water_after row t r i :
  picks (emit_water_after row t r i) = 0%nat.
Proof. unfold emit_water_after, blow_touch_blow. cbv zeta. picks_zero. Qed.

Lemma picks_large_dilution_row tube r :
  picks (large_dilution_row tube r) = 1%nat.
Proof.
  unfold large_dilution_row. cbv zeta.
  rewrite !picks_app, picks_sample_transfer; [reflexivity| |].
  - intros. picks_zero.
  - picks_zero.
Qed.

Lemma picks_water_first_sample_row r :
  picks (water_first_sample_row r) = 1%nat.
Proof.
  unfold water_first_sample_row, blow_touch_blow. cbv zeta.
  rewrite !picks_app, picks_sample_transfer; [reflexivity| |].
  - intros. picks_zero.
  - picks_zero.
Qed.

Lemma picks_water_after_sample_row r :
  picks (water_after_sample_row r) = 1%nat.
Proof.
  unfold water_after_sample_row, blow_touch_blow. cbv zeta.
  rewrite !picks_app, picks_sample_transfer; [reflexivity| |].
  - intros. picks_zero.
  - picks_zero.
Qed.

Lemma tips_used_app a b : tips_used (a ++ b) = (tips_used a + tips_used b)%nat.
Proof.
  unfold tips_used, commands. rewrite flat_map_app. apply picks_app.
Qed.

Lemma tips_used_cons b bs :
  tips_used (b :: bs) = (picks (blk_cmds b) + tips_used bs)%nat.
Proof. unfold tips_used, commands. simpl. apply picks_app. Qed.

Lemma tips_blocks s P k : 
  (forall i r c, P i r c -> picks c = k) ->
  forall rows idx bs, blocks_for s P idx rows bs ->
    tips_used bs = (k * List.length rows)%nat.
Proof.
  intro H. induction rows as [|r rows IH]; intros idx [|b bs]; simpl;
    try tauto.
  - intros _. unfold tips_used. simpl. lia.
  - intros (_ & _ & Hc & Hb). rewrite tips_used_cons, (H _ _ _ Hc).
    rewrite (IH _ _ Hb). lia.
Qed.

Lemma tips_wrap s rows bs :
  tips_used bs = 0%nat ->
  tips_used (wrap s rows bs) = match rows with [] => 0 | _ => 1 end%nat.
Proof.
  intro H. unfold wrap. destruct rows; [reflexivity|].
  rewrite tips_used_cons, tips_used_app, H. reflexivity.
Qed.

Lemma tips_pipetting nsp ndp wd bs :
  Forall (row_ok nsp ndp) wd -> (total_tubes_needed wd <= 24)%Z ->
  pipetting wd = (bs, Ok tt) ->
  Z.of_nat (tips_used bs) = total_tips_needed wd.
Proof.
  intros HV HT E.
  destruct (pipetting_ok nsp ndp wd HV HT)
    as (bA & bB & bC & bD & bE & bF & E' & BA & BB & BC & BD & BE & BF).
  rewrite E' in E. injection E as <-.
  rewrite !tips_used_app.
  rewrite (tips_wrap _ _ bA), (tips_wrap _ _ bB).
  2:{ rewrite (tips_blocks PlateWater _ 0%nat) with (2 := BB); [lia|].
      intros i r c (st & -> & _). apply picks_emit_steps.
      apply picks_emit_plate_water. }
  2:{ rewrite (tips_blocks ReservoirWater _ 0%nat) with (2 := BA); [lia|].
      intros i r c (st & -> & _). apply picks_emit_steps.
      apply picks_emit_reservoir_water. }
  rewrite (tips_blocks LargeDilution _ 1%nat) with (2 := BC).
  2:{ intros i r c ->. apply picks_large_dilution_row. }
  rewrite (tips_blocks WaterFirstSample _ 1%nat) with (2 := BD).
  2:{ intros i r c ->. apply picks_water_first_sample_row. }
  rewrite (tips_blocks WaterAfterSample _ 1%nat) with (2 := BE).
  2:{ intros i r c ->. apply picks_water_after_sample_row. }
  rewrite (tips_blocks WaterAfterWater _ 1%nat) with (2 := BF).
  2:{ intros i r c (st & -> & _). rewrite !picks_app.
      rewrite picks_emit_steps; [reflexivity|]. apply picks_emit_water_after. }
  unfold total_tips_needed.
  destruct (wells_large_dilution wd); destruct (wells_water_first wd);
    simpl List.length; lia.
Qed.


(** *** Transfers *)

Lemma flat_map_single {A B C} (f : B -> list C) (g : A -> list B)
    (h : A -> C) l :
  (forall x, flat_map f (g x) = [h x]) ->
  flat_map f (flat_map g l) = map h l.
Proof.
  intro H. induction l as [|x l IH]; [reflexivity|].
  simpl. now rewrite flat_map_app, H, IH.
Qed.

Lemma flat_map_none {A B C} (f : B -> list C) (g : A -> list B) l :
  (forall x, flat_map f (g x) = []) -> flat_map f (flat_map g l) = [].
Proof.
  intro H. induction l as [|x l IH]; [reflexivity|].
  simpl. now rewrite flat_map_app, H, IH.
Qed.

Lemma split_into_long w ts :
  split_into w ts -> 19 < w -> (2 <= List.length ts)%nat.
Proof.
  intros [HF HS] Hw. destruct ts as [|a [|b ts]]; simpl in *; try lia.
  - lra.
  - inversion HF as [|x l Hx _]; subst. lra.
Qed.

Lemma steps_split n w steps :
  steps_ok n w steps -> split_into w (map step_vol steps).
Proof.
  intros [HF HS]. split; [|exact HS].
  apply Forall_map. eapply Forall_impl; [|exact HF]. simpl. tauto.
Qed.

(** Water transfers of a block built from loop iterations. *)
Lemma water_transfers_steps n emit w steps :
  (forall t r i, (Z.of_nat i < n)%Z ->
                 water_transfers n (emit t r i) = [t]) ->
  steps_ok n w steps ->
  water_transfers n (emit_steps emit steps) = map step_vol steps.
Proof.
  intros He [HF _]. unfold water_transfers, emit_steps.
  induction HF as [|s steps (_ & _ & Hi) _ IH]; [reflexivity|].
  destruct s as [[t r] i]. simpl in Hi |- *. rewrite flat_map_app, IH.
  pose proof (He t r i Hi) as Ht. unfold water_transfers in Ht. rewrite Ht.
  reflexivity.
Qed.

Lemma water_transfers_aspirate_dispense n t i dst rate :
  (Z.of_nat i < n)%Z ->
  water_transfers n (aspirate_dispense t (Tube i, Default) dst rate) = [t].
Proof.
  intro H. apply Z.ltb_lt in H. unfold aspirate_dispense, water_transfers.
  simpl. rewrite H. destruct (Qle_bool 0.5 t); reflexivity.
Qed.

Lemma water_transfers_app n a b :
  water_transfers n (a ++ b) = water_transfers n a ++ water_transfers n b.
Proof. apply flat_map_app. Qed.

Lemma water_emit_reservoir n tube t r i :
  (Z.of_nat i < n)%Z -> water_transfers n (emit_reservoir_water tube t r i) = [t].
Proof.
  intro H. unfold emit_reservoir_water.
  rewrite water_transfers_app, water_transfers_aspirate_dispense by exact H.
  reflexivity.
Qed.

Lemma water_emit_plate n dest t r i :
  (Z.of_nat i < n)%Z -> water_transfers n (emit_plate_water dest t r i) = [t].
Proof.
  intro H. unfold emit_plate_water.
  rewrite water_transfers_app, water_transfers_aspirate_dispense by exact H.
  reflexivity.
Qed.

Lemma water_emit_after n row t r i :
  (Z.of_nat i < n)%Z -> water_transfers n (emit_water_after row t r i) = [t].
Proof.
  intro H. unfold emit_water_after. cbv zeta.
  rewrite !water_transfers_app, water_transfers_aspirate_dispense by exact H.
  destruct (Qle_bool (r - t) 0); reflexivity.
Qed.

(** The portions of a sample transfer. *)
Definition sample_amounts (v : Q) : list Q :=
  if Qltb 19 v
  then map (split_transfer_vol v (math_ceil (v / 19)))
           (seq 0 (Z.to_nat (math_ceil (v / 19))))
  else [v].

Lemma sample_transfers_app a b :
  sample_transfers (a ++ b) = sample_transfers a ++ sample_transfers b.
Proof. apply flat_map_app. Qed.

Lemma sample_transfers_aspirate_dispense t p w pos dst rate :
  sample_transfers (aspirate_dispense t (SourceWell p w, pos) dst rate) = [t].
Proof.
  unfold aspirate_dispense, sample_transfers. simpl.
  destruct (Qle_bool 0.5 t); reflexivity.
Qed.

Lemma sample_transfers_sample_transfer v split single :
  (forall i n t, sample_transfers (split i n t) = [t]) ->
  sample_transfers single = [v] ->
  sample_transfers (sample_transfer v split single) = sample_amounts v.
Proof.
  intros H1 H2. unfold sample_transfer, sample_amounts.
  destruct (Qltb 19 v); [|exact H2].
  unfold sample_transfers. apply flat_map_single. intro i. apply H1.
Qed.

Ltac sample_simpl :=
  repeat first
    [ rewrite sample_transfers_app
    | rewrite sample_transfers_aspirate_dispense
    | match goal with |- context [if ?b then _ else _] => destruct b end
    | reflexivity ].

Lemma sample_large_dilution_row k r :
  sample_transfers (large_dilution_row (Tube k) r)
  = sample_amounts (sample_volume r).
Proof.
  unfold large_dilution_row, source_well_of. cbv zeta.
  rewrite !sample_transfers_app, sample_transfers_sample_transfer.
  - simpl. now rewrite app_nil_r.
  - intros. sample_simpl.
  - sample_simpl.
Qed.

Lemma sample_water_first_row r :
  sample_transfers (water_first_sample_row r)
  = sample_amounts (sample_volume r).
Proof.
  unfold water_first_sample_row, source_well_of, blow_touch_blow. cbv zeta.
  rewrite !sample_transfers_app, sample_transfers_sample_transfer.
  - simpl. now rewrite app_nil_r.
  - intros. sample_simpl.
  - sample_simpl.
Qed.

Lemma sample_water_after_row r :
  sample_transfers (water_after_sample_row r)
  = sample_amounts (sample_volume r).
Proof.
  unfold water_after_sample_row, source_well_of, blow_touch_blow. cbv zeta.
  rewrite !sample_transfers_app, sample_transfers_sample_transfer.
  - simpl. now rewrite app_nil_r.
  - intros. sample_simpl.
  - sample_simpl.
Qed.

Lemma Qsum_app a b : Qsum (a ++ b) == Qsum a + Qsum b.
Proof.
  induction a as [|x a IH]; simpl; [lra|]. rewrite IH. lra.
Qed.

Lemma Qsum_repeat x k : Qsum (repeat x k) == inject_Z (Z.of_nat k) * x.
Proof.
  induction k as [|k IH].
  - simpl. change (inject_Z 0) with 0. lra.
  - cbn [repeat Qsum fold_right]. fold (Qsum (repeat x k)). rewrite IH.
    rewrite Nat2Z.inj_succ. unfold Z.succ. rewrite inject_Z_plus.
    change (inject_Z 1) with 1. lra.
Qed.

(** The split loop: [m - 1] full portions and the rest. *)
Lemma split_full v (m : nat) l :
  (forall i, In i l -> (i < m)%nat) ->
  map (split_transfer_vol v (Z.of_nat (S m))) l = repeat 19 (List.length l).
Proof.
  induction l as [|i l IH]; intro Hl; [reflexivity|].
  cbn [map List.length repeat].
  rewrite IH by (intros; apply Hl; now right). f_equal.
  unfold split_transfer_vol.
  assert (i < m)%nat by (apply Hl; now left).
  destruct (Z.eqb_spec (Z.of_nat i) (Z.of_nat (S m) - 1)); [lia|reflexivity].
Qed.

Lemma split_portions v (m : nat) :
  map (split_transfer_vol v (Z.of_nat (S m))) (seq 0 (S m))
  = repeat 19 m ++ [v - inject_Z (Z.of_nat m * 19)].
Proof.
  rewrite seq_S, map_app. f_equal.
  - rewrite split_full, length_seq; [reflexivity|].
    intros i Hi. apply in_seq in Hi. lia.
  - cbn [map Nat.add]. unfold split_transfer_vol.
    destruct (Z.eqb_spec (Z.of_nat m) (Z.of_nat (S m) - 1)); [reflexivity|lia].
Qed.

Lemma sample_amounts_ok v : 0 < v -> split_into v (sample_amounts v).
Proof.
  intro Hv. unfold sample_amounts. destruct (Qltb 19 v) eqn:E.
  - apply Qltb_true in E.
    pose proof (Qle_ceiling (v / 19)) as Hup.
    pose proof (Qceiling_lt (v / 19)) as Hlo.
    pose proof (ceil_pos (v / 19)) as Hpos.
    unfold math_ceil. set (c := Qceiling (v / 19)) in *.
    assert (v / 19 == v * (1 # 19)) as D by field. rewrite D in *.
    assert (1 <= c)%Z as Hc by (apply Hpos; lra).
    destruct (Z.to_nat c) as [|m] eqn:Em; [lia|].
    assert (c = Z.of_nat (S m)) as -> by lia.
    rewrite split_portions.
    unfold Zminus in Hlo. rewrite inject_Z_plus in Hlo.
    change (inject_Z (- (1))) with (- (1)) in Hlo.
    rewrite Nat2Z.inj_succ in Hup, Hlo. unfold Z.succ in Hup, Hlo.
    rewrite inject_Z_plus in Hup, Hlo. change (inject_Z 1) with 1 in Hup, Hlo.
    rewrite inject_Z_mult. change (inject_Z 19) with 19.
    split.
    + apply Forall_app. split.
      * apply Forall_forall. intros x Hx. apply repeat_spec in Hx. subst. lra.
      * constructor; [|constructor]. lra.
    + rewrite Qsum_app, Qsum_repeat. simpl. lra.
  - apply Qltb_false in E. split.
    + constructor; [|constructor]. lra.
    + simpl. lra.
Qed.


(** *** Rows and blocks *)

Lemma block_rows_app p a b :
  block_rows p (a ++ b) = block_rows p a ++ block_rows p b.
Proof. apply flat_map_app. Qed.

Lemma blocks_for_length s P : forall rows idx bs,
  blocks_for s P idx rows bs -> List.length bs = List.length rows.
Proof.
  induction rows as [|r rows IH]; intros idx [|b bs]; simpl; try tauto.
  intros (_ & _ & _ & H). f_equal. eauto.
Qed.

Lemma block_rows_wrap p s P idx rows bs :
  blocks_for s P idx rows bs ->
  block_rows p (wrap s rows bs) = block_rows p bs.
Proof.
  intro H. unfold wrap. destruct rows.
  - destruct bs; [reflexivity|]. simpl in H. tauto.
  - change (mk_block s None [PickUpTip] :: bs ++ [mk_block s None [DropTip]])
      with ([mk_block s None [PickUpTip]] ++ bs ++ [mk_block s None [DropTip]]).
    rewrite !block_rows_app. unfold block_rows at 1 3. simpl.
    destruct (p s); simpl; now rewrite app_nil_r.
Qed.

Lemma block_rows_for p s P : forall rows idx bs,
  blocks_for s P idx rows bs ->
  block_rows p bs = if p s then rows else [].
Proof.
  induction rows as [|r rows IH]; intros idx [|b bs]; simpl; try tauto.
  - intros _. now destruct (p s).
  - intros (Hs & Hr & _ & Hb). unfold block_rows in *. simpl.
    rewrite (IH _ _ Hb), Hs, Hr. now destruct (p s).
Qed.

Lemma blocks_for_in s P b : forall rows idx bs,
  blocks_for s P idx rows bs -> In b bs ->
  exists i r, In r rows /\ blk_step b = s /\ blk_row b = Some r
              /\ P i r (blk_cmds b).
Proof.
  induction rows as [|r rows IH]; intros idx [|b' bs]; simpl; try tauto.
  intros (Hs & Hr & Hc & Hb) [<-|Hin].
  - exists idx, r. auto.
  - destruct (IH _ _ Hb Hin) as (i & r' & H1 & H2). exists i, r'.
    split; [now right|exact H2].
Qed.

Lemma in_wrap b s rows bs :
  In b (wrap s rows bs) -> blk_row b = None \/ In b bs.
Proof.
  unfold wrap. destruct rows; [intros []|].
  intros [<-|H]; [now left|]. apply in_app_or in H as [H|[<-|[]]]; auto.
Qed.

Lemma filter_split_perm {A} (p : A -> bool) l :
  Permutation (filter p l ++ filter (fun x => negb (p x)) l) l.
Proof.
  induction l as [|x l IH]; [constructor|]. simpl. destruct (p x); simpl.
  - now constructor.
  - apply Permutation_sym, Permutation_cons_app, Permutation_sym, IH.
Qed.

Lemma flows_perm wd :
  Permutation (wells_large_dilution wd ++ wells_water_first wd
               ++ wells_water_after wd) wd.
Proof.
  unfold wells_large_dilution, wells_water_first, wells_water_after.
  rewrite <- (filter_split_perm is_large wd) at 4.
  apply Permutation_app_head.
  apply (filter_split_perm (fun row => Qle_bool 5 (water_volume row))
           (wells_normal wd)).
Qed.

(** Structure of the trace of a validated run. *)
Lemma run_structure float nsp ndp headers data wd :
  validated float nsp ndp data wd ->
  exists bA bB bC bD bE bF,
    run float nsp ndp (headers :: data)
      = (wrap ReservoirWater (wells_large_dilution wd) bA
         ++ wrap PlateWater (wells_water_first wd) bB
         ++ bC ++ bD ++ bE ++ bF, Ok tt)
    /\ blocks_for ReservoirWater (reservoir_block wd) 0
                  (wells_large_dilution wd) bA
    /\ blocks_for PlateWater (plate_block wd) 0 (wells_water_first wd) bB
    /\ blocks_for LargeDilution (large_block wd) 0
                  (wells_large_dilution wd) bC
    /\ blocks_for WaterFirstSample water_first_block 0
                  (wells_water_first wd) bD
    /\ blocks_for WaterAfterSample water_after_sample_block 0
                  (wells_water_after wd) bE
    /\ blocks_for WaterAfterWater (water_after_block wd) 0
                  (wells_water_after wd) bF.
Proof.
  intro V. rewrite (run_validated _ _ _ _ _ _ V).
  destruct V as (HP & HV & HT). apply validation_errors_nil in HV.
  exact (pipetting_ok nsp ndp wd HV HT).
Qed.

Lemma flow_rows_ok nsp ndp wd :
  Forall (row_ok nsp ndp) wd ->
  (forall r, In r (wells_large_dilution wd) -> row_ok nsp ndp r)
  /\ (forall r, In r (wells_water_first wd) -> row_ok nsp ndp r)
  /\ (forall r, In r (wells_water_after wd) -> row_ok nsp ndp r).
Proof.
  intro H. rewrite Forall_forall in H.
  unfold wells_large_dilution, wells_water_first, wells_water_after,
    wells_normal.
  split; [|split]; intros r Hr; repeat (apply filter_In in Hr as [Hr _]);
    auto.
Qed.


(** *** Liquid bookkeeping *)

Section Delivery.

Variable plate : Z.
Variable name : string.
Local Notation "'W'" := (DestWell plate name).





























Lemma commands_app a b : commands (a ++ b) = commands a ++ commands b.
Proof. apply flat_map_app. Qed.






Lemma sum_by_filter_split {A} (f : A -> Q) p l :
  sum_by f l
  == sum_by f (filter p l) + sum_by f (filter (fun x => negb (p x)) l).
Proof.
  induction l as [|x l IH]; [reflexivity|]. simpl.
  destruct (p x); simpl; rewrite !sum_by_cons, IH; lra.
Qed.




End Delivery.
End DilutionFacts.

(** *** The tips on the deck *)

Module DilutionDeckFacts.
Import Py PyFacts MultiPlateDilutions DilutionFacts DilutionDeck.
Local Open Scope Q_scope.

Lemma carried_out_all : forall cmds tips,
  (pick_ups cmds <= tips)%nat -> carried_out tips cmds = (cmds, true).
Proof.
  unfold pick_ups.
  induction cmds as [|c cmds IH]; intros tips H; [reflexivity|].
  destruct c; cbn [carried_out filter is_pick_up_tip List.length] in *;
    try (rewrite (IH tips H); reflexivity).
  destruct tips as [|tips]; [lia|].
  rewrite (IH tips) by lia. reflexivity.
Qed.

Lemma carried_out_short : forall cmds tips,
  (tips < pick_ups cmds)%nat ->
  exists done rest,
    carried_out tips cmds = (done, false)
    /\ cmds = done ++ PickUpTip :: rest
    /\ pick_ups done = tips.
Proof.
  unfold pick_ups.
  induction cmds as [|c cmds IH]; intros tips H; [simpl in H; lia|].
  destruct c; cbn [carried_out filter is_pick_up_tip List.length] in *;
    try (destruct (IH tips H) as (done & rest & E & -> & P);
         rewrite E; eexists (_ :: done), rest;
         split; [reflexivity|]; split; [reflexivity|exact P]).
  destruct tips as [|tips].
  - exists [], cmds. repeat split.
  - destruct (IH tips) as (done & rest & E & -> & P); [lia|].
    rewrite E. exists (PickUpTip :: done), rest.
    split; [reflexivity|]. split; [reflexivity|].
    cbn [filter is_pick_up_tip List.length]. now rewrite P.
Qed.

Lemma many_rows_validated :
  validated decimal 1 1 (tl many_rows_csv) many_rows_well_data.
Proof. repeat split. vm_compute. intro H; discriminate H. Qed.

End DilutionDeckFacts.

(** *** Cells that are not finite numbers *)

Module DilutionCellsFacts.
Import Py PyFacts DilutionCells.
Local Open Scope Q_scope.

Lemma parse_row_finite float row :
  match MultiPlateDilutions.parse_row float row with
  | Some w => parse_row (finite float) row = Ok (of_well_entry w)
  | None => parse_row (finite float) row = Raise IndexError
            \/ parse_row (finite float) row = Raise ValueError
  end.
Proof.
  destruct row as [|c0 [|c1 [|c2 [|c3 [|c4 [|c5 [|c6 row]]]]]]];
    unfold MultiPlateDilutions.parse_row, parse_row, int_cell, float_cell, cell, finite;
    cbn [nth_error];
    repeat match goal with
           | |- context [float ?c] => destruct (float c); cbn [option_map]
           end;
    auto.
Qed.

Lemma parse_rows_finite float rows :
  match MultiPlateDilutions.parse_rows float rows with
  | Some wd => parse_rows (finite float) rows = Ok (map of_well_entry wd)
  | None => parse_rows (finite float) rows = Raise ValueError_csv_parsing
  end.
Proof.
  induction rows as [|row rows IH]; [reflexivity|].
  cbn [MultiPlateDilutions.parse_rows parse_rows].
  pose proof (parse_row_finite float row) as R.
  destruct (MultiPlateDilutions.parse_row float row) as [w|].
  - rewrite R. destruct (MultiPlateDilutions.parse_rows float rows) as [wd|]; rewrite IH;
      reflexivity.
  - destruct R as [-> | ->]; reflexivity.
Qed.

Lemma row_errors_finite nsp ndp k r :
  row_errors nsp ndp (of_well_entry r)
  = List.length (MultiPlateDilutions.row_errors nsp ndp k r).
Proof.
  unfold row_errors, MultiPlateDilutions.row_errors, of_well_entry, le_const, lt_const.
  cbn [source_plate destination_plate sample_volume water_volume
       initial_sample_volume].
  rewrite !length_app.
  repeat match goal with
         | |- context [if ?b then _ else _] => destruct b
         end; reflexivity.
Qed.

Lemma validation_errors_from nsp ndp wd : forall k n,
  fold_left (fun n row => (n + row_errors nsp ndp row)%nat)
            (map of_well_entry wd) n
  = (n + List.length
           (flat_map (fun ir => MultiPlateDilutions.row_errors nsp ndp (fst ir + 2) (snd ir))
                     (combine (seq k (List.length wd)) wd)))%nat.
Proof.
  induction wd as [|r wd IH]; intros k n; cbn [map fold_left]; [simpl; lia|].
  cbn [List.length seq combine flat_map fst snd].
  rewrite (IH (S k)), length_app, (row_errors_finite nsp ndp (k + 2) r). lia.
Qed.

Lemma validation_errors_finite nsp ndp wd :
  validation_errors nsp ndp (map of_well_entry wd)
  = List.length (MultiPlateDilutions.validation_errors nsp ndp wd).
Proof.
  unfold validation_errors, MultiPlateDilutions.validation_errors, enumerate.
  now rewrite (validation_errors_from nsp ndp wd 0 0).
Qed.

Lemma filter_map_entries (p : entry -> bool) wd :
  filter p (map of_well_entry wd)
  = map of_well_entry (filter (fun r => p (of_well_entry r)) wd).
Proof.
  induction wd as [|r wd IH]; [reflexivity|]. cbn [map filter].
  destruct (p (of_well_entry r)); cbn [map]; now rewrite IH.
Qed.

Lemma large_finite wd :
  wells_large_dilution (map of_well_entry wd)
  = map of_well_entry (MultiPlateDilutions.wells_large_dilution wd).
Proof. apply filter_map_entries. Qed.

Lemma normal_finite wd :
  wells_normal (map of_well_entry wd)
  = map of_well_entry (MultiPlateDilutions.wells_normal wd).
Proof. apply (filter_map_entries (fun row => negb (is_large row))). Qed.

Lemma sum_water_from l : forall acc,
  fold_left (fun acc row => fadd acc (water_volume row))
            (map of_well_entry l) (Finite acc)
  = Finite (fold_left (fun acc r => acc + MultiPlateDilutions.water_volume r) l acc).
Proof.
  induction l as [|r l IH]; intro acc; [reflexivity|].
  cbn [map fold_left]. exact (IH (acc + MultiPlateDilutions.water_volume r)).
Qed.

Lemma sum_water_finite l :
  sum_water (map of_well_entry l) = Finite (sum_by MultiPlateDilutions.water_volume l).
Proof. apply sum_water_from. Qed.

Lemma num_water_tubes_finite wd :
  num_water_tubes (map of_well_entry wd) = Ok (MultiPlateDilutions.num_water_tubes wd).
Proof.
  unfold num_water_tubes, total_water_with_buffer.
  rewrite normal_finite, large_finite, !sum_water_finite. reflexivity.
Qed.

(** On cells that are finite numbers the checks are the beginning of
    [MultiPlateDilutions.run]: they raise what the run raises before its
    first command, and pass the files the run goes on to pipette. *)
Lemma checks_agree float nsp ndp headers data :
  match checks (finite float) nsp ndp data with
  | Ok entries =>
      exists wd, MultiPlateDilutions.validated float nsp ndp data wd
                 /\ entries = map of_well_entry wd
  | Raise e =>
      exists e', script_error e = Some e'
                 /\ MultiPlateDilutions.run float nsp ndp (headers :: data) = ([], Raise e')
  | OutOfFuel => False
  end.
Proof.
  unfold checks, MultiPlateDilutions.run.
  pose proof (parse_rows_finite float data) as P.
  destruct (MultiPlateDilutions.parse_rows float data) as [wd|] eqn:EP; rewrite P;
    [|eexists; split; reflexivity].
  rewrite validation_errors_finite.
  destruct (MultiPlateDilutions.validation_errors nsp ndp wd) as [|v vs] eqn:EV;
    cbn [List.length]; [|eexists; split; reflexivity].
  rewrite num_water_tubes_finite, large_finite, length_map.
  fold (MultiPlateDilutions.num_reservoir_tubes_needed wd). fold (MultiPlateDilutions.total_tubes_needed wd).
  destruct (Z.ltb_spec 24 (MultiPlateDilutions.total_tubes_needed wd)) as [L|L].
  - eexists. split; reflexivity.
  - exists wd. split; [|reflexivity]. repeat split; assumption.
Qed.

End DilutionCellsFacts.

(** ** MultiPlateDilutions_v6.py: the claims *)

Module MultiPlateDilutionsSpec.
Import Py PyFacts MultiPlateDilutions DilutionFacts.
Import DilutionDeck DilutionDeckFacts DilutionWells.
Local Open Scope Q_scope.

(** C4. For every CSV that passes validation the run ends normally: the
    branch raising "Ran out of water tubes during protocol execution" is
    taken in none of the three water-distribution passes.  Each pass starts
    from the first tube with [water_per_tube], at most 24 tubes are in use,
    the tubes hold the total water plus the 50 uL buffer between them, and
    the demand of each pass is at most the total water. *)
Theorem water_never_runs_out float nsp ndp headers data wd :
  validated float nsp ndp data wd ->
  (exists bs, run float nsp ndp (headers :: data) = (bs, Ok tt))
  /\ (exists bA bB bF,
        step_reservoir_water wd = (bA, Ok tt)
        /\ step_plate_water wd = (bB, Ok tt)
        /\ step_water_after_water wd = (bF, Ok tt))
  /\ (1 <= num_water_tubes wd <= 24)%Z
  /\ water_per_tube wd * inject_Z (num_water_tubes wd) == total_water wd + 50
  /\ sum_by water_volume (wells_large_dilution wd) <= total_water wd
  /\ sum_by water_volume (wells_water_first wd) <= total_water wd
  /\ sum_by water_volume (wells_water_after wd) <= total_water wd.
Proof.
  intro V. split; [exact (run_validated_ok _ _ _ headers _ _ V)|].
  destruct V as (_ & HV & HT). apply validation_errors_nil in HV.
  split.
  - destruct (step_reservoir_water_ok nsp ndp wd HV HT) as (bA & EA & _).
    destruct (step_plate_water_ok nsp ndp wd HV HT) as (bB & EB & _).
    destruct (step_water_after_water_ok nsp ndp wd HV HT) as (bF & EF & _).
    eauto 10.
  - split; [split|].
    + exact (num_water_tubes_pos nsp ndp wd HV).
    + exact (num_water_tubes_le wd HT).
    + split; [exact (per_tube_total nsp ndp wd HV)|].
      split; [exact (large_demand nsp ndp wd HV)|].
      split; [exact (water_first_demand nsp ndp wd HV)|].
      exact (water_after_demand nsp ndp wd HV).
Qed.

Lemma example_validated :
  validated decimal 3 2 (tl example_csv) example_well_data.
Proof. repeat split. vm_compute. intro H; discriminate H. Qed.

Lemma water_never_runs_out_witness :
  exists bs, run decimal 3 2 example_csv = (bs, Ok tt).
Proof.
  exact (proj1 (water_never_runs_out decimal 3 2 (hd [] example_csv)
                  (tl example_csv) example_well_data example_validated)).
Defined.

(** X20. On cells that are finite numbers, the run raises a [ValueError]
    before any pipetting command exactly when the data rows are rejected:
    a row fails to parse, a row names a plate outside the loaded ones or
    has a sample volume <= 0, a negative water volume or an initial sample
    volume <= 0, or water tubes plus large-dilution tubes exceed 24.  No
    [ValueError] is raised later: a run that ends in one has issued no
    command at all. *)
Theorem validation_before_pipetting float nsp ndp headers data :
  (rejected float nsp ndp data
   <-> exists e, is_ValueError e = true
                 /\ run float nsp ndp (headers :: data) = ([], Raise e))
  /\ (forall bs e,
        run float nsp ndp (headers :: data) = (bs, Raise e) ->
        is_ValueError e = true ->
        bs = [] /\ rejected float nsp ndp data).
Proof.
  destruct (rejected_or_validated float nsp ndp headers data)
    as [(R & e & He & E)|(NR & wd & V)].
  - split.
    + split; [intros _; eauto|intros _; exact R].
    + intros bs e' E' _. rewrite E in E'. injection E' as <- <-. auto.
  - destruct (run_validated_ok _ _ _ headers _ _ V) as (bs & E).
    split.
    + split; [tauto|]. intros (e & _ & E'). rewrite E in E'. discriminate E'.
    + intros bs' e E'. rewrite E in E'. discriminate E'.
Qed.

(** X19. For every validated CSV [total_tips_needed] is
    (1 + large dilutions, if any) + (1 + water-first dilutions, if any)
    + 2 * water-after dilutions, and [tip_racks_needed] is the ceiling of
    [total_tips_needed / 96].  When the two racks on the deck suffice, that
    is for at most 192 tips, the run ends normally and the number of
    [pick_up_tip] calls carried out is [total_tips_needed].  Otherwise
    [tip_racks_needed] is 3 or more, and the run stops with
    [OutOfTipsError] at its 193rd [pick_up_tip], 192 of them carried
    out. *)
Theorem tip_accounting float nsp ndp headers data wd :
  validated float nsp ndp data wd ->
  total_tips_needed wd
  = ((if Nat.eqb (List.length (wells_large_dilution wd)) 0 then 0
      else 1 + Z.of_nat (List.length (wells_large_dilution wd)))
     + (if Nat.eqb (List.length (wells_water_first wd)) 0 then 0
        else 1 + Z.of_nat (List.length (wells_water_first wd)))
     + 2 * Z.of_nat (List.length (wells_water_after wd)))%Z
  /\ (96 * (tip_racks_needed wd - 1) < total_tips_needed wd
      <= 96 * tip_racks_needed wd)%Z
  /\ ((total_tips_needed wd <= 192)%Z ->
      (tip_racks_needed wd <= 2)%Z
      /\ exists cmds,
           run_on_deck float nsp ndp (headers :: data) = (cmds, Ok tt)
           /\ Z.of_nat (pick_ups cmds) = total_tips_needed wd)
  /\ ((192 < total_tips_needed wd)%Z ->
      (3 <= tip_racks_needed wd)%Z
      /\ exists done,
           run_on_deck float nsp ndp (headers :: data)
           = (done, Raise OutOfTipsError)
           /\ pick_ups done = 192%nat).
Proof.
  intro V. destruct (run_validated_ok _ _ _ headers _ _ V) as (bs & E).
  assert (Z.of_nat (pick_ups (commands bs)) = total_tips_needed wd) as T.
  { pose proof E as E'. rewrite (run_validated _ _ _ _ _ _ V) in E'.
    destruct V as (_ & HV & HT). apply validation_errors_nil in HV.
    exact (tips_pipetting nsp ndp wd bs HV HT E'). }
  assert (96 * (tip_racks_needed wd - 1) < total_tips_needed wd
          <= 96 * tip_racks_needed wd)%Z as R.
  { unfold tip_racks_needed, math_ceil, tips_per_rack.
    set (n := total_tips_needed wd).
    pose proof (Qle_ceiling (inject_Z n / inject_Z 96)) as Hup.
    pose proof (Qceiling_lt (inject_Z n / inject_Z 96)) as Hlo.
    set (c := Qceiling (inject_Z n / inject_Z 96)) in *.
    assert (inject_Z n / inject_Z 96 == inject_Z n * (1 # 96)) as D
      by (change (inject_Z 96) with 96; field).
    rewrite D in Hup, Hlo.
    unfold Zminus in Hlo. rewrite inject_Z_plus in Hlo.
    change (inject_Z (- (1))) with (- (1)) in Hlo.
    split.
    + rewrite Zlt_Qlt. unfold Zminus. rewrite inject_Z_mult, inject_Z_plus.
      change (inject_Z 96) with 96. change (inject_Z (- (1))) with (- (1)).
      lra.
    + rewrite Zle_Qle. rewrite inject_Z_mult. change (inject_Z 96) with 96.
      lra. }
  split; [|split; [exact R|split]].
  - unfold total_tips_needed.
    destruct (wells_large_dilution wd); destruct (wells_water_first wd);
      cbn [List.length Nat.eqb]; lia.
  - intro H. split; [lia|]. exists (commands bs).
    unfold run_on_deck. rewrite E.
    rewrite carried_out_all by (unfold tips_loaded; lia).
    split; [reflexivity|exact T].
  - intro H. split; [lia|].
    destruct (carried_out_short (commands bs) tips_loaded)
      as (done & rest & C & _ & P); [unfold tips_loaded; lia|].
    exists done. unfold run_on_deck. rewrite E, C.
    split; [reflexivity|exact P].
Qed.

Lemma tip_accounting_witness :
  exists cmds,
    run_on_deck decimal 3 2 example_csv = (cmds, Ok tt)
    /\ Z.of_nat (pick_ups cmds) = 6%Z.
Proof.
  destruct (tip_accounting decimal 3 2 (hd [] example_csv) (tl example_csv)
              example_well_data example_validated)
    as (_ & _ & S & _).
  destruct S as (_ & cmds & E & T); [vm_compute; discriminate|].
  exists cmds. split; [exact E|exact T].
Defined.

(** C2. The claim fails on a validated file that needs more than the two
    racks the script loads.  97 rows with 1 uL of water each are water-after
    rows: [total_tips_needed] is 194 and [tip_racks_needed] is 3, which the
    script reports; the run stops with [OutOfTipsError] at its 193rd
    [pick_up_tip], having carried out 192 and not 194 of them. *)
Theorem two_racks_are_loaded :
  validated decimal 1 1 (tl many_rows_csv) many_rows_well_data
  /\ total_tips_needed many_rows_well_data = 194%Z
  /\ tip_racks_needed many_rows_well_data = 3%Z
  /\ snd (run_on_deck decimal 1 1 many_rows_csv) = Raise OutOfTipsError
  /\ pick_ups (fst (run_on_deck decimal 1 1 many_rows_csv)) = 192%nat.
Proof.
  split; [exact many_rows_validated|].
  split; [vm_compute; reflexivity|].
  split; [vm_compute; reflexivity|].
  split; vm_compute; reflexivity.
Qed.


(** The rows a step processes, read off the trace of a validated run. *)
Lemma step_rows p wd bA bB bC bD bE bF :
  blocks_for ReservoirWater (reservoir_block wd) 0
             (wells_large_dilution wd) bA ->
  blocks_for PlateWater (plate_block wd) 0 (wells_water_first wd) bB ->
  blocks_for LargeDilution (large_block wd) 0 (wells_large_dilution wd) bC ->
  blocks_for WaterFirstSample water_first_block 0 (wells_water_first wd) bD ->
  blocks_for WaterAfterSample water_after_sample_block 0
             (wells_water_after wd) bE ->
  blocks_for WaterAfterWater (water_after_block wd) 0
             (wells_water_after wd) bF ->
  block_rows p (wrap ReservoirWater (wells_large_dilution wd) bA
                ++ wrap PlateWater (wells_water_first wd) bB
                ++ bC ++ bD ++ bE ++ bF)
  = (if p ReservoirWater then wells_large_dilution wd else [])
    ++ (if p PlateWater then wells_water_first wd else [])
    ++ (if p LargeDilution then wells_large_dilution wd else [])
    ++ (if p WaterFirstSample then wells_water_first wd else [])
    ++ (if p WaterAfterSample then wells_water_after wd else [])
    ++ (if p WaterAfterWater then wells_water_after wd else []).
Proof.
  intros BA BB BC BD BE BF. rewrite !block_rows_app.
  rewrite (block_rows_wrap p _ _ _ _ _ BA), (block_rows_wrap p _ _ _ _ _ BB).
  rewrite (block_rows_for p _ _ _ _ _ BA), (block_rows_for p _ _ _ _ _ BB),
    (block_rows_for p _ _ _ _ _ BC), (block_rows_for p _ _ _ _ _ BD),
    (block_rows_for p _ _ _ _ _ BE), (block_rows_for p _ _ _ _ _ BF).
  reflexivity.
Qed.

(** A file that needs two water tubes: the fifth row empties the first
    tube (19 then the last 6 uL) and goes on from the second. *)
Example two_water_tubes :
  let data :=
    map (fun w => ["1"; "A1"; "1"; w; "10"; "189.5"; "50"]%string)
        ["A1"; "A2"; "A3"; "A4"; "A5"; "A6"; "A7"; "A8"]%string in
  let r := run decimal 3 2 (["header"%string] :: data) in
  snd r = Ok tt
  /\ option_map num_water_tubes (parse_rows decimal data) = Some 2%Z
  /\ map (fun b => List.length (tube_transfers 1 (blk_cmds b)))
         (firstn 10 (fst r))
     = [0; 0; 0; 0; 0; 9; 10; 10; 10; 0]%nat
  /\ option_map (fun b => map Qred (tube_transfers 0 (blk_cmds b)))
                (nth_error (fst r) 5)
     = Some [19; 6].
Proof. vm_compute. repeat split. Qed.

(** C1. In a validated run every row gets one water distribution and one
    sample transfer, and each of them moves the row's required volume
    ([water_volume], resp. [sample_volume]) in successive transfers that are
    strictly positive, at most 19 uL each, and sum exactly to that volume;
    a volume above 19 uL is therefore split into at least two transfers. *)
Theorem volume_splitting float nsp ndp headers data wd :
  validated float nsp ndp data wd ->
  exists bs,
    run float nsp ndp (headers :: data) = (bs, Ok tt)
    /\ Permutation (block_rows is_water_step bs) wd
    /\ Permutation (block_rows is_sample_step bs) wd
    /\ forall b r, In b bs -> blk_row b = Some r ->
         let required :=
           if is_water_step (blk_step b) then water_volume r
           else sample_volume r in
         let transfers :=
           if is_water_step (blk_step b)
           then water_transfers (num_water_tubes wd) (blk_cmds b)
           else sample_transfers (blk_cmds b) in
         split_into required transfers
         /\ (19 < required -> (2 <= List.length transfers)%nat).
Proof.
  intro V.
  destruct (run_structure _ _ _ headers _ _ V)
    as (bA & bB & bC & bD & bE & bF & E & BA & BB & BC & BD & BE & BF).
  eexists. split; [exact E|].
  destruct V as (_ & HV & _). apply validation_errors_nil in HV.
  destruct (flow_rows_ok _ _ _ HV) as (OL & OF & OA).
  split; [|split].
  - rewrite (step_rows is_water_step wd bA bB bC bD bE bF) by assumption.
    simpl. apply flows_perm.
  - rewrite (step_rows is_sample_step wd bA bB bC bD bE bF) by assumption.
    simpl. rewrite app_nil_r. apply flows_perm.
  - intros b r Hb Hr.
    assert (forall w ts, split_into w ts ->
              split_into w ts /\ (19 < w -> (2 <= List.length ts)%nat)) as Long.
    { intros w ts H. split; [exact H|]. now apply split_into_long. }
    assert (forall r', blk_row b = Some r' -> r' = r) as Same
      by (intros r' H; congruence).
    repeat (apply in_app_or in Hb as [Hb|Hb]).
    + apply in_wrap in Hb as [Hb|Hb]; [congruence|].
      destruct (blocks_for_in _ _ _ _ _ _ BA Hb)
        as (i & r' & _ & Hs & Hr' & st & Hc & Hst).
      apply Same in Hr' as ->. cbv zeta. rewrite Hs, Hc. simpl is_water_step.
      cbv iota. apply Long.
      rewrite (water_transfers_steps _ _ _ _
                 (water_emit_reservoir _ _) Hst).
      exact (steps_split _ _ _ Hst).
    + apply in_wrap in Hb as [Hb|Hb]; [congruence|].
      destruct (blocks_for_in _ _ _ _ _ _ BB Hb)
        as (i & r' & _ & Hs & Hr' & st & Hc & Hst).
      apply Same in Hr' as ->. cbv zeta. rewrite Hs, Hc. simpl is_water_step.
      cbv iota. apply Long.
      rewrite (water_transfers_steps _ _ _ _ (water_emit_plate _ _) Hst).
      exact (steps_split _ _ _ Hst).
    + destruct (blocks_for_in _ _ _ _ _ _ BC Hb)
        as (i & r' & Hin & Hs & Hr' & Hc).
      unfold large_block, water_first_block, water_after_sample_block in Hc.
      apply Same in Hr' as ->. cbv zeta. rewrite Hs, Hc. simpl is_water_step.
      cbv iota. apply Long. rewrite sample_large_dilution_row.
      apply sample_amounts_ok. apply (OL r Hin).
    + destruct (blocks_for_in _ _ _ _ _ _ BD Hb)
        as (i & r' & Hin & Hs & Hr' & Hc).
      unfold large_block, water_first_block, water_after_sample_block in Hc.
      apply Same in Hr' as ->. cbv zeta. rewrite Hs, Hc. simpl is_water_step.
      cbv iota. apply Long. rewrite sample_water_first_row.
      apply sample_amounts_ok. apply (OF r Hin).
    + destruct (blocks_for_in _ _ _ _ _ _ BE Hb)
        as (i & r' & Hin & Hs & Hr' & Hc).
      unfold large_block, water_first_block, water_after_sample_block in Hc.
      apply Same in Hr' as ->. cbv zeta. rewrite Hs, Hc. simpl is_water_step.
      cbv iota. apply Long. rewrite sample_water_after_row.
      apply sample_amounts_ok. apply (OA r Hin).
    + destruct (blocks_for_in _ _ _ _ _ _ BF Hb)
        as (i & r' & _ & Hs & Hr' & st & Hc & Hst).
      apply Same in Hr' as ->. cbv zeta. rewrite Hs, Hc. simpl is_water_step.
      cbv iota. apply Long.
      rewrite !water_transfers_app.
      rewrite (water_transfers_steps _ _ _ _ (water_emit_after _ _) Hst).
      simpl. rewrite app_nil_r.
      exact (steps_split _ _ _ Hst).
Qed.

Lemma volume_splitting_witness :
  exists bs,
    run decimal 3 2 example_csv = (bs, Ok tt)
    /\ Permutation (block_rows is_water_step bs) example_well_data
    /\ Permutation (block_rows is_sample_step bs) example_well_data.
Proof.
  destruct (volume_splitting decimal 3 2 (hd [] example_csv) (tl example_csv)
              example_well_data example_validated) as (bs & E & P1 & P2 & _).
  exists bs. split; [exact E|]. split; [exact P1|exact P2].
Defined.



Lemma tube_transfers_app k a b :
  tube_transfers k (a ++ b) = tube_transfers k a ++ tube_transfers k b.
Proof. apply flat_map_app. Qed.












End MultiPlateDilutionsSpec.

(** ** MultiPlateDilutions_v6.py: cells that are not finite numbers *)

Module DilutionCellsSpec.
Import Py PyFacts DilutionCells DilutionCellsFacts.
Local Open Scope Q_scope.

(** C3. The claim fails on cells that are not finite numbers.  A row whose
    water volume is [nan] parses and passes the validation section, every
    comparison with [nan] being false; the run then stops at line 149,
    where [math.ceil] raises [ValueError] on the [nan] total: a
    [ValueError] before any pipetting command with none of the causes the
    claim lists.  A row whose source plate is [inf] does not parse, and the
    run stops with the [OverflowError] of [int()], which the [except]
    clause of line 67 does not catch, instead of a [ValueError]. *)
Theorem validation_misses_nan_and_inf :
  (exists wd, parse_rows float_literal nan_water_rows = Ok wd
              /\ validation_errors 1 1 wd = 0%nat)
  /\ checks float_literal 1 1 nan_water_rows = Raise ValueError_ceil_nan
  /\ is_ValueError ValueError_ceil_nan = true
  /\ parse_rows float_literal inf_plate_rows = Raise OverflowError_int
  /\ checks float_literal 1 1 inf_plate_rows = Raise OverflowError_int
  /\ is_ValueError OverflowError_int = false.
Proof.
  split; [eexists; split; reflexivity|]. repeat split.
Qed.

End DilutionCellsSpec.

(** ** EquiMolar_pooling_v2.py: the claims *)

Module EquiMolarPoolingSpec.
Import Py PyFacts EquiMolarPooling PoolingDeck.
Local Open Scope Q_scope.

Section Sorting.

Variable float : string -> option Q.

(** Descending order of the keys. *)
Definition desc (a b : Q * list string) : Prop := fst b <= fst a.

Lemma insert_desc_perm x l : Permutation (insert_desc x l) (x :: l).
Proof.
  induction l as [|y l IH]; simpl; [reflexivity|].
  destruct (Qltb (fst x) (fst y)); [|reflexivity].
  rewrite IH. apply perm_swap.
Qed.

Lemma sort_desc_perm l : Permutation (sort_desc l) l.
Proof.
  induction l as [|x l IH]; simpl; [constructor|].
  rewrite insert_desc_perm. now constructor.
Qed.

Lemma insert_desc_sorted x l :
  StronglySorted desc l -> StronglySorted desc (insert_desc x l).
Proof.
  induction 1 as [|y l Hs IH Hy]; simpl.
  - repeat constructor.
  - destruct (Qltb (fst x) (fst y)) eqn:E.
    + apply Qltb_true in E. constructor; [exact IH|].
      apply Forall_forall. intros z Hz.
      apply (Permutation_in _ (insert_desc_perm x l)) in Hz.
      destruct Hz as [<-|Hz].
      * unfold desc. lra.
      * rewrite Forall_forall in Hy. now apply Hy.
    + apply Qltb_false in E. constructor; [now constructor|].
      constructor; [exact E|].
      eapply Forall_impl; [|exact Hy]. unfold desc. intros z Hz. lra.
Qed.

Lemma sort_desc_sorted l : StronglySorted desc (sort_desc l).
Proof.
  induction l as [|x l IH]; simpl; [constructor|].
  now apply insert_desc_sorted.
Qed.

(** Rows paired with the key [float(row[1])] computes for them. *)
Definition keyed_ok (ks : list (Q * list string)) : Prop :=
  Forall (fun kr => volume_of float (snd kr) = Ok (fst kr)) ks.

Lemma with_keys_ok rows :
  Forall (fun row => exists v, volume_of float row = Ok v) rows ->
  exists ks, with_keys float rows = Ok ks /\ map snd ks = rows
             /\ keyed_ok ks.
Proof.
  induction 1 as [|row rows (v & Hv) _ (ks & E & M & K)].
  - exists []. repeat split. constructor.
  - exists ((v, row) :: ks). simpl. rewrite Hv, E, M.
    repeat split. constructor; [exact Hv|exact K].
Qed.

Definition transfer_of (kr : Q * list string) : well * Q * well :=
  (PlateWell (well_name_of (snd kr)), fst kr, pooling_tube).

Lemma transfer_all_ok ks :
  keyed_ok ks ->
  exists cmds, transfer_all float (map snd ks) = (cmds, Ok tt)
               /\ transfers cmds = map transfer_of ks.
Proof.
  induction 1 as [|[v row] ks Hv _ (cmds & E & T)].
  - exists []. split; reflexivity.
  - simpl in Hv. eexists. cbn [map snd transfer_all]. unfold transfer_row.
    rewrite Hv, E. split; [reflexivity|].
    unfold transfers in *. simpl. rewrite T. reflexivity.
Qed.

Lemma planned_keyed ks :
  keyed_ok ks -> flat_map (planned float) (map snd ks) = map transfer_of ks.
Proof.
  induction 1 as [|[v row] ks Hv _ IH]; [reflexivity|].
  simpl in *. unfold planned at 1. rewrite Hv, IH. reflexivity.
Qed.

Lemma transfers_sorted l :
  StronglySorted desc l ->
  StronglySorted (fun a b : well * Q * well => snd (fst b) <= snd (fst a))
                 (map transfer_of l).
Proof.
  induction 1 as [|kr l _ IH Hl]; simpl; constructor; [exact IH|].
  apply Forall_map. exact Hl.
Qed.

End Sorting.

(** Rows of equal volume keep the order of the file (A1 before C1). *)
Example pooling_keeps_ties :
  map (fun t => fst (fst t)) (transfers (fst (run decimal example_csv)))
  = [PlateWell "D1"; PlateWell "B1"; PlateWell "A1"; PlateWell "C1"].
Proof. vm_compute. reflexivity. Qed.

(** A row without a volume stops the run before any command. *)
Example pooling_short_row :
  run decimal [["Well"; "Volume"]; ["A1"; "5"]; ["B1"]]%string
  = ([], Raise IndexError).
Proof. vm_compute. reflexivity. Qed.

Lemma requested_planned float rows ts :
  Forall2 (fun row t => requested float row = Some t) rows ts ->
  Forall (fun row => exists v, volume_of float row = Ok v) rows
  /\ flat_map (planned float) rows = ts.
Proof.
  induction 1 as [|row t rows ts H _ [IH1 IH2]]; [split; constructor|].
  destruct row as [|name [|volume row]]; try discriminate H.
  cbn [requested] in H. destruct (float volume) as [v|] eqn:E;
    [|discriminate H].
  injection H as <-. split.
  - constructor; [|exact IH1]. exists v. cbn [volume_of]. now rewrite E.
  - cbn [flat_map]. unfold planned at 1. cbn [volume_of]. rewrite E, IH2.
    reflexivity.
Qed.

Lemma carried_out_transfers float : forall ks tips,
  keyed_ok float ks -> (List.length ks <= tips)%nat ->
  carried_out tips (fst (transfer_all float (map snd ks)))
  = (fst (transfer_all float (map snd ks)), true).
Proof.
  induction ks as [|[v row] ks IH]; intros tips K L; [reflexivity|].
  inversion K as [|? ? Hv K']; subst. simpl in Hv.
  cbn [map snd transfer_all]. unfold transfer_row. rewrite Hv.
  destruct (transfer_all float (map snd ks)) as [cmds o] eqn:E.
  cbn [fst app]. cbn [List.length] in L.
  destruct tips as [|tips]; [lia|].
  cbn [carried_out]. specialize (IH tips K'). try rewrite E in IH.
  cbn [fst] in IH. rewrite IH by lia. reflexivity.
Qed.

(** C6. With at most 96 data rows, each naming a well and a volume that
    reads as a number, the run ends normally; its transfers are, up to
    order, exactly the one each row asks for, from the well the row names
    into pooling tube A1 with the row's volume; they are carried out in
    non-increasing order of volume. *)
Theorem pooling_order float csv_rows ts :
  (List.length (tl csv_rows) <= 96)%nat ->
  Forall2 (fun row t => requested float row = Some t) (tl csv_rows) ts ->
  exists cmds,
    run_on_deck float csv_rows = (cmds, Ok tt)
    /\ Permutation (transfers cmds) ts
    /\ StronglySorted (fun a b => snd (fst b) <= snd (fst a)) (transfers cmds)
    /\ Forall (fun t => snd t = TubeWell "A1") (transfers cmds).
Proof.
  intros L R. destruct (requested_planned float _ _ R) as [H P].
  destruct (with_keys_ok float _ H) as (ks & E & M & K).
  assert (keyed_ok float (sort_desc ks)) as K'.
  { unfold keyed_ok in *. rewrite Forall_forall in *. intros kr Hin.
    apply K. apply (Permutation_in _ (sort_desc_perm ks) Hin). }
  destruct (transfer_all_ok float _ K') as (cmds & Ec & T).
  assert (List.length (sort_desc ks) <= tips_loaded)%nat as L'.
  { rewrite (Permutation_length (sort_desc_perm ks)).
    rewrite <- (length_map snd), M. exact L. }
  pose proof (carried_out_transfers float _ _ K' L') as C.
  rewrite Ec in C. cbn [fst] in C.
  exists cmds. unfold run_on_deck, run. rewrite E, Ec, C.
  split; [reflexivity|].
  rewrite T, <- P, <- M, (planned_keyed float ks K). split; [|split].
  - apply Permutation_map, sort_desc_perm.
  - apply transfers_sorted, sort_desc_sorted.
  - apply Forall_map, Forall_forall. reflexivity.
Qed.

Lemma pooling_order_witness :
  exists cmds,
    run_on_deck decimal example_csv = (cmds, Ok tt)
    /\ Permutation (transfers cmds)
         [(PlateWell "A1", 5, TubeWell "A1");
          (PlateWell "B1", 12.5, TubeWell "A1");
          (PlateWell "C1", 5, TubeWell "A1");
          (PlateWell "D1", 20, TubeWell "A1")]
    /\ map (fun t => fst (fst t)) (transfers cmds)
       = [PlateWell "D1"; PlateWell "B1"; PlateWell "A1"; PlateWell "C1"].
Proof.
  destruct (pooling_order decimal example_csv
              [(PlateWell "A1", 5, TubeWell "A1");
               (PlateWell "B1", 12.5, TubeWell "A1");
               (PlateWell "C1", 5, TubeWell "A1");
               (PlateWell "D1", 20, TubeWell "A1")])
    as (cmds & E & P & _).
  - simpl. lia.
  - repeat constructor.
  - exists cmds. split; [exact E|]. split; [exact P|].
    vm_compute in E. injection E as <-. reflexivity.
Defined.

(** The claim fails on a file of more than 96 data rows: of 97 rows the
    run transfers 96 and stops with [OutOfTipsError], the last row being
    never transferred. *)
Lemma pooling_order_counterexample :
  List.length (tl many_rows_csv) = 97%nat
  /\ Forall (fun row => requested decimal row
                        = Some (PlateWell "A1", 5, TubeWell "A1"))
            (tl many_rows_csv)
  /\ snd (run_on_deck decimal many_rows_csv) = Raise OutOfTipsError
  /\ List.length (transfers (fst (run_on_deck decimal many_rows_csv)))
     = 96%nat.
Proof.
  split; [reflexivity|]. split.
  - apply Forall_forall. intros row Hin. apply repeat_spec in Hin.
    subst row. reflexivity.
  - split; vm_compute; reflexivity.
Qed.

End EquiMolarPoolingSpec.

(** ** The Flex scripts: the claims *)

Module FlexFacts.
Import Py PyFacts Flex.
Local Open Scope Q_scope.

Lemma no_longerb_sound dry : forall normal,
  no_longerb dry normal = true -> no_longer dry normal.
Proof.
  induction dry as [|d dry IH]; intros [|n normal] H; simpl in H;
    try discriminate H; try constructor.
  - apply andb_true_iff in H as [H _]. now apply Qle_bool_iff.
  - apply andb_true_iff in H as [_ H]. now apply IH.
Qed.

Lemma waits_at_absent line es :
  ~ In line (wait_lines es) -> waits_at line es = [].
Proof.
  unfold waits_at, wait_lines. induction (waits es) as [|[l m] ws IH]; simpl.
  - reflexivity.
  - intro H. destruct (Nat.eqb_spec l line) as [->|_]; [tauto|].
    apply IH. tauto.
Qed.

Lemma dry_run_no_longerb_sound dry normal :
  dry_run_no_longerb dry normal = true -> dry_run_no_longer dry normal.
Proof.
  unfold dry_run_no_longerb, dry_run_no_longer. intros H line.
  destruct (in_dec Nat.eq_dec line (wait_lines dry)) as [Hin|Hout].
  - rewrite forallb_forall in H. apply no_longerb_sound. now apply H.
  - rewrite (waits_at_absent _ _ Hout). constructor.
Qed.

Lemma no_pause_sound msg es :
  existsb (is_pause msg) es = false -> ~ In (Pause msg) es.
Proof.
  intros H Hin. assert (existsb (is_pause msg) es = true) as H'.
  { apply existsb_exists. exists (Pause msg). split; [exact Hin|].
    simpl. apply String.eqb_refl. }
  congruence.
Qed.

End FlexFacts.

Module FlexSpec.
Import Py PyFacts Flex FlexFacts.
Local Open Scope Q_scope.

(** In the 48-sample script the trace depends on [num_samples] through the
    number of sample columns only, and seven or more columns all fail alike:
    a property decided on the trace holds for every sample count as soon as
    it holds for zero to seven-or-more columns. *)
Ltac by_columns k :=
  do 7 (destruct k as [|k]; [vm_compute; reflexivity|]);
  vm_compute; reflexivity.

Lemma zymo48_dry_check heater_shaker num_samples :
  dry_run_no_longerb (Zymo48.trace true heater_shaker num_samples)
                     (Zymo48.trace false heater_shaker num_samples) = true.
Proof.
  unfold Zymo48.trace, Zymo48.run, Zymo48.bind_, Zymo48.wash, Zymo48.elute,
    Zymo48.remove_supernatant, Zymo48.samples_m.
  generalize (Zymo48.num_cols num_samples) as k. intro k.
  destruct heater_shaker; by_columns k.
Qed.

Lemma zymo48_pause_check dry_run heater_shaker num_samples :
  existsb (is_pause Zymo48.empty_liquid_msg)
          (Zymo48.trace dry_run heater_shaker num_samples) = false.
Proof.
  unfold Zymo48.trace, Zymo48.run, Zymo48.bind_, Zymo48.wash, Zymo48.elute,
    Zymo48.remove_supernatant, Zymo48.samples_m.
  generalize (Zymo48.num_cols num_samples) as k. intro k.
  destruct dry_run, heater_shaker; by_columns k.
Qed.

Lemma zymo24_dry_check sample_count :
  dry_run_no_longerb (Zymo24.trace sample_count true)
                     (Zymo24.trace sample_count false) = true.
Proof.
  unfold Zymo24.trace, Zymo24.run, Zymo24.bind_, Zymo24.wash, Zymo24.elute,
    Zymo24.remove_supernatant, Zymo24.sample_index_columns,
    Zymo24.supernatant_tips, Zymo24.elution_tips, Zymo24.initial_runtime,
    Zymo24.remaining_tips.
  generalize (Zymo24.num_sample_columns sample_count) as k. intro k.
  by_columns k.
Qed.

(** C7. In each of the four scripts that take a dry-run parameter, every
    timed wait (delay, incubation, shake, thermocycler hold) executed in a
    dry run lasts no longer than the corresponding wait, issued by the same
    line of the script at the same occurrence, of the run with the same
    other inputs and dry run disabled; waits of the normal run without a
    counterpart are skipped. *)
Theorem dry_run_never_longer
    (magbead_incubation_time bead_mixing_volume : Q)
    (using_thermocycler heater_shaker : bool)
    (num_samples sample_count : nat) :
  1 <= magbead_incubation_time -> magbead_incubation_time <= 30 ->
  dry_run_no_longer
    (SelectASizeCleaning.run magbead_incubation_time bead_mixing_volume true)
    (SelectASizeCleaning.run magbead_incubation_time bead_mixing_volume false)
  /\ dry_run_no_longer (LibraryPrep.run true using_thermocycler)
                       (LibraryPrep.run false using_thermocycler)
  /\ dry_run_no_longer (Zymo48.trace true heater_shaker num_samples)
                       (Zymo48.trace false heater_shaker num_samples)
  /\ dry_run_no_longer (Zymo24.trace sample_count true)
                       (Zymo24.trace sample_count false).
Proof.
  intros Hlo Hhi. split; [|split; [|split]].
  - intro line.
    destruct (in_dec Nat.eq_dec line [159; 167; 224; 229]%nat) as [Hin|Hout].
    + destruct Hin as [<-|[<-|[<-|[<-|[]]]]];
        unfold SelectASizeCleaning.run, waits_at; cbn;
        (apply nl_cons; [lra|apply nl_nil]).
    + rewrite waits_at_absent; [apply nl_nil|exact Hout].
  - apply dry_run_no_longerb_sound. destruct using_thermocycler;
      vm_compute; reflexivity.
  - apply dry_run_no_longerb_sound, zymo48_dry_check.
  - apply dry_run_no_longerb_sound, zymo24_dry_check.
Qed.

Lemma dry_run_never_longer_witness :
  dry_run_no_longer (SelectASizeCleaning.run 5 200 true)
                    (SelectASizeCleaning.run 5 200 false)
  /\ dry_run_no_longer (Zymo48.trace true true 48)
                       (Zymo48.trace false true 48).
Proof.
  destruct (dry_run_never_longer 5 200 true true 48 24) as (A & _ & B & _).
  - lra.
  - lra.
  - split; [exact A|exact B].
Defined.

(** C8. A tip-tracking operation that completes leaves its counter below
    the threshold: when the counter reaches it (150 in [tiptrack], counting
    8 tips at a time; 18 in [drop_tips], counting drop events) the counter
    is reset to zero and the protocol pauses asking to empty the waste bin,
    otherwise the counter is advanced and no pause is issued.  [tiptrack]
    fails only for lack of tips; [drop_tips] never fails. *)
Theorem waste_bin_counter_below_threshold :
  (forall g,
     match Zymo48.tiptrack g with
     | (es, Ok (_, g')) =>
         (Zymo48.drop_count g' < 150)%nat
         /\ (if (150 <=? Zymo48.drop_count g + 8)%nat
             then Zymo48.drop_count g' = 0%nat
                  /\ In (Pause Zymo48.empty_bin_msg) es
             else Zymo48.drop_count g' = (Zymo48.drop_count g + 8)%nat
                  /\ ~ In (Pause Zymo48.empty_bin_msg) es)
     | (_, Raise e) => e = IndexError /\ (Zymo48.n_tips <= Zymo48.tip1k g)%nat
     | (_, OutOfFuel) => False
     end)
  /\ (forall r,
        match Zymo24.drop_tips r with
        | (es, Ok (_, r')) =>
            (Zymo24.DROP_COUNT r' < 18)%nat
            /\ (if (18 <=? Zymo24.DROP_COUNT r + 1)%nat
                then Zymo24.DROP_COUNT r' = 0%nat
                     /\ In (Pause Zymo24.empty_bin_msg) es
                else Zymo24.DROP_COUNT r' = (Zymo24.DROP_COUNT r + 1)%nat
                     /\ ~ In (Pause Zymo24.empty_bin_msg) es)
        | _ => False
        end).
Proof.
  split.
  - intros [w t1 t2 d v]. unfold Zymo48.tiptrack, bind, get, index_check.
    cbn [Zymo48.tip1k Zymo48.drop_count Zymo48.whichwash Zymo48.tip200
         Zymo48.waste_vol].
    destruct (Nat.ltb_spec t1 Zymo48.n_tips) as [Ht|Ht];
      [|split; [reflexivity|exact Ht]].
    destruct (Nat.leb_spec 150 (d + 8)) as [Hd|Hd]; cbn.
    + split; [lia|]. split; [reflexivity|]. right. now left.
    + split; [lia|]. split; [reflexivity|].
      intros [H|[]]. discriminate H.
  - intros [w t1 t2 d v]. unfold Zymo24.drop_tips, bind, get, emit, put.
    cbn [Zymo24.DROP_COUNT Zymo24.WASH_COUNT Zymo24.TIP1000 Zymo24.TIP200
         Zymo24.WASTE_VOL].
    destruct (Nat.leb_spec 18 (d + 1)) as [Hd|Hd]; cbn.
    + split; [lia|]. split; [reflexivity|]. right. now left.
    + split; [lia|]. split; [reflexivity|].
      intros [H|[]]. discriminate H.
Qed.

(** Seven sample columns: the binding loop runs out of binding-buffer
    wells at the seventh, before any wait. *)
Example zymo48_seven_columns :
  Zymo48.run false true 56 Zymo48.initial_globals
  = ([PickUpTip 0; DropTip; PickUpTip 8; DropTip; PickUpTip 16; DropTip;
      PickUpTip 24; DropTip; PickUpTip 32; DropTip; PickUpTip 40; DropTip;
      PickUpTip 48], Raise IndexError).
Proof. vm_compute. reflexivity. Qed.

(** C9. No run of the 48-sample script pauses with "Please empty liquid
    waste before resuming.": [remove_supernatant] defines [_waste_track]
    without calling it, and since the global [waste_vol] is never bound, a
    call would raise [NameError] before it could pause. *)
Theorem liquid_waste_pause_never_occurs :
  (forall dry_run heater_shaker num_samples,
     ~ In (Pause Zymo48.empty_liquid_msg)
          (Zymo48.trace dry_run heater_shaker num_samples))
  /\ Zymo48.waste_vol Zymo48.initial_globals = None
  /\ (forall vol whichwash tip1k tip200 drop_count,
        Zymo48._waste_track vol
          (Zymo48.mk_globals whichwash tip1k tip200 drop_count None)
        = ([], Raise NameError)).
Proof.
  split; [|split].
  - intros. apply no_pause_sound, zymo48_pause_check.
  - reflexivity.
  - reflexivity.
Qed.

End FlexSpec.

(** ** Zymo_Magbead_DNA_Kit_24samples_20250828.py: tip columns *)

Module Zymo24Spec.
Import Py Flex Zymo24.

Fixpoint fates_eqb (a b : list bool) : bool :=
  match a, b with
  | [], [] => true
  | x :: a', y :: b' => Bool.eqb x y && fates_eqb a' b'
  | _, _ => false
  end.

(** The facts of claim C10 as one decidable check on a run. *)
Definition reserved_only (sample_count : nat) (dry_run : bool) : bool :=
  let n := num_sample_columns sample_count in
  let es := trace sample_count dry_run in
  match final_runtime sample_count dry_run with
  | Some r => (TIP1000 r =? 1 + 2 * n)%nat
  | None => false
  end
  && forallb (fun t => (t <? 1 + 2 * n)%nat) (picked_tips es)
  && forallb (fun t => existsb (Nat.eqb t) (picked_tips es))
             (seq 0 (1 + 2 * n))
  && (List.length (remaining_tips sample_count) =? 36 - (1 + 2 * n))%nat
  && forallb (fun t => negb (existsb (Nat.eqb t)
                                     (remaining_tips sample_count)))
             (picked_tips es)
  && forallb (fun c =>
                if (c =? 0)%nat
                then fates_eqb (tip_fates c false es)
                       [false; false; false; false; false]
                else if (c <=? n)%nat
                     then fates_eqb (tip_fates c false es)
                            [false; false; false; false; false; true]
                     else fates_eqb (tip_fates c false es)
                            [false; true])
             (seq 0 (1 + 2 * n)).

Lemma reserved_only_all :
  forallb (fun sc => reserved_only sc true && reserved_only sc false)
          (seq 1 48) = true.
Proof. vm_compute. reflexivity. Qed.

Lemma fates_eqb_eq a b : fates_eqb a b = true -> a = b.
Proof.
  revert b. induction a as [|x a IH]; intros [|y b] H; simpl in H;
    try discriminate H; [reflexivity|].
  apply andb_true_iff in H as [H1 H2]. apply Bool.eqb_prop in H1.
  f_equal; auto.
Qed.

Lemma existsb_eqb_In t l : existsb (Nat.eqb t) l = true <-> In t l.
Proof.
  rewrite existsb_exists. split.
  - intros (x & Hin & E). apply Nat.eqb_eq in E. now subst.
  - intro H. exists t. split; [exact H|apply Nat.eqb_refl].
Qed.

(** C10. For every sample count from 1 to 48 the run ends normally and
    picks up tips from reserved columns only: the columns used are exactly
    the first [1 + 2 * ceil(sample_count / 8)] ones, none belongs to
    [remaining_tips], and [TIP1000] still holds the reserved count at the
    end, so [get_tips] has not run.  The reagent column is returned after
    each of its five uses; each supernatant column is returned after the
    binding mix, the binding supernatant and the first three washes and
    dropped in the final wash; each elution column is returned once and
    then dropped. *)
Theorem reserved_tip_columns_only sample_count dry_run :
  (1 <= sample_count <= 48)%nat ->
  let n := num_sample_columns sample_count in
  let es := trace sample_count dry_run in
  n = Z.to_nat (Qceiling (inject_Z (Z.of_nat sample_count) / 8))
  /\ (exists r, run sample_count dry_run (initial_runtime sample_count)
                = (es, Ok (tt, r))
                /\ TIP1000 r = (1 + 2 * n)%nat)
  /\ (forall t, In t (picked_tips es) <-> (t < 1 + 2 * n)%nat)
  /\ List.length (remaining_tips sample_count) = (36 - (1 + 2 * n))%nat
  /\ (forall t, In t (picked_tips es) ->
                ~ In t (remaining_tips sample_count))
  /\ tip_fates 0 false es = [false; false; false; false; false]
  /\ (forall c, (1 <= c <= n)%nat ->
                tip_fates c false es
                = [false; false; false; false; false; true])
  /\ (forall c, (n + 1 <= c <= 2 * n)%nat ->
                tip_fates c false es = [false; true]).
Proof.
  intros Hsc n es.
  assert (reserved_only sample_count dry_run = true) as H.
  { pose proof reserved_only_all as A. rewrite forallb_forall in A.
    assert (In sample_count (seq 1 48)) as Hin by (apply in_seq; lia).
    apply A in Hin. apply andb_true_iff in Hin as [H1 H2].
    destruct dry_run; assumption. }
  unfold reserved_only in H. fold n es in H.
  repeat (apply andb_true_iff in H as [H ?]).
  rename H0 into Hfates, H1 into Hrem, H2 into Hlen, H3 into Hall, H4 into Hlt.
  split; [reflexivity|]. split; [|split; [|split; [|split; [|split; [|split]]]]].
  - unfold final_runtime in H. subst es. unfold trace.
    destruct (run sample_count dry_run (initial_runtime sample_count))
      as [es' [[[] r]| |]]; try discriminate H.
    exists r. split; [reflexivity|]. now apply Nat.eqb_eq.
  - intro t. rewrite forallb_forall in Hlt, Hall. split.
    + intro Hin. apply Nat.ltb_lt. now apply Hlt.
    + intro Ht. apply existsb_eqb_In. apply Hall. apply in_seq. lia.
  - now apply Nat.eqb_eq.
  - intros t Hin Hr. rewrite forallb_forall in Hrem.
    apply Hrem in Hin. apply negb_true_iff in Hin.
    apply existsb_eqb_In in Hr. congruence.
  - rewrite forallb_forall in Hfates.
    apply fates_eqb_eq. apply (Hfates 0%nat). apply in_seq. lia.
  - intros c Hc. rewrite forallb_forall in Hfates.
    assert (In c (seq 0 (1 + 2 * n))) as Hin by (apply in_seq; lia).
    apply Hfates in Hin.
    destruct (Nat.eqb_spec c 0); [lia|].
    destruct (Nat.leb_spec c n); [|lia]. now apply fates_eqb_eq.
  - intros c Hc. rewrite forallb_forall in Hfates.
    assert (In c (seq 0 (1 + 2 * n))) as Hin by (apply in_seq; lia).
    apply Hfates in Hin.
    destruct (Nat.eqb_spec c 0); [lia|].
    destruct (Nat.leb_spec c n); [lia|]. now apply fates_eqb_eq.
Qed.

Lemma reserved_tip_columns_only_witness :
  tip_fates 0 false (trace 24 false) = [false; false; false; false; false]
  /\ tip_fates 2 false (trace 24 false)
     = [false; false; false; false; false; true]
  /\ tip_fates 5 false (trace 24 false) = [false; true].
Proof.
  destruct (reserved_tip_columns_only 24 false)
    as (_ & _ & _ & _ & _ & H0 & H1 & H2).
  - lia.
  - split; [exact H0|]. split.
    + apply H1. change (1 <= 2 <= 3)%nat. lia.
    + apply H2. change (3 + 1 <= 5 <= 2 * 3)%nat. lia.
Defined.

End Zymo24Spec.

(** * Further properties of the scripts *)

(** ** EquiMolar_pooling_v2.py: further properties *)

Module PoolingFacts.
Import Py PyFacts EquiMolarPooling PoolingCalls PoolingDeck.
Local Open Scope Q_scope.

Section Sorting.

Variable float : string -> option Q.

Lemma with_keys_raise good bad rest e :
  Forall (fun row => exists v, volume_of float row = Ok v) good ->
  volume_of float bad = Raise e ->
  with_keys float (good ++ bad :: rest) = Raise e.
Proof.
  intros Hg Hb. induction Hg as [|row good (v & Hv) _ IH]; simpl.
  - rewrite Hb. reflexivity.
  - rewrite Hv, IH. reflexivity.
Qed.

Lemma transfer_all_calls ks :
  EquiMolarPoolingSpec.keyed_ok float ks ->
  transfer_all float (map snd ks)
  = (flat_map calls_of (map EquiMolarPoolingSpec.transfer_of ks), Ok tt).
Proof.
  induction 1 as [|[v row] ks Hv _ IH]; [reflexivity|].
  simpl in Hv. cbn [map snd transfer_all]. unfold transfer_row.
  rewrite Hv, IH. reflexivity.
Qed.

Lemma transfers_calls ts : transfers (flat_map calls_of ts) = ts.
Proof.
  induction ts as [|[[s v] d] ts IH]; [reflexivity|].
  unfold transfers in *. simpl. rewrite IH. reflexivity.
Qed.

Lemma insert_desc_filter v x l :
  filter (key_is v) (insert_desc x l) = filter (key_is v) (x :: l).
Proof.
  induction l as [|y l IH]; [reflexivity|].
  cbn [insert_desc]. destruct (Qltb (fst x) (fst y)) eqn:E; [|reflexivity].
  apply Qltb_true in E. cbn [filter] in *. rewrite IH.
  destruct (key_is v x) eqn:Ex; [|reflexivity].
  destruct (key_is v y) eqn:Ey; [|reflexivity].
  unfold key_is in *. apply Qeq_bool_iff in Ex, Ey. lra.
Qed.

Lemma sort_desc_filter v l :
  filter (key_is v) (sort_desc l) = filter (key_is v) l.
Proof.
  induction l as [|x l IH]; [reflexivity|].
  cbn [sort_desc fold_right]. fold (sort_desc l).
  rewrite insert_desc_filter. cbn [filter]. rewrite IH. reflexivity.
Qed.

Lemma with_volume_map v l :
  with_volume v (map EquiMolarPoolingSpec.transfer_of l)
  = map EquiMolarPoolingSpec.transfer_of (filter (key_is v) l).
Proof.
  unfold with_volume. induction l as [|kr l IH]; [reflexivity|].
  cbn [map filter]. unfold EquiMolarPoolingSpec.transfer_of at 1.
  cbn [fst snd]. fold (key_is v kr). rewrite IH.
  destruct (key_is v kr); reflexivity.
Qed.

Lemma keyed_sorted ks :
  EquiMolarPoolingSpec.keyed_ok float ks ->
  EquiMolarPoolingSpec.keyed_ok float (sort_desc ks).
Proof.
  unfold EquiMolarPoolingSpec.keyed_ok. rewrite !Forall_forall.
  intros K kr Hin. apply K.
  apply (Permutation_in _ (EquiMolarPoolingSpec.sort_desc_perm ks) Hin).
Qed.

End Sorting.

Lemma carried_out_calls : forall ts tips,
  carried_out tips (flat_map calls_of ts)
  = (flat_map calls_of (firstn tips ts), (List.length ts <=? tips)%nat).
Proof.
  induction ts as [|[[s v] d] ts IH]; intros tips.
  - destruct tips; reflexivity.
  - destruct tips as [|tips]; [reflexivity|].
    cbn [flat_map calls_of app carried_out firstn List.length].
    rewrite IH. reflexivity.
Qed.

Lemma firstn_calls : forall ts n,
  firstn (4 * n) (flat_map calls_of ts) = flat_map calls_of (firstn n ts).
Proof.
  induction ts as [|[[s v] d] ts IH]; intros n.
  - now rewrite !firstn_nil.
  - destruct n as [|n]; [reflexivity|].
    replace (4 * S n)%nat with (S (S (S (S (4 * n))))) by lia.
    cbn [flat_map calls_of app firstn]. now rewrite IH.
Qed.

End PoolingFacts.

Module PoolingSpec.
Import Py PyFacts EquiMolarPooling PoolingCalls PoolingDeck PoolingFacts.
Local Open Scope Q_scope.

(** X1. A data row without a second column, or with one [float()] rejects,
    stops the run before any command is issued: the sort computes every key
    first.  The error is the one of the first such row in the file. *)
Theorem malformed_row_stops_run float csv_rows good bad rest e :
  tl csv_rows = good ++ bad :: rest ->
  Forall (fun row => exists v, volume_of float row = Ok v) good ->
  volume_of float bad = Raise e ->
  run float csv_rows = ([], Raise e).
Proof.
  intros E Hg Hb. unfold run. rewrite E.
  rewrite (with_keys_raise float good bad rest e Hg Hb). reflexivity.
Qed.

Lemma malformed_row_stops_run_witness :
  run decimal [["Well"; "Volume"]; ["A1"; "5"]; ["B1"; "x"]; ["C1"]]%string
  = ([], Raise ValueError).
Proof.
  apply (malformed_row_stops_run decimal _ [["A1"; "5"]]%string
           ["B1"; "x"]%string [["C1"]]%string).
  - reflexivity.
  - repeat constructor. eexists. reflexivity.
  - reflexivity.
Defined.

(** X2. The sort is stable: among the rows of one volume the transfers are
    issued in the order of the file. *)
Theorem ties_keep_file_order float csv_rows :
  Forall (fun row => exists v, volume_of float row = Ok v) (tl csv_rows) ->
  forall v,
    with_volume v (transfers (fst (run float csv_rows)))
    = with_volume v (flat_map (planned float) (tl csv_rows)).
Proof.
  intros H v.
  destruct (EquiMolarPoolingSpec.with_keys_ok float _ H) as (ks & E & M & K).
  unfold run. rewrite E.
  rewrite (transfer_all_calls float _ (keyed_sorted float ks K)).
  cbn [fst]. rewrite transfers_calls, <- M.
  rewrite (EquiMolarPoolingSpec.planned_keyed float ks K).
  rewrite !with_volume_map, sort_desc_filter. reflexivity.
Qed.

Lemma ties_keep_file_order_witness :
  map (fun t => fst (fst t))
      (with_volume 5 (transfers (fst (run decimal example_csv))))
  = [PlateWell "A1"; PlateWell "C1"].
Proof.
  rewrite (ties_keep_file_order decimal example_csv).
  - reflexivity.
  - repeat constructor; eexists; reflexivity.
Defined.

(** X3. One tip per transfer, from a rack of 96.  When every data row has
    a readable volume the script asks for as many transfers as there are
    data rows, in non-increasing order of volume.  With at most 96 rows the
    run carries them all out and ends normally.  With more it stops with
    [OutOfTipsError] when it asks for the 97th tip: exactly the first
    4 * 96 calls have been carried out, that is the 96 transfers of largest
    volume, complete, and nothing of the others. *)
Theorem tips_last_for_96_rows float csv_rows :
  Forall (fun row => exists v, volume_of float row = Ok v) (tl csv_rows) ->
  exists cmds,
    run float csv_rows = (cmds, Ok tt)
    /\ List.length (transfers cmds) = List.length (tl csv_rows)
    /\ StronglySorted (fun a b => snd (fst b) <= snd (fst a)) (transfers cmds)
    /\ if (List.length (tl csv_rows) <=? 96)%nat
       then run_on_deck float csv_rows = (cmds, Ok tt)
       else run_on_deck float csv_rows
            = (firstn (4 * 96) cmds, Raise OutOfTipsError)
            /\ transfers (firstn (4 * 96) cmds) = firstn 96 (transfers cmds).
Proof.
  intro H.
  destruct (EquiMolarPoolingSpec.with_keys_ok float _ H) as (ks & E & M & K).
  pose proof (transfer_all_calls float _ (keyed_sorted float ks K)) as C.
  set (ts := map EquiMolarPoolingSpec.transfer_of (sort_desc ks)) in *.
  assert (List.length ts = List.length (tl csv_rows)) as L.
  { subst ts. rewrite length_map, <- M, length_map.
    apply Permutation_length, EquiMolarPoolingSpec.sort_desc_perm. }
  exists (flat_map calls_of ts). unfold run_on_deck, run. rewrite E, C.
  split; [reflexivity|]. rewrite transfers_calls.
  split; [exact L|]. split.
  - apply EquiMolarPoolingSpec.transfers_sorted,
      EquiMolarPoolingSpec.sort_desc_sorted.
  - rewrite carried_out_calls, L. unfold tips_loaded.
    destruct (List.length (tl csv_rows) <=? 96)%nat eqn:B.
    + rewrite firstn_all2; [reflexivity|].
      apply Nat.leb_le in B. lia.
    + rewrite firstn_calls, transfers_calls. split; reflexivity.
Qed.

Lemma tips_last_for_96_rows_witness :
  snd (run_on_deck decimal many_rows_csv) = Raise OutOfTipsError
  /\ List.length (fst (run_on_deck decimal many_rows_csv)) = 384%nat.
Proof.
  destruct (tips_last_for_96_rows decimal many_rows_csv)
    as (cmds & E & _ & _ & R).
  - apply Forall_forall. intros row Hin. apply repeat_spec in Hin.
    subst row. eexists. reflexivity.
  - change (List.length (tl many_rows_csv) <=? 96)%nat with false in R.
    destruct R as [R _]. rewrite R. cbn [fst snd].
    split; [reflexivity|].
    vm_compute in E. injection E as <-. reflexivity.
Defined.

End PoolingSpec.

Module DilutionTipFacts.
Import Py PyFacts MultiPlateDilutions DilutionFacts DilutionTip.
Local Open Scope Q_scope.

(** [cmds], replayed on an empty tip that is attached or not as [a] says,
    are all accepted and leave an empty tip, attached or not as [a'] says. *)
Definition safe (a a' : bool) (cmds : list command) : Prop :=
  forall s, attached s = a -> held s == 0 ->
    exists s', tip_replay s cmds = Some s' /\ attached s' = a'
               /\ held s' == 0.

Lemma tip_replay_app a b s :
  tip_replay s (a ++ b)
  = match tip_replay s a with
    | Some s' => tip_replay s' b
    | None => None
    end.
Proof.
  revert s. induction a as [|c a IH]; intro s; [reflexivity|].
  simpl. destruct (tip_step s c); [apply IH|reflexivity].
Qed.

Lemma safe_nil a : safe a a [].
Proof. intros s Ha Hh. exists s. auto. Qed.

Lemma safe_app a1 a2 a3 x y :
  safe a1 a2 x -> safe a2 a3 y -> safe a1 a3 (x ++ y).
Proof.
  intros Hx Hy s Ha Hh. destruct (Hx s Ha Hh) as (s1 & E1 & A1 & H1).
  destruct (Hy s1 A1 H1) as (s2 & E2 & A2 & H2).
  exists s2. rewrite tip_replay_app, E1. auto.
Qed.

Lemma fits_true s vol :
  attached s = true -> 0 < vol -> held s + vol <= 20 -> fits s vol = true.
Proof.
  intros Ha Hv Hc. unfold fits, tip_capacity. rewrite Ha. simpl.
  apply andb_true_iff. split.
  - unfold Qltb. apply negb_true_iff. apply Qle_bool_false. exact Hv.
  - apply Qle_bool_iff. exact Hc.
Qed.

Lemma Qltb_pos v : 0 < v -> Qltb 0 v = true.
Proof. intro H. unfold Qltb. apply negb_true_iff, Qle_bool_false, H. Qed.

(** Aspirate [v], possibly an air gap [g], and dispense all of it. *)
Lemma safe_aspirate_gap_dispense v g p q rate :
  0 < v -> 0 < g -> v + g <= 20 ->
  safe true true [Aspirate v p; AirGap g; Dispense (v + g) q rate].
Proof.
  intros Hv Hg Hc s Ha Hh. cbn [tip_replay tip_step].
  rewrite fits_true by (auto; lra). cbn [tip_replay tip_step].
  rewrite fits_true by (cbn [attached held]; auto; lra).
  cbn [attached held andb]. rewrite Qltb_pos by lra. cbn [andb].
  assert (Qle_bool (v + g) (held s + v + g) = true) as ->
    by (apply Qle_bool_iff; lra).
  eexists. split; [reflexivity|]. split; [reflexivity|]. cbn [held]. lra.
Qed.

Lemma safe_aspirate_then_dispense v p q rate :
  0 < v -> v <= 20 -> safe true true [Aspirate v p; Dispense v q rate].
Proof.
  intros Hv Hc s Ha Hh. cbn [tip_replay tip_step].
  rewrite fits_true by (auto; lra).
  cbn [attached held andb]. rewrite Qltb_pos by lra. cbn [andb].
  assert (Qle_bool v (held s + v) = true) as -> by (apply Qle_bool_iff; lra).
  eexists. split; [reflexivity|]. split; [reflexivity|]. cbn [held]. lra.
Qed.

Lemma safe_aspirate_dispense v src dst rate :
  0 < v -> v <= 19 -> safe true true (aspirate_dispense v src dst rate).
Proof.
  intros Hv Hc. unfold aspirate_dispense. destruct (Qle_bool 0.5 v).
  - apply safe_aspirate_gap_dispense; lra.
  - apply safe_aspirate_then_dispense; lra.
Qed.

Lemma safe_mix reps v p : 0 < v -> v <= 20 -> safe true true [Mix reps v p].
Proof.
  intros Hv Hc s Ha Hh. cbn [tip_replay tip_step].
  rewrite fits_true by (auto; lra). exists s. auto.
Qed.

Lemma safe_mix_if (b : bool) reps v p :
  0 < v -> v <= 20 -> safe true true (if b then [Mix reps v p] else []).
Proof. intros. destruct b; [now apply safe_mix|apply safe_nil]. Qed.

Lemma safe_blow_out p : safe true true [BlowOut p].
Proof.
  intros s Ha Hh. cbn [tip_replay tip_step]. rewrite Ha. exists s. auto.
Qed.

Lemma safe_touch_tip l o sp : safe true true [TouchTip l o sp].
Proof.
  intros s Ha Hh. cbn [tip_replay tip_step]. rewrite Ha. exists s. auto.
Qed.

Lemma safe_blow_touch_blow l : safe true true (blow_touch_blow l).
Proof.
  unfold blow_touch_blow.
  apply (safe_app _ true _ [_] [_; _]); [apply safe_blow_out|].
  apply (safe_app _ true _ [_] [_]); [apply safe_touch_tip|apply safe_blow_out].
Qed.

Lemma safe_pick_up : safe false true [PickUpTip].
Proof.
  intros s Ha Hh. cbn [tip_replay tip_step]. rewrite Ha.
  eexists. split; [reflexivity|]. split; [reflexivity|]. reflexivity.
Qed.

Lemma safe_drop : safe true false [DropTip].
Proof.
  intros s Ha Hh. cbn [tip_replay tip_step]. rewrite Ha. cbn [andb].
  assert (Qle_bool (held s) 0 = true) as -> by (apply Qle_bool_iff; lra).
  eexists. split; [reflexivity|]. split; reflexivity.
Qed.

Lemma safe_cons a1 a2 a3 c rest :
  safe a1 a2 [c] -> safe a2 a3 rest -> safe a1 a3 (c :: rest).
Proof. apply (safe_app a1 a2 a3 [c] rest). Qed.

Lemma safe_flat_map {A} (f : A -> list command) l :
  (forall x, In x l -> safe true true (f x)) -> safe true true (flat_map f l).
Proof.
  induction l as [|x l IH]; intro H; simpl; [apply safe_nil|].
  apply (safe_app _ true).
  - apply H. now left.
  - apply IH. intros. apply H. now right.
Qed.

Lemma safe_emit_steps n emit w steps :
  (forall t r i, 0 < t -> t <= 19 -> safe true true (emit t r i)) ->
  steps_ok n w steps -> safe true true (emit_steps emit steps).
Proof.
  intros He [HF _]. unfold emit_steps. apply safe_flat_map.
  intros [[t r] i] Hin. rewrite Forall_forall in HF.
  destruct (HF _ Hin) as (A & B & _). now apply He.
Qed.

Lemma safe_sample_transfer v split single :
  0 < v ->
  (forall i n t, 0 < t -> t <= 19 -> safe true true (split i n t)) ->
  (v <= 19 -> safe true true single) ->
  safe true true (sample_transfer v split single).
Proof.
  intros Hv H1 H2. pose proof (sample_amounts_ok v Hv) as [HF _].
  unfold sample_transfer. unfold sample_amounts in HF.
  destruct (Qltb 19 v) eqn:E.
  - apply safe_flat_map. intros i Hi. rewrite Forall_forall in HF.
    apply H1; apply HF; apply in_map; exact Hi.
  - apply H2. now apply Qltb_false.
Qed.

Lemma mix_before_bounds nsp ndp row :
  row_ok nsp ndp row -> 0 < mix_before_volume row /\ mix_before_volume row <= 20.
Proof.
  intros (_ & _ & _ & _ & Hi). unfold mix_before_volume.
  destruct (min2_cases (initial_sample_volume row * 0.8) 20)
    as [[-> H]|[-> H]]; lra.
Qed.

Lemma mix_after_bounds nsp ndp row :
  row_ok nsp ndp row -> 0 < mix_after_volume row /\ mix_after_volume row <= 20.
Proof.
  intros (_ & _ & Hs & Hw & _). unfold mix_after_volume, final_volume.
  destruct (min2_cases ((sample_volume row + water_volume row) * 0.8) 20)
    as [[-> H]|[-> H]]; lra.
Qed.

Ltac safe_steps :=
  repeat first
    [ apply safe_nil
    | apply safe_blow_touch_blow
    | apply safe_aspirate_dispense
    | apply safe_mix_if
    | apply safe_mix
    | apply safe_blow_out
    | apply safe_touch_tip
    | apply safe_aspirate_gap_dispense
    | apply safe_aspirate_then_dispense
    | apply (safe_app true true true)
    | apply (safe_cons true true true) ].

Lemma safe_emit_reservoir tube t r i :
  0 < t -> t <= 19 -> safe true true (emit_reservoir_water tube t r i).
Proof.
  intros. unfold emit_reservoir_water. safe_steps; assumption.
Qed.

Lemma safe_emit_plate dest t r i :
  0 < t -> t <= 19 -> safe true true (emit_plate_water dest t r i).
Proof.
  intros. unfold emit_plate_water. safe_steps; assumption.
Qed.

Lemma safe_remix reps m p p1 p2 rate :
  0 < m -> m <= 20 ->
  safe true true [Mix reps m p; Aspirate m p1; Dispense m p2 rate].
Proof.
  intros. apply (safe_cons true true true); [now apply safe_mix|].
  now apply safe_aspirate_then_dispense.
Qed.

Lemma safe_emit_after nsp ndp row t r i :
  row_ok nsp ndp row -> 0 < t -> t <= 19 ->
  safe true true (emit_water_after row t r i).
Proof.
  intros Hr Ht Hc. destruct (mix_after_bounds _ _ _ Hr).
  unfold emit_water_after. cbv zeta.
  apply (safe_app true true true); [now apply safe_aspirate_dispense|].
  apply (safe_app true true true); [|apply safe_blow_touch_blow].
  destruct (Qle_bool (r - t) 0); [now apply safe_remix|apply safe_nil].
Qed.

Lemma safe_large_row nsp ndp tube row :
  row_ok nsp ndp row -> safe false false (large_dilution_row tube row).
Proof.
  intros Hr. pose proof Hr as (_ & _ & Hs & _).
  destruct (mix_before_bounds _ _ _ Hr). destruct (mix_after_bounds _ _ _ Hr).
  unfold large_dilution_row. cbv zeta.
  apply (safe_app false true false); [apply safe_pick_up|].
  apply (safe_app true true false).
  - apply safe_sample_transfer; [exact Hs| |].
    + intros i n t Ht Hc. safe_steps; assumption.
    + intro Hc. safe_steps; assumption.
  - apply (safe_app true true false
             [Aspirate _ _; AirGap _; Dispense _ _ _]);
      [apply safe_aspirate_gap_dispense; lra|].
    apply (safe_cons true true false); [apply safe_blow_out|].
    apply (safe_app true true false
             [Aspirate _ _; AirGap _; Dispense _ _ _]);
      [apply safe_aspirate_gap_dispense; lra|].
    apply (safe_cons true true false); [apply safe_blow_out|].
    apply (safe_app true true false
             [Aspirate _ _; AirGap _; Dispense _ _ _]);
      [apply safe_aspirate_gap_dispense; lra|].
    apply (safe_cons true true false); [apply safe_blow_out|].
    apply safe_drop.
Qed.

Lemma safe_water_first_row nsp ndp row :
  row_ok nsp ndp row -> safe false false (water_first_sample_row row).
Proof.
  intros Hr. pose proof Hr as (_ & _ & Hs & _).
  destruct (mix_before_bounds _ _ _ Hr). destruct (mix_after_bounds _ _ _ Hr).
  unfold water_first_sample_row. cbv zeta.
  apply (safe_app false true false); [apply safe_pick_up|].
  apply (safe_app true true false); [|apply safe_drop].
  apply safe_sample_transfer; [exact Hs| |].
  - intros i n t Ht Hc. safe_steps; assumption.
  - intro Hc.
    apply (safe_app true true true); [now apply safe_mix|].
    apply (safe_app true true true); [now apply safe_aspirate_dispense|].
    apply (safe_app true true true); [now apply safe_remix|].
    apply safe_blow_touch_blow.
Qed.

Lemma safe_water_after_sample_row nsp ndp row :
  row_ok nsp ndp row -> safe false false (water_after_sample_row row).
Proof.
  intros Hr. pose proof Hr as (_ & _ & Hs & _).
  destruct (mix_before_bounds _ _ _ Hr).
  unfold water_after_sample_row. cbv zeta.
  apply (safe_app false true false); [apply safe_pick_up|].
  apply (safe_app true true false); [|apply safe_drop].
  apply safe_sample_transfer; [exact Hs| |].
  - intros i n t Ht Hc. safe_steps; assumption.
  - intro Hc. safe_steps; assumption.
Qed.

Lemma safe_blocks a s P : forall rows idx bs,
  (forall i r c, In r rows -> P i r c -> safe a a c) ->
  blocks_for s P idx rows bs -> safe a a (commands bs).
Proof.
  induction rows as [|r rows IH]; intros idx [|b bs] H; simpl; try tauto.
  - intros _. apply safe_nil.
  - intros (_ & _ & Hc & Hb). apply (safe_app a a a).
    + apply (H idx r); [now left|exact Hc].
    + apply (IH (S idx)); [|exact Hb]. intros i r' c Hin. apply H. now right.
Qed.

Lemma safe_wrap s rows bs :
  safe true true (commands bs) -> safe false false (commands (wrap s rows bs)).
Proof.
  intro H. unfold wrap. destruct rows as [|r rows]; [apply safe_nil|].
  unfold commands. cbn [flat_map blk_cmds]. rewrite flat_map_app.
  apply (safe_app false true false); [apply safe_pick_up|].
  apply (safe_app true true false); [exact H|]. simpl. apply safe_drop.
Qed.

Lemma safe_run float nsp ndp headers data wd bs :
  validated float nsp ndp data wd ->
  run float nsp ndp (headers :: data) = (bs, Ok tt) ->
  safe false false (commands bs).
Proof.
  intros V E.
  destruct (run_structure _ _ _ headers _ _ V)
    as (bA & bB & bC & bD & bE & bF & E' & BA & BB & BC & BD & BE & BF).
  rewrite E' in E. injection E as <-.
  destruct V as (_ & HV & _). apply validation_errors_nil in HV.
  destruct (flow_rows_ok _ _ _ HV) as (OL & OF & OA).
  rewrite !commands_app. repeat apply (safe_app false false false).
  - apply safe_wrap. eapply safe_blocks; [|exact BA].
    intros i r c _ (st & -> & Hs).
    eapply safe_emit_steps; [|exact Hs].
    intros. now apply safe_emit_reservoir.
  - apply safe_wrap. eapply safe_blocks; [|exact BB].
    intros i r c _ (st & -> & Hs).
    eapply safe_emit_steps; [|exact Hs].
    intros. now apply safe_emit_plate.
  - eapply safe_blocks; [|exact BC].
    intros i r c Hr ->. eapply safe_large_row. apply (OL r Hr).
  - eapply safe_blocks; [|exact BD].
    intros i r c Hr ->. eapply safe_water_first_row. apply (OF r Hr).
  - eapply safe_blocks; [|exact BE].
    intros i r c Hr ->. eapply safe_water_after_sample_row. apply (OA r Hr).
  - eapply safe_blocks; [|exact BF].
    intros i r c Hr (st & -> & Hs).
    apply (safe_app false true false); [apply safe_pick_up|].
    apply (safe_app true true false); [|apply safe_drop].
    eapply safe_emit_steps; [|exact Hs].
    intros. eapply safe_emit_after; [apply (OA r Hr)|assumption|assumption].
Qed.

End DilutionTipFacts.

Module DilutionTipSpec.
Import Py PyFacts MultiPlateDilutions DilutionFacts DilutionTip DilutionTipFacts.
Local Open Scope Q_scope.

(** X4. Tip discipline of a validated run.  Replayed on the pipette, every
    command of the trace is accepted: tips are picked up and dropped in
    alternation, every aspirate, air gap, dispense, mix, blow-out and touch
    is issued with a tip on; every volume is positive; what the tip holds
    (liquid and air gap) never exceeds 20 uL; no dispense asks for more than
    the tip holds; every tip is empty when it is dropped, and the run ends
    without a tip. *)
Theorem tip_never_overfilled float nsp ndp csv_rows well_data bs :
  validated float nsp ndp (tl csv_rows) well_data ->
  run float nsp ndp csv_rows = (bs, Ok tt) ->
  exists s, tip_replay (mk_tip false 0) (commands bs) = Some s
            /\ attached s = false /\ held s == 0.
Proof.
  intros V E. destruct csv_rows as [|headers data]; [discriminate E|].
  apply (safe_run _ _ _ _ _ _ _ V E); reflexivity.
Qed.

Lemma tip_never_overfilled_witness :
  exists s,
    tip_replay (mk_tip false 0)
      (commands (fst (run decimal 2 2 example_csv))) = Some s
    /\ attached s = false.
Proof.
  destruct (tip_never_overfilled decimal 2 2 example_csv example_well_data
              (fst (run decimal 2 2 example_csv))) as (s & E & A & _).
  - repeat split; vm_compute; try reflexivity; discriminate.
  - vm_compute. reflexivity.
  - exists s. split; [exact E|exact A].
Defined.

End DilutionTipSpec.

Module DilutionRackFacts.
Import Py PyFacts MultiPlateDilutions DilutionFacts DilutionRack.
Local Open Scope Q_scope.

Lemma names_in_range_ok : forall count first,
  (first + count <= 24)%nat ->
  exists names, names_in_range first count = Some names
                /\ names = firstn count (skipn first well_names_column_order).
Proof.
  unfold names_in_range.
  induction count as [|count IH]; intros first H.
  - exists []. split; reflexivity.
  - destruct (IH (S first)) as (names & E & ->); [lia|].
    cbn [seq fold_right]. rewrite E.
    assert (first < 24)%nat as Hf by lia.
    do 24 (destruct first as [|first];
           [eexists; split; reflexivity|]).
    lia.
Qed.

Lemma names_nodup : NoDup well_names_column_order.
Proof.
  apply (NoDup_count_occ' string_dec). intros x Hx.
  repeat (destruct Hx as [<-|Hx]; [vm_compute; reflexivity|]).
  destruct Hx.
Qed.

(** Blocks of a loop, with the position of their row. *)
Lemma blocks_for_position s P b : forall rows idx bs,
  blocks_for s P idx rows bs -> In b bs ->
  exists i r, (idx <= i < idx + List.length rows)%nat
              /\ blk_step b = s /\ P i r (blk_cmds b).
Proof.
  induction rows as [|r rows IH]; intros idx [|b' bs]; simpl; try tauto.
  intros (Hs & Hr & Hc & Hb) [<-|Hin].
  - exists idx, r. repeat split; auto; lia.
  - destruct (IH _ _ Hb Hin) as (i & r' & H1 & H2). exists i, r'.
    split; [lia|exact H2].
Qed.

Section Tubes.

(** Tube indices of the water tubes ([< nt]) and of the dilution tubes
    ([nt <= . < nt + l]). *)
Variables nt l : nat.

Definition water_use (cmds : list command) : Prop :=
  Forall (fun i => (i < nt)%nat) (flat_map aspirated_tube cmds)
  /\ Forall (fun i => (nt <= i < nt + l)%nat) (flat_map addressed_tube cmds).

Definition sample_use (cmds : list command) : Prop :=
  Forall (fun i => (nt <= i < nt + l)%nat) (flat_map aspirated_tube cmds)
  /\ Forall (fun i => (nt <= i < nt + l)%nat) (flat_map addressed_tube cmds).

Lemma water_use_app a b : water_use a -> water_use b -> water_use (a ++ b).
Proof.
  intros [A1 A2] [B1 B2]. unfold water_use. rewrite !flat_map_app.
  split; apply Forall_app; auto.
Qed.

Lemma sample_use_app a b : sample_use a -> sample_use b -> sample_use (a ++ b).
Proof.
  intros [A1 A2] [B1 B2]. unfold sample_use. rewrite !flat_map_app.
  split; apply Forall_app; auto.
Qed.

Lemma water_use_flat_map {A} (f : A -> list command) xs :
  (forall x, In x xs -> water_use (f x)) -> water_use (flat_map f xs).
Proof.
  induction xs as [|x xs IH]; intro H; simpl.
  - split; constructor.
  - apply water_use_app; [apply H; now left|].
    apply IH. intros; apply H; now right.
Qed.

Lemma sample_use_flat_map {A} (f : A -> list command) xs :
  (forall x, sample_use (f x)) -> sample_use (flat_map f xs).
Proof.
  intro H. induction xs as [|x xs IH]; simpl.
  - split; constructor.
  - apply sample_use_app; [apply H|apply IH].
Qed.

Ltac tube_cases :=
  repeat match goal with
         | |- context [if ?b then _ else _] => destruct b
         end;
  split; simpl; repeat constructor; auto; lia.

Lemma water_use_emit_reservoir k t r i :
  (i < nt)%nat -> (nt <= k < nt + l)%nat ->
  water_use (emit_reservoir_water (Tube k) t r i).
Proof.
  intros Hi Hk. unfold emit_reservoir_water, aspirate_dispense. tube_cases.
Qed.

Lemma water_use_emit_plate row t r i :
  (i < nt)%nat -> water_use (emit_plate_water (dest_well_of row) t r i).
Proof.
  intros Hi. unfold emit_plate_water, aspirate_dispense, blow_touch_blow,
    dest_well_of. tube_cases.
Qed.

Lemma water_use_emit_after row t r i :
  (i < nt)%nat -> water_use (emit_water_after row t r i).
Proof.
  intros Hi. unfold emit_water_after, aspirate_dispense, blow_touch_blow,
    dest_well_of. cbv zeta. tube_cases.
Qed.

Lemma water_use_steps (n : Z) emit w steps :
  nt = Z.to_nat n ->
  (forall t r i, (i < nt)%nat -> water_use (emit t r i)) ->
  steps_ok n w steps -> water_use (emit_steps emit steps).
Proof.
  intros Hn He [HF _]. unfold emit_steps. apply water_use_flat_map.
  intros [[t r] i] Hin. rewrite Forall_forall in HF.
  destruct (HF _ Hin) as (_ & _ & Hi). simpl in Hi. apply He. simpl. lia.
Qed.

Lemma sample_use_large_row k row :
  (nt <= k < nt + l)%nat -> sample_use (large_dilution_row (Tube k) row).
Proof.
  intro Hk. unfold large_dilution_row, sample_transfer, source_well_of,
    dest_well_of. cbv zeta.
  apply (sample_use_app [_]); [tube_cases|].
  apply sample_use_app; [|tube_cases].
  destruct (Qltb 19 (sample_volume row)).
  - apply sample_use_flat_map. intro i. unfold aspirate_dispense. tube_cases.
  - unfold aspirate_dispense. tube_cases.
Qed.

Lemma sample_use_water_first_row row :
  sample_use (water_first_sample_row row).
Proof.
  unfold water_first_sample_row, sample_transfer, source_well_of,
    dest_well_of, blow_touch_blow. cbv zeta.
  apply (sample_use_app [_]); [tube_cases|].
  apply sample_use_app; [|tube_cases].
  destruct (Qltb 19 (sample_volume row)).
  - apply sample_use_flat_map. intro i. unfold aspirate_dispense. tube_cases.
  - unfold aspirate_dispense. tube_cases.
Qed.

Lemma sample_use_water_after_row row :
  sample_use (water_after_sample_row row).
Proof.
  unfold water_after_sample_row, sample_transfer, source_well_of,
    dest_well_of, blow_touch_blow. cbv zeta.
  apply (sample_use_app [_]); [tube_cases|].
  apply sample_use_app; [|tube_cases].
  destruct (Qltb 19 (sample_volume row)).
  - apply sample_use_flat_map. intro i. unfold aspirate_dispense. tube_cases.
  - unfold aspirate_dispense. tube_cases.
Qed.

(** What a block may do with the tubes, by the step it belongs to. *)
Definition block_use (b : block) : Prop :=
  if is_water_step (blk_step b) then water_use (blk_cmds b)
  else sample_use (blk_cmds b).

Lemma uses_of_blocks bs :
  Forall block_use bs ->
  Forall (fun i => (i < nt)%nat) (water_sources bs)
  /\ Forall (fun i => (nt <= i < nt + l)%nat) (preparation_tubes bs).
Proof.
  unfold water_sources, preparation_tubes, block_use.
  induction 1 as [|b bs Hb _ [IH1 IH2]]; simpl; [split; constructor|].
  destruct (is_water_step (blk_step b)); destruct Hb as [H1 H2]; split.
  - apply Forall_app. split; assumption.
  - rewrite app_nil_r. apply Forall_app. split; assumption.
  - exact IH1.
  - rewrite <- app_assoc. apply Forall_app. split; [assumption|].
    apply Forall_app. split; assumption.
Qed.

Lemma wrap_use s rows bs :
  Forall block_use bs -> Forall block_use (wrap s rows bs).
Proof.
  intro H. unfold wrap. destruct rows; [constructor|].
  constructor.
  - unfold block_use. simpl. destruct (is_water_step s); split; constructor.
  - apply Forall_app. split; [exact H|]. constructor; [|constructor].
    unfold block_use. simpl. destruct (is_water_step s); split; constructor.
Qed.

End Tubes.

Lemma Forall_append {A} (P : A -> Prop) a b :
  Forall P a -> Forall P b -> Forall P (a ++ b).
Proof. intros. apply Forall_app. split; assumption. Qed.

Lemma tubes_of_run float nsp ndp headers data wd bs :
  validated float nsp ndp data wd ->
  run float nsp ndp (headers :: data) = (bs, Ok tt) ->
  Forall (block_use (Z.to_nat (num_water_tubes wd))
                    (List.length (wells_large_dilution wd))) bs.
Proof.
  intros V E.
  destruct (run_structure _ _ _ headers _ _ V)
    as (bA & bB & bC & bD & bE & bF & E' & BA & BB & BC & BD & BE & BF).
  rewrite E' in E. injection E as <-.
  set (nt := Z.to_nat (num_water_tubes wd)).
  set (l := List.length (wells_large_dilution wd)).
  repeat apply Forall_append.
  - apply wrap_use. apply Forall_forall. intros b Hb.
    destruct (blocks_for_position _ _ b _ _ _ BA Hb)
      as (i & r & Hi & Hs & steps & Hc & Hok).
    unfold block_use. rewrite Hs, Hc. simpl.
    eapply (water_use_steps nt l (num_water_tubes wd));
      [reflexivity| |exact Hok].
    intros. apply water_use_emit_reservoir; [assumption|].
    fold nt. fold l in Hi. lia.
  - apply wrap_use. apply Forall_forall. intros b Hb.
    destruct (blocks_for_position _ _ b _ _ _ BB Hb)
      as (i & r & Hi & Hs & steps & Hc & Hok).
    unfold block_use. rewrite Hs, Hc. simpl.
    eapply (water_use_steps nt l (num_water_tubes wd));
      [reflexivity| |exact Hok].
    intros. now apply water_use_emit_plate.
  - apply Forall_forall. intros b Hb.
    destruct (blocks_for_position _ _ b _ _ _ BC Hb) as (i & r & Hi & Hs & Hc).
    unfold block_use. rewrite Hs. simpl. unfold large_block in Hc. rewrite Hc.
    apply sample_use_large_row. fold nt. fold l in Hi. lia.
  - apply Forall_forall. intros b Hb.
    destruct (blocks_for_position _ _ b _ _ _ BD Hb) as (i & r & Hi & Hs & Hc).
    unfold block_use. rewrite Hs. simpl. unfold water_first_block in Hc.
    rewrite Hc. apply sample_use_water_first_row.
  - apply Forall_forall. intros b Hb.
    destruct (blocks_for_position _ _ b _ _ _ BE Hb) as (i & r & Hi & Hs & Hc).
    unfold block_use. rewrite Hs. simpl.
    unfold water_after_sample_block in Hc.
    rewrite Hc. apply sample_use_water_after_row.
  - apply Forall_forall. intros b Hb.
    destruct (blocks_for_position _ _ b _ _ _ BF Hb)
      as (i & r & Hi & Hs & steps & Hc & Hok).
    unfold block_use. rewrite Hs, Hc. simpl.
    apply (water_use_app _ _ [_]); [split; constructor|].
    apply water_use_app; [|split; constructor].
    eapply (water_use_steps nt l (num_water_tubes wd));
      [reflexivity| |exact Hok].
    intros. now apply water_use_emit_after.
Qed.

End DilutionRackFacts.

Module DilutionRackSpec.
Import Py PyFacts MultiPlateDilutions DilutionFacts DilutionRack
  DilutionRackFacts.
Local Open Scope Q_scope.

(** X5. The water tubes hold what the run needs and are never overfilled.
    For a validated file the volume to load into each water tube,
    [water_per_tube], is at least 1 uL and at most the 1500 uL capacity; the
    tubes together hold the total water and the 50 uL buffer; and
    [num_water_tubes] is the least number of 1500 uL tubes that can. *)
Theorem water_tubes_hold_the_water float nsp ndp data wd :
  validated float nsp ndp data wd ->
  1 <= water_per_tube wd /\ water_per_tube wd <= WATER_TUBE_CAPACITY
  /\ water_per_tube wd * inject_Z (num_water_tubes wd) == total_water wd + 50
  /\ inject_Z (num_water_tubes wd - 1) * WATER_TUBE_CAPACITY
     < total_water wd + 50.
Proof.
  intros (_ & HV & HT). apply validation_errors_nil in HV.
  pose proof (per_tube_ge nsp ndp wd HV) as G.
  pose proof (per_tube_total nsp ndp wd HV) as T.
  pose proof (num_water_tubes_pos nsp ndp wd HV) as P.
  unfold total_water_with_buffer in T.
  pose proof (Qle_ceiling (total_water_with_buffer wd / WATER_TUBE_CAPACITY))
    as Up.
  pose proof (Qceiling_lt (total_water_with_buffer wd / WATER_TUBE_CAPACITY))
    as Lo.
  fold (math_ceil (total_water_with_buffer wd / WATER_TUBE_CAPACITY)) in Up, Lo.
  fold (num_water_tubes wd) in Up, Lo.
  unfold total_water_with_buffer, WATER_TUBE_CAPACITY in *.
  assert ((total_water wd + 50) / 1500 == (total_water wd + 50) * (1 # 1500))
    as D by field.
  rewrite D in Up, Lo.
  assert (1 <= inject_Z (num_water_tubes wd)) as P'.
  { change 1 with (inject_Z 1). rewrite <- Zle_Qle. exact P. }
  split; [exact G|]. split; [|split; [exact T|lra]].
  destruct (Qlt_le_dec 1500 (water_per_tube wd)) as [L|L]; [|exact L].
  exfalso.
  assert (1500 * inject_Z (num_water_tubes wd)
          < water_per_tube wd * inject_Z (num_water_tubes wd)) as M.
  { apply Qmult_lt_compat_r; lra. }
  lra.
Qed.

Lemma water_tubes_hold_the_water_witness :
  water_per_tube example_well_data == 392.5
  /\ num_water_tubes example_well_data = 1%Z.
Proof.
  pose proof (water_tubes_hold_the_water decimal 3 2 (tl example_csv)
                example_well_data MultiPlateDilutionsSpec.example_validated)
    as (_ & _ & T & _).
  split; [|reflexivity].
  change (num_water_tubes example_well_data) with 1%Z in T.
  change (total_water example_well_data + 50) with (0 + 40.5 + 2 + (0 + 300) + 50) in T.
  change (inject_Z 1) with 1 in T. lra.
Defined.

(** X6. Water tubes and dilution tubes are different tubes of the rack.  In
    a validated run the water steps aspirate from the first
    [num_water_tubes] tubes only; every other use of a tube (the water and
    the sample dispensed into it, the mixing, the 50 uL taken out of it) is
    at one of the [len(wells_large_dilution)] tubes that follow; all of them
    lie in the 24-tube rack, where [well_names_column_order] gives each
    index a name of its own, so that the positions announced to the user
    ([water_tube_names], [dilution_tube_names]) exist and differ. *)
Theorem tubes_within_rack float nsp ndp headers data wd bs :
  validated float nsp ndp data wd ->
  run float nsp ndp (headers :: data) = (bs, Ok tt) ->
  let nt := Z.to_nat (num_water_tubes wd) in
  let l := List.length (wells_large_dilution wd) in
  (nt + l <= 24)%nat
  /\ Forall (fun i => (i < nt)%nat) (water_sources bs)
  /\ Forall (fun i => (nt <= i < nt + l)%nat) (preparation_tubes bs)
  /\ exists water_names dilution_names,
       water_tube_names wd = Some water_names
       /\ dilution_tube_names wd = Some dilution_names
       /\ List.length water_names = nt
       /\ List.length dilution_names = l
       /\ NoDup (water_names ++ dilution_names).
Proof.
  intros V E nt l.
  pose proof (tubes_of_run _ _ _ _ _ _ _ V E) as U.
  destruct (uses_of_blocks nt l bs U) as [U1 U2].
  destruct V as (_ & HV & HT). apply validation_errors_nil in HV.
  pose proof (num_water_tubes_pos nsp ndp wd HV) as P.
  assert (nt + l <= 24)%nat as Hl.
  { unfold total_tubes_needed, num_reservoir_tubes_needed in HT.
    subst nt l. lia. }
  split; [exact Hl|]. split; [exact U1|]. split; [exact U2|].
  destruct (names_in_range_ok nt 0) as (ws & Ew & Hw); [lia|].
  destruct (names_in_range_ok l nt) as (ds & Ed & Hd); [lia|].
  exists ws, ds. unfold water_tube_names, dilution_tube_names.
  fold nt. fold l. split; [exact Ew|]. split; [exact Ed|].
  assert (List.length well_names_column_order = 24%nat) as L24 by reflexivity.
  subst ws ds. cbn [skipn].
  split; [rewrite length_firstn; lia|].
  split; [rewrite length_firstn, length_skipn; lia|].
  pose proof names_nodup as ND.
  rewrite <- (firstn_skipn nt well_names_column_order) in ND at 1.
  rewrite <- (firstn_skipn l (skipn nt well_names_column_order)) in ND.
  rewrite app_assoc in ND. apply NoDup_app_remove_r in ND. exact ND.
Qed.

Lemma tubes_within_rack_witness :
  water_tube_names example_well_data = Some ["A1"]%string
  /\ dilution_tube_names example_well_data = Some ["B1"]%string
  /\ water_sources (fst (run decimal 3 2 example_csv)) <> [].
Proof.
  pose proof (tubes_within_rack decimal 3 2 (hd [] example_csv)
                (tl example_csv) example_well_data
                (fst (run decimal 3 2 example_csv))
                MultiPlateDilutionsSpec.example_validated) as H.
  split; [reflexivity|]. split; [reflexivity|].
  destruct H as (_ & H & _); [vm_compute; reflexivity|].
  intro E. vm_compute in E. discriminate E.
Defined.

End DilutionRackSpec.

Module DilutionDrawFacts.
Import Py PyFacts MultiPlateDilutions DilutionFacts DilutionDraw.
Local Open Scope Q_scope.

Lemma drawn_app j a b : drawn j (a ++ b) == drawn j a + drawn j b.
Proof. unfold drawn. rewrite MultiPlateDilutionsSpec.tube_transfers_app. apply Qsum_app. Qed.

Lemma drawn_nil j : drawn j [] == 0.
Proof. reflexivity. Qed.

(** What one transfer of a water loop takes out of the tubes. *)
Definition draws_from_tube (emit : Q -> Q -> nat -> list command) : Prop :=
  forall t r i j, tube_transfers j (emit t r i)
                  = if (i =? j)%nat then [t] else [].

Lemma draws_emit_reservoir tube : draws_from_tube (emit_reservoir_water tube).
Proof.
  intros t r i j. unfold emit_reservoir_water, aspirate_dispense,
    tube_transfers.
  destruct (Qle_bool 0.5 t); simpl; destruct (i =? j)%nat; reflexivity.
Qed.

Lemma draws_emit_plate row : draws_from_tube (emit_plate_water (dest_well_of row)).
Proof.
  intros t r i j. unfold emit_plate_water, aspirate_dispense, blow_touch_blow,
    tube_transfers, dest_well_of.
  destruct (Qle_bool 0.5 t); simpl; destruct (i =? j)%nat; reflexivity.
Qed.

Lemma draws_emit_after row : draws_from_tube (emit_water_after row).
Proof.
  intros t r i j. unfold emit_water_after, aspirate_dispense, blow_touch_blow,
    tube_transfers, dest_well_of. cbv zeta.
  destruct (Qle_bool 0.5 t); destruct (Qle_bool (r - t) 0); simpl;
    destruct (i =? j)%nat; reflexivity.
Qed.

Lemma drawn_emit emit t r i j :
  draws_from_tube emit ->
  drawn j (emit t r i) == if (i =? j)%nat then t else 0.
Proof.
  intro H. unfold drawn. rewrite H. destruct (i =? j)%nat; simpl; lra.
Qed.

Section Loop.

Variable n_tubes : Z.
Variable per_tube : Q.
Hypothesis per_tube_nonneg : 0 <= per_tube.
Variable emit : Q -> Q -> nat -> list command.
Hypothesis emit_draws : draws_from_tube emit.

(** What the bookkeeping still allows to be taken from tube [j]: nothing
    from a tube left behind, the remainder of the current one, a full tube
    from each of the following ones. *)
Definition allowance (st : tube_state) (j : nat) : Q :=
  if (j <? current_water_tube_index st)%nat then 0
  else if (j =? current_water_tube_index st)%nat
       then water_remaining_in_current_tube st
       else per_tube.

Lemma allowance_nonneg st j :
  0 <= water_remaining_in_current_tube st -> 0 <= allowance st j.
Proof.
  intro H. unfold allowance.
  destruct (j <? current_water_tube_index st)%nat; [lra|].
  destruct (j =? current_water_tube_index st)%nat; assumption.
Qed.

Lemma water_loop_drawn : forall fuel w st cmds st',
  0 <= water_remaining_in_current_tube st ->
  water_loop n_tubes per_tube emit fuel w st = (cmds, Ok st') ->
  0 <= water_remaining_in_current_tube st'
  /\ forall j, drawn j cmds + allowance st' j <= allowance st j.
Proof.
  induction fuel as [|fuel IH]; intros w st cmds st' Hr; cbn [water_loop];
    destruct (Qltb 0 w) eqn:Ew; try discriminate;
    try (intro H; injection H as <- <-; split; [exact Hr|];
         intro j; rewrite drawn_nil; lra).
  destruct st as [index rem].
  cbn [current_water_tube_index water_remaining_in_current_tube] in *.
  set (index' := if Qltb rem 1 then S index else index).
  set (rem' := if Qltb rem 1 then per_tube else rem).
  destruct (Qltb rem 1 && (n_tubes <=? Z.of_nat index')%Z); [discriminate|].
  destruct (min3_cases w rem' 19) as (M1 & M2 & M3 & M4).
  set (t := min3 w rem' 19) in *.
  destruct (water_loop n_tubes per_tube emit fuel (w - t)
              (mk_tube_state index' (rem' - t))) as [rest o] eqn:ER.
  intro H. injection H as <- ->.
  assert (0 <= rem') as Hr'.
  { subst rem'. destruct (Qltb rem 1); assumption. }
  assert (0 <= water_remaining_in_current_tube
                 (mk_tube_state index' (rem' - t))) as Hr1
    by (cbn [water_remaining_in_current_tube]; lra).
  destruct (IH _ _ _ _ Hr1 ER) as [R' D'].
  split; [exact R'|]. intro j. specialize (D' j).
  rewrite drawn_app, (drawn_emit emit t w index' j emit_draws).
  unfold allowance in D' |- *.
  cbn [current_water_tube_index water_remaining_in_current_tube] in *.
  subst index' rem'. destruct (Qltb rem 1) eqn:S1.
  - destruct (Nat.eqb_spec (S index) j) as [<-|Hne].
    + rewrite Nat.ltb_irrefl, Nat.eqb_refl in D'.
      destruct (Nat.ltb_spec (S index) index); [lia|].
      destruct (Nat.eqb_spec (S index) index); [lia|]. lra.
    + destruct (Nat.ltb_spec j (S index)) as [L|L].
      * destruct (Nat.ltb_spec j index); [lra|].
        destruct (Nat.eqb_spec j index); [lra|lia].
      * destruct (Nat.eqb_spec j (S index)); [lia|].
        destruct (Nat.ltb_spec j index); [lia|].
        destruct (Nat.eqb_spec j index); [lia|lra].
  - destruct (Nat.eqb_spec index j) as [<-|Hne].
    + rewrite Nat.ltb_irrefl, Nat.eqb_refl in *. lra.
    + destruct (Nat.ltb_spec j index); [lra|].
      destruct (Nat.eqb_spec j index); [lia|lra].
Qed.

(** A loop that finds all it needs in the current tube stays there. *)
Lemma water_loop_stays : forall fuel w st cmds st',
  0 <= w -> w + 1 <= water_remaining_in_current_tube st ->
  water_loop n_tubes per_tube emit fuel w st = (cmds, Ok st') ->
  current_water_tube_index st' = current_water_tube_index st
  /\ water_remaining_in_current_tube st'
     == water_remaining_in_current_tube st - w
  /\ forall j, drawn j cmds
               == if (current_water_tube_index st =? j)%nat then w else 0.
Proof.
  induction fuel as [|fuel IH]; intros w st cmds st' Hw Hr; cbn [water_loop];
    destruct (Qltb 0 w) eqn:Ew; try discriminate;
    try (apply Qltb_false in Ew; intro H; injection H as <- <-;
         split; [reflexivity|]; split; [lra|];
         intro j; rewrite drawn_nil;
         destruct (current_water_tube_index st =? j)%nat; lra).
  apply Qltb_true in Ew.
  destruct st as [index rem].
  cbn [current_water_tube_index water_remaining_in_current_tube] in *.
  assert (Qltb rem 1 = false) as -> by (apply Qltb_false; lra).
  cbn [andb].
  destruct (min3_cases w rem 19) as (M1 & M2 & M3 & M4).
  set (t := min3 w rem 19) in *.
  destruct (water_loop n_tubes per_tube emit fuel (w - t)
              (mk_tube_state index (rem - t))) as [rest o] eqn:ER.
  intro H. injection H as <- ->.
  assert (0 <= w - t) as Hw1 by lra.
  assert (w - t + 1 <= water_remaining_in_current_tube
                         (mk_tube_state index (rem - t))) as Hr1
    by (cbn [water_remaining_in_current_tube]; lra).
  destruct (IH _ _ _ _ Hw1 Hr1 ER) as (I' & R' & D').
  cbn [current_water_tube_index water_remaining_in_current_tube] in *.
  split; [exact I'|]. split; [lra|]. intro j. specialize (D' j).
  rewrite drawn_app, (drawn_emit emit t w index j emit_draws), D'.
  destruct (index =? j)%nat; lra.
Qed.

End Loop.

Lemma commands_cons b bs : commands (b :: bs) = blk_cmds b ++ commands bs.
Proof. reflexivity. Qed.

(** A pass over rows whose body keeps within the allowances. *)
Lemma for_rows_drawn per_tube s
    (body : nat -> well_entry -> tube_state
            -> list command * outcome error tube_state) :
  (forall idx row st cmds st',
     0 <= water_remaining_in_current_tube st ->
     body idx row st = (cmds, Ok st') ->
     0 <= water_remaining_in_current_tube st'
     /\ forall j, drawn j cmds + allowance per_tube st' j
                  <= allowance per_tube st j) ->
  forall rows idx st bs st',
    0 <= water_remaining_in_current_tube st ->
    for_rows s body idx rows st = (bs, Ok st') ->
    0 <= water_remaining_in_current_tube st'
    /\ forall j, drawn j (commands bs) + allowance per_tube st' j
                 <= allowance per_tube st j.
Proof.
  intro Hbody. induction rows as [|r rows IH]; intros idx st bs st' Hr;
    cbn [for_rows].
  - intro H. injection H as <- <-. split; [exact Hr|].
    intro j. change (commands []) with (@nil command). rewrite drawn_nil. lra.
  - destruct (body idx r st) as [cmds o] eqn:EB.
    destruct o as [st1| |]; try discriminate.
    destruct (for_rows s body (S idx) rows st1) as [bs1 o1] eqn:EF.
    intro H. injection H as <- ->.
    destruct (Hbody _ _ _ _ _ Hr EB) as [R1 D1].
    destruct (IH _ _ _ _ R1 EF) as [R2 D2].
    split; [exact R2|]. intro j. specialize (D1 j). specialize (D2 j).
    rewrite commands_cons, drawn_app. cbn [blk_cmds]. lra.
Qed.

(** A pass over rows that finds all it needs in the current tube. *)
Lemma for_rows_stays s
    (body : nat -> well_entry -> tube_state
            -> list command * outcome error tube_state) :
  (forall idx row st cmds st',
     0 <= water_volume row ->
     water_volume row + 1 <= water_remaining_in_current_tube st ->
     body idx row st = (cmds, Ok st') ->
     current_water_tube_index st' = current_water_tube_index st
     /\ water_remaining_in_current_tube st'
        == water_remaining_in_current_tube st - water_volume row
     /\ forall j, drawn j cmds
                  == if (current_water_tube_index st =? j)%nat
                     then water_volume row else 0) ->
  forall rows idx st bs st',
    Forall (fun r => 0 <= water_volume r) rows ->
    sum_by water_volume rows + 1 <= water_remaining_in_current_tube st ->
    for_rows s body idx rows st = (bs, Ok st') ->
    forall j, drawn j (commands bs)
              == if (current_water_tube_index st =? j)%nat
                 then sum_by water_volume rows else 0.
Proof.
  intro Hbody. induction rows as [|r rows IH]; intros idx st bs st' HF Hr;
    cbn [for_rows].
  - intro H. injection H as <- <-. intro j.
    change (commands []) with (@nil command). rewrite drawn_nil.
    destruct (current_water_tube_index st =? j)%nat; [|reflexivity].
    symmetry. apply sum_by_nil.
  - destruct (body idx r st) as [cmds o] eqn:EB.
    destruct o as [st1| |]; try discriminate.
    destruct (for_rows s body (S idx) rows st1) as [bs1 o1] eqn:EF.
    intro H. injection H as <- ->.
    inversion HF as [|x l Hx Hl]; subst.
    pose proof (sum_by_nonneg water_volume rows Hl) as Hs.
    rewrite sum_by_cons in Hr.
    assert (water_volume r + 1 <= water_remaining_in_current_tube st)
      as Hr0 by lra.
    destruct (Hbody _ _ _ _ _ Hx Hr0 EB) as (I1 & R1 & D1).
    intro j. specialize (D1 j).
    assert (sum_by water_volume rows + 1
            <= water_remaining_in_current_tube st1) as Hr1 by lra.
    pose proof (IH _ _ _ _ Hl Hr1 EF j) as D2.
    rewrite commands_cons, drawn_app. cbn [blk_cmds].
    rewrite D1, D2, I1.
    destruct (current_water_tube_index st =? j)%nat;
      [rewrite sum_by_cons|]; lra.
Qed.

Section Steps.

Variable wd : list well_entry.
Hypothesis per_tube_nonneg : 0 <= water_per_tube wd.

Local Notation "'NT'" := (num_water_tubes wd).
Local Notation "'WPT'" := (water_per_tube wd).

Lemma first_allowance j : allowance WPT (mk_tube_state 0 WPT) j == WPT.
Proof.
  unfold allowance. simpl. destruct (j =? 0)%nat; reflexivity.
Qed.

(** The body of STEP 6 around its water loop. *)
Definition tipped emit (idx : nat) (row : well_entry) (st : tube_state)
  : list command * outcome error tube_state :=
  let '(cmds, o) :=
    water_loop NT WPT (emit row) (loop_fuel (water_volume row))
               (water_volume row) st in
  match o with
  | Ok st' => ([PickUpTip] ++ cmds ++ [DropTip], Ok st')
  | _ => ([PickUpTip] ++ cmds, o)
  end.

Lemma drawn_tipped j cmds :
  drawn j (PickUpTip :: cmds ++ [DropTip]) == drawn j cmds.
Proof.
  change (PickUpTip :: cmds ++ [DropTip])
    with ([PickUpTip] ++ cmds ++ [DropTip]).
  rewrite !drawn_app. change (drawn j [PickUpTip]) with 0.
  change (drawn j [DropTip]) with 0. lra.
Qed.

Lemma drawn_wrapped j s bs :
  drawn j (commands (mk_block s None [PickUpTip] :: bs
                     ++ [mk_block s None [DropTip]]))
  == drawn j (commands bs).
Proof.
  rewrite commands_cons, commands_app, !drawn_app. cbn [blk_cmds].
  change (drawn j [PickUpTip]) with 0.
  change (drawn j (commands [mk_block s None [DropTip]])) with 0. lra.
Qed.

Lemma step_reservoir_water_drawn bs j :
  step_reservoir_water wd = (bs, Ok tt) -> drawn j (commands bs) <= WPT.
Proof.
  unfold step_reservoir_water.
  destruct (wells_large_dilution wd) as [|r0 rows0].
  - intro H. injection H as <-. exact per_tube_nonneg.
  - unfold bind, issue.
    match goal with |- context [for_rows ?s ?body ?i ?rows ?st] =>
      destruct (for_rows s body i rows st) as [bs1 o] eqn:EF;
      pose proof (for_rows_drawn WPT s body) as FD end.
    destruct o as [st'| |]; try discriminate.
    intro H. injection H as <-.
    destruct (FD ltac:(intros idx row st cmds st1 Hr E;
                       exact (water_loop_drawn NT WPT per_tube_nonneg _
                                (draws_emit_reservoir _) _ _ _ _ _ Hr E))
                 _ _ (mk_tube_state 0 WPT) _ _ per_tube_nonneg EF) as [R D].
    specialize (D j). rewrite first_allowance in D.
    pose proof (allowance_nonneg WPT per_tube_nonneg st' j R).
    change ([mk_block ReservoirWater None [PickUpTip]]
            ++ bs1 ++ [mk_block ReservoirWater None [DropTip]])
      with (mk_block ReservoirWater None [PickUpTip]
            :: bs1 ++ [mk_block ReservoirWater None [DropTip]]).
    rewrite drawn_wrapped. lra.
Qed.

Lemma step_plate_water_drawn bs j :
  step_plate_water wd = (bs, Ok tt) -> drawn j (commands bs) <= WPT.
Proof.
  unfold step_plate_water.
  destruct (wells_water_first wd) as [|r0 rows0].
  - intro H. injection H as <-. exact per_tube_nonneg.
  - unfold bind, issue.
    match goal with |- context [for_rows ?s ?body ?i ?rows ?st] =>
      destruct (for_rows s body i rows st) as [bs1 o] eqn:EF;
      pose proof (for_rows_drawn WPT s body) as FD end.
    destruct o as [st'| |]; try discriminate.
    intro H. injection H as <-.
    destruct (FD ltac:(intros idx row st cmds st1 Hr E;
                       exact (water_loop_drawn NT WPT per_tube_nonneg _
                                (draws_emit_plate _) _ _ _ _ _ Hr E))
                 _ _ (mk_tube_state 0 WPT) _ _ per_tube_nonneg EF) as [R D].
    specialize (D j). rewrite first_allowance in D.
    pose proof (allowance_nonneg WPT per_tube_nonneg st' j R).
    change ([mk_block PlateWater None [PickUpTip]]
            ++ bs1 ++ [mk_block PlateWater None [DropTip]])
      with (mk_block PlateWater None [PickUpTip]
            :: bs1 ++ [mk_block PlateWater None [DropTip]]).
    rewrite drawn_wrapped. lra.
Qed.

Lemma tipped_drawn idx row st cmds st1 :
  0 <= water_remaining_in_current_tube st ->
  tipped emit_water_after idx row st = (cmds, Ok st1) ->
  0 <= water_remaining_in_current_tube st1
  /\ forall j, drawn j cmds + allowance WPT st1 j <= allowance WPT st j.
Proof.
  intros Hr. unfold tipped.
  destruct (water_loop NT WPT (emit_water_after row)
              (loop_fuel (water_volume row)) (water_volume row) st)
    as [c o] eqn:E.
  destruct o as [st2| |]; try discriminate.
  intro H. injection H as <- <-.
  destruct (water_loop_drawn NT WPT per_tube_nonneg _
              (draws_emit_after row) _ _ _ _ _ Hr E) as [R D].
  split; [exact R|]. intro j. cbn [app]. rewrite drawn_tipped. apply D.
Qed.

Lemma step_water_after_water_drawn bs j :
  step_water_after_water wd = (bs, Ok tt) -> drawn j (commands bs) <= WPT.
Proof.
  unfold step_water_after_water, bind, ret.
  fold (tipped emit_water_after).
  destruct (for_rows WaterAfterWater (tipped emit_water_after) 0
              (wells_water_after wd) (mk_tube_state 0 WPT))
    as [bs1 o] eqn:EF.
  destruct o as [st'| |]; try discriminate.
  intro H. injection H as <-. rewrite app_nil_r.
  destruct (for_rows_drawn WPT _ _ tipped_drawn _ _ (mk_tube_state 0 WPT) _ _ per_tube_nonneg EF)
    as [R D].
  specialize (D j). rewrite first_allowance in D.
  pose proof (allowance_nonneg WPT per_tube_nonneg st' j R). lra.
Qed.

(** Steps that find their water in the first tube. *)
Lemma step_reservoir_water_first bs j :
  Forall (fun r => 0 <= water_volume r) (wells_large_dilution wd) ->
  sum_by water_volume (wells_large_dilution wd) + 1 <= WPT ->
  step_reservoir_water wd = (bs, Ok tt) ->
  drawn j (commands bs)
  == if (0 =? j)%nat then sum_by water_volume (wells_large_dilution wd)
     else 0.
Proof.
  unfold step_reservoir_water.
  destruct (wells_large_dilution wd) as [|r0 rows0].
  - intros _ _ H. injection H as <-.
    destruct (0 =? j)%nat; reflexivity.
  - intros HF HS. unfold bind, issue.
    match goal with |- context [for_rows ?s ?body ?i ?rows ?st] =>
      destruct (for_rows s body i rows st) as [bs1 o] eqn:EF;
      pose proof (for_rows_stays s body) as FS end.
    destruct o as [st'| |]; try discriminate.
    intro H. injection H as <-.
    change ([mk_block ReservoirWater None [PickUpTip]]
            ++ bs1 ++ [mk_block ReservoirWater None [DropTip]])
      with (mk_block ReservoirWater None [PickUpTip]
            :: bs1 ++ [mk_block ReservoirWater None [DropTip]]).
    rewrite drawn_wrapped.
    apply (FS ltac:(intros idx row st cmds st1 Hw Hr E;
                    exact (water_loop_stays NT WPT _
                             (draws_emit_reservoir _) _ _ _ _ _ Hw Hr E))
              _ _ (mk_tube_state 0 WPT) _ _ HF HS EF j).
Qed.

Lemma step_plate_water_first bs j :
  Forall (fun r => 0 <= water_volume r) (wells_water_first wd) ->
  sum_by water_volume (wells_water_first wd) + 1 <= WPT ->
  step_plate_water wd = (bs, Ok tt) ->
  drawn j (commands bs)
  == if (0 =? j)%nat then sum_by water_volume (wells_water_first wd) else 0.
Proof.
  unfold step_plate_water.
  destruct (wells_water_first wd) as [|r0 rows0].
  - intros _ _ H. injection H as <-.
    destruct (0 =? j)%nat; reflexivity.
  - intros HF HS. unfold bind, issue.
    match goal with |- context [for_rows ?s ?body ?i ?rows ?st] =>
      destruct (for_rows s body i rows st) as [bs1 o] eqn:EF;
      pose proof (for_rows_stays s body) as FS end.
    destruct o as [st'| |]; try discriminate.
    intro H. injection H as <-.
    change ([mk_block PlateWater None [PickUpTip]]
            ++ bs1 ++ [mk_block PlateWater None [DropTip]])
      with (mk_block PlateWater None [PickUpTip]
            :: bs1 ++ [mk_block PlateWater None [DropTip]]).
    rewrite drawn_wrapped.
    apply (FS ltac:(intros idx row st cmds st1 Hw Hr E;
                    exact (water_loop_stays NT WPT _
                             (draws_emit_plate _) _ _ _ _ _ Hw Hr E))
              _ _ (mk_tube_state 0 WPT) _ _ HF HS EF j).
Qed.

Lemma tipped_stays idx row st cmds st1 :
  0 <= water_volume row ->
  water_volume row + 1 <= water_remaining_in_current_tube st ->
  tipped emit_water_after idx row st = (cmds, Ok st1) ->
  current_water_tube_index st1 = current_water_tube_index st
  /\ water_remaining_in_current_tube st1
     == water_remaining_in_current_tube st - water_volume row
  /\ forall j, drawn j cmds
               == if (current_water_tube_index st =? j)%nat
                  then water_volume row else 0.
Proof.
  intros Hw Hr. unfold tipped.
  destruct (water_loop NT WPT (emit_water_after row)
              (loop_fuel (water_volume row)) (water_volume row) st)
    as [c o] eqn:E.
  destruct o as [st2| |]; try discriminate.
  intro H. injection H as <- <-.
  destruct (water_loop_stays NT WPT _ (draws_emit_after row)
              _ _ _ _ _ Hw Hr E) as (I & R & D).
  split; [exact I|]. split; [exact R|].
  intro j. cbn [app]. rewrite drawn_tipped. apply D.
Qed.

Lemma step_water_after_water_first bs j :
  Forall (fun r => 0 <= water_volume r) (wells_water_after wd) ->
  sum_by water_volume (wells_water_after wd) + 1 <= WPT ->
  step_water_after_water wd = (bs, Ok tt) ->
  drawn j (commands bs)
  == if (0 =? j)%nat then sum_by water_volume (wells_water_after wd) else 0.
Proof.
  intros HF HS. unfold step_water_after_water, bind, ret.
  fold (tipped emit_water_after).
  destruct (for_rows WaterAfterWater (tipped emit_water_after) 0
              (wells_water_after wd) (mk_tube_state 0 WPT))
    as [bs1 o] eqn:EF.
  destruct o as [st'| |]; try discriminate.
  intro H. injection H as <-. rewrite app_nil_r.
  apply (for_rows_stays _ _ tipped_stays _ _ (mk_tube_state 0 WPT) _ _ HF HS EF j).
Qed.

End Steps.

(** The sample steps take nothing from the water tubes. *)
Lemma drawn_sample_transfer j v split single :
  (forall i n t, tube_transfers j (split i n t) = []) ->
  tube_transfers j single = [] ->
  tube_transfers j (sample_transfer v split single) = [].
Proof.
  intros H1 H2. unfold sample_transfer. destruct (Qltb 19 v); [|exact H2].
  unfold tube_transfers. apply flat_map_none. intro i. apply H1.
Qed.

Ltac no_tube :=
  unfold aspirate_dispense, blow_touch_blow, source_well_of, dest_well_of;
  repeat match goal with
         | |- context [if ?b then _ else _] => destruct b
         end;
  reflexivity.

Lemma drawn_large_row j k row :
  j <> k -> drawn j (large_dilution_row (Tube k) row) == 0.
Proof.
  intro Hne. unfold drawn, large_dilution_row. cbv zeta.
  rewrite !MultiPlateDilutionsSpec.tube_transfers_app, drawn_sample_transfer.
  - simpl. destruct (Nat.eqb_spec k j); [congruence|]. reflexivity.
  - intros. no_tube.
  - no_tube.
Qed.

Lemma drawn_water_first_row j row :
  drawn j (water_first_sample_row row) == 0.
Proof.
  unfold drawn, water_first_sample_row. cbv zeta.
  rewrite !MultiPlateDilutionsSpec.tube_transfers_app, drawn_sample_transfer.
  - reflexivity.
  - intros. no_tube.
  - no_tube.
Qed.

Lemma drawn_water_after_sample_row j row :
  drawn j (water_after_sample_row row) == 0.
Proof.
  unfold drawn, water_after_sample_row. cbv zeta.
  rewrite !MultiPlateDilutionsSpec.tube_transfers_app, drawn_sample_transfer.
  - reflexivity.
  - intros. no_tube.
  - no_tube.
Qed.

Lemma drawn_blocks j s P : forall rows idx bs,
  (forall i r c, (idx <= i)%nat -> P i r c -> drawn j c == 0) ->
  blocks_for s P idx rows bs -> drawn j (commands bs) == 0.
Proof.
  induction rows as [|r rows IH]; intros idx [|b bs] H; cbn [blocks_for];
    try tauto.
  - reflexivity.
  - intros (_ & _ & Hc & Hb). rewrite commands_cons, drawn_app.
    rewrite (H idx r _ (Nat.le_refl _) Hc).
    rewrite (IH (S idx) bs); [lra| |exact Hb].
    intros i r' c Hi. apply H. lia.
Qed.

(** The result of the pipetting part, step by step. *)
Lemma pipetting_steps wd bs :
  pipetting wd = (bs, Ok tt) ->
  exists bA bB bC bD bE bF,
    step_reservoir_water wd = (bA, Ok tt)
    /\ step_plate_water wd = (bB, Ok tt)
    /\ step_large_dilution wd = (bC, Ok tt)
    /\ step_water_first_sample wd = (bD, Ok tt)
    /\ step_water_after_sample wd = (bE, Ok tt)
    /\ step_water_after_water wd = (bF, Ok tt)
    /\ bs = bA ++ bB ++ bC ++ bD ++ bE ++ bF.
Proof.
  unfold pipetting, bind.
  destruct (step_reservoir_water wd) as [bA [[]| |]]; try discriminate.
  destruct (step_plate_water wd) as [bB [[]| |]]; try discriminate.
  destruct (step_large_dilution wd) as [bC [[]| |]]; try discriminate.
  destruct (step_water_first_sample wd) as [bD [[]| |]]; try discriminate.
  destruct (step_water_after_sample wd) as [bE [[]| |]]; try discriminate.
  destruct (step_water_after_water wd) as [bF [[]| |]]; try discriminate.
  intro H. injection H as <-. exists bA, bB, bC, bD, bE, bF.
  repeat split; reflexivity.
Qed.

Lemma sample_steps_drawn wd bC bD bE j :
  (Z.of_nat j < num_water_tubes wd)%Z ->
  step_large_dilution wd = (bC, Ok tt) ->
  step_water_first_sample wd = (bD, Ok tt) ->
  step_water_after_sample wd = (bE, Ok tt) ->
  drawn j (commands bC) == 0 /\ drawn j (commands bD) == 0
  /\ drawn j (commands bE) == 0.
Proof.
  intros Hj. unfold step_large_dilution, step_water_first_sample,
    step_water_after_sample, bind, ret.
  destruct (pure_rows_ok LargeDilution
              (fun idx row => large_dilution_row
                                (Tube (Z.to_nat (num_water_tubes wd) + idx)) row)
              (wells_large_dilution wd) 0) as (bC' & EC & BC).
  destruct (pure_rows_ok WaterFirstSample
              (fun idx row => water_first_sample_row row)
              (wells_water_first wd) 0) as (bD' & ED & BD).
  destruct (pure_rows_ok WaterAfterSample
              (fun idx row => water_after_sample_row row)
              (wells_water_after wd) 0) as (bE' & EE & BE).
  rewrite EC, ED, EE. rewrite !app_nil_r.
  intros H1 H2 H3. injection H1 as <-. injection H2 as <-. injection H3 as <-.
  split; [|split].
  - eapply drawn_blocks; [|exact BC]. intros i r c _ ->.
    apply drawn_large_row. lia.
  - eapply drawn_blocks; [|exact BD]. intros i r c _ ->.
    apply drawn_water_first_row.
  - eapply drawn_blocks; [|exact BE]. intros i r c _ ->.
    apply drawn_water_after_sample_row.
Qed.

(** With two water tubes or more, the run needs more water than one tube
    is loaded with. *)
Lemma more_tubes_more_water nsp ndp wd :
  Forall (row_ok nsp ndp) wd ->
  (2 <= num_water_tubes wd)%Z -> water_per_tube wd < total_water wd.
Proof.
  intros HV H2.
  pose proof (per_tube_ge nsp ndp wd HV) as G.
  pose proof (per_tube_total nsp ndp wd HV) as T.
  unfold total_water_with_buffer in T.
  pose proof (Qceiling_lt (total_water_with_buffer wd / WATER_TUBE_CAPACITY))
    as Lo.
  fold (math_ceil (total_water_with_buffer wd / WATER_TUBE_CAPACITY)) in Lo.
  fold (num_water_tubes wd) in Lo.
  unfold total_water_with_buffer, WATER_TUBE_CAPACITY in Lo.
  assert ((total_water wd + 50) / 1500 == (total_water wd + 50) * (1 # 1500))
    as D by field.
  rewrite D in Lo.
  unfold Z.sub in Lo. rewrite inject_Z_plus in Lo.
  change (inject_Z (- (1))) with (- (1)) in Lo.
  assert (2 <= inject_Z (num_water_tubes wd)) as N.
  { change 2 with (inject_Z 2). rewrite <- Zle_Qle. exact H2. }
  destruct (Qlt_le_dec 750 (water_per_tube wd)) as [L|L].
  - assert (1 * water_per_tube wd
            <= (inject_Z (num_water_tubes wd) - 1) * water_per_tube wd) as M.
    { apply Qmult_le_compat_r; lra. }
    lra.
  - exfalso.
    assert (water_per_tube wd * inject_Z (num_water_tubes wd)
            <= 750 * inject_Z (num_water_tubes wd)) as M.
    { apply Qmult_le_compat_r; lra. }
    lra.
Qed.

Lemma two_tube_validated :
  validated decimal 1 1 (tl two_tube_csv) two_tube_well_data.
Proof. repeat split. vm_compute. intro H; discriminate H. Qed.

End DilutionDrawFacts.

Module DilutionDrawSpec.
Import Py PyFacts MultiPlateDilutions DilutionFacts DilutionDraw
  DilutionDrawFacts.
Local Open Scope Q_scope.

(** X7. Within one water step no tube is asked for more than it was loaded
    with: each of the three water-distribution steps of a validated file
    ends normally, and the volume it aspirates from any single tube of the
    rack is at most [water_per_tube]. *)
Theorem water_step_within_tube float nsp ndp data wd :
  validated float nsp ndp data wd ->
  exists bA bB bF,
    step_reservoir_water wd = (bA, Ok tt)
    /\ step_plate_water wd = (bB, Ok tt)
    /\ step_water_after_water wd = (bF, Ok tt)
    /\ forall j, drawn j (commands bA) <= water_per_tube wd
                 /\ drawn j (commands bB) <= water_per_tube wd
                 /\ drawn j (commands bF) <= water_per_tube wd.
Proof.
  intros (_ & HV & HT). apply validation_errors_nil in HV.
  destruct (step_reservoir_water_ok nsp ndp wd HV HT) as (bA & EA & _).
  destruct (step_plate_water_ok nsp ndp wd HV HT) as (bB & EB & _).
  destruct (step_water_after_water_ok nsp ndp wd HV HT) as (bF & EF & _).
  pose proof (per_tube_ge nsp ndp wd HV) as G.
  assert (0 <= water_per_tube wd) as G0 by lra.
  eexists _, _, _. split; [exact EA|]. split; [exact EB|].
  split; [exact EF|]. intro j. split; [|split].
  - exact (step_reservoir_water_drawn wd G0 _ j EA).
  - exact (step_plate_water_drawn wd G0 _ j EB).
  - exact (step_water_after_water_drawn wd G0 _ j EF).
Qed.

Lemma water_step_within_tube_witness :
  exists bA,
    step_reservoir_water two_tube_well_data = (bA, Ok tt)
    /\ drawn 0 (commands bA) <= 775.
Proof.
  destruct (water_step_within_tube decimal 1 1 (tl two_tube_csv)
              two_tube_well_data two_tube_validated)
    as (bA & bB & bF & EA & _ & _ & H).
  exists bA. split; [exact EA|].
  destruct (H 0%nat) as (HA & _).
  assert (water_per_tube two_tube_well_data == 775) as W
    by (vm_compute; reflexivity).
  lra.
Defined.

(** X8. The bookkeeping of the water tubes starts again from the first tube
    in every water step.  When none of the three steps needs more than
    [water_per_tube - 1], none of them ever leaves the first tube: over the
    whole run all of [total_water] is aspirated from tube 0, whatever
    [num_water_tubes] is, and the other water tubes are not touched.  With
    two tubes or more this is more than the [water_per_tube] the first tube
    was loaded with. *)
Theorem first_tube_serves_every_step float nsp ndp headers data wd bs :
  validated float nsp ndp data wd ->
  sum_by water_volume (wells_large_dilution wd) + 1 <= water_per_tube wd ->
  sum_by water_volume (wells_water_first wd) + 1 <= water_per_tube wd ->
  sum_by water_volume (wells_water_after wd) + 1 <= water_per_tube wd ->
  run float nsp ndp (headers :: data) = (bs, Ok tt) ->
  drawn 0 (commands bs) == total_water wd
  /\ (forall j, (0 < Z.of_nat j < num_water_tubes wd)%Z ->
                drawn j (commands bs) == 0)
  /\ ((2 <= num_water_tubes wd)%Z ->
      water_per_tube wd < drawn 0 (commands bs)).
Proof.
  intros V SA SB SF E. rewrite (run_validated _ _ _ _ _ _ V) in E.
  destruct V as (_ & HV & HT). apply validation_errors_nil in HV.
  pose proof (more_tubes_more_water nsp ndp wd HV) as MT.
  destruct (pipetting_steps wd bs E)
    as (bA & bB & bC & bD & bE & bF & EA & EB & EC & ED & EE & EF & ->).
  pose proof (water_nonneg nsp ndp wd HV) as WN.
  pose proof (num_water_tubes_pos nsp ndp wd HV) as NP.
  assert (Forall (fun r => 0 <= water_volume r) (wells_large_dilution wd))
    as FA by (apply filter_Forall; exact WN).
  assert (Forall (fun r => 0 <= water_volume r) (wells_water_first wd))
    as FB by (unfold wells_water_first, wells_normal;
              do 2 apply filter_Forall; exact WN).
  assert (Forall (fun r => 0 <= water_volume r) (wells_water_after wd))
    as FF by (unfold wells_water_after, wells_normal;
              do 2 apply filter_Forall; exact WN).
  assert (forall j, (Z.of_nat j < num_water_tubes wd)%Z ->
            drawn j (commands (bA ++ bB ++ bC ++ bD ++ bE ++ bF))
            == (if (0 =? j)%nat
                then sum_by water_volume (wells_large_dilution wd) else 0)
               + (if (0 =? j)%nat
                  then sum_by water_volume (wells_water_first wd) else 0)
               + (if (0 =? j)%nat
                  then sum_by water_volume (wells_water_after wd) else 0))
    as D.
  { intros j Hj. rewrite !commands_app, !drawn_app.
    destruct (sample_steps_drawn wd bC bD bE j Hj EC ED EE) as (DC & DD & DE).
    rewrite DC, DD, DE.
    rewrite (step_reservoir_water_first wd bA j FA SA EA).
    rewrite (step_plate_water_first wd bB j FB SB EB).
    rewrite (step_water_after_water_first wd bF j FF SF EF). lra. }
  assert (drawn 0 (commands (bA ++ bB ++ bC ++ bD ++ bE ++ bF))
          == total_water wd) as D0.
  { rewrite (D 0%nat) by (simpl; lia). cbn [Nat.eqb].
    unfold total_water.
    rewrite (sum_by_filter_split water_volume
               (fun row => Qle_bool 5 (water_volume row)) (wells_normal wd)).
    fold (wells_water_first wd).
    change (filter (fun x => negb (Qle_bool 5 (water_volume x)))
                   (wells_normal wd)) with (wells_water_after wd).
    lra. }
  split; [exact D0|]. split.
  - intros j [Hj1 Hj2]. rewrite (D j Hj2).
    destruct (Nat.eqb_spec 0 j); [lia|lra].
  - intro H2. rewrite D0. exact (MT H2).
Qed.

Lemma first_tube_serves_every_step_witness :
  num_water_tubes two_tube_well_data = 2%Z
  /\ water_per_tube two_tube_well_data == 775
  /\ drawn 0 (commands (fst (run decimal 1 1 two_tube_csv))) == 1500.
Proof.
  split; [reflexivity|]. split; [vm_compute; reflexivity|].
  destruct (first_tube_serves_every_step decimal 1 1 (hd [] two_tube_csv)
              (tl two_tube_csv) two_tube_well_data
              (fst (run decimal 1 1 two_tube_csv)) two_tube_validated)
    as [H _].
  - vm_compute. discriminate.
  - vm_compute. discriminate.
  - vm_compute. discriminate.
  - vm_compute. reflexivity.
  - change (hd [] two_tube_csv :: tl two_tube_csv) with two_tube_csv in H.
    rewrite H. vm_compute. reflexivity.
Defined.

End DilutionDrawSpec.

Module SelectASizePipettingFacts.
Import Py PyFacts Flex SelectASizePipetting.
Local Open Scope Q_scope.

Lemma mixing_volume_bounds mvol :
  0 < mvol -> 0 < min2 mvol 1000 * 0.8 /\ min2 mvol 1000 * 0.8 <= 800.
Proof.
  intro H. destruct (min2_cases mvol 1000) as [[-> L]|[-> L]]; lra.
Qed.

Lemma fate_eqb_eq a b : fate_eqb a b = true -> a = b.
Proof.
  destruct a as [r c], b as [r' c']. unfold fate_eqb. simpl.
  destruct r, r'; intro H; try discriminate H;
    apply Nat.eqb_eq in H; now subst.
Qed.

Lemma rack_fates_eqb_eq a b : fates_eqb a b = true -> a = b.
Proof.
  revert b. induction a as [|x a IH]; intros [|y b] H; simpl in H;
    try discriminate H; [reflexivity|].
  apply andb_true_iff in H as [H1 H2]. apply fate_eqb_eq in H1.
  f_equal; auto.
Qed.

Lemma tips_check_run mit bmv dry : tips_check (run mit bmv dry) = true.
Proof. destruct dry; vm_compute; reflexivity. Qed.

Lemma pipetting_same mit bmv :
  pipetting (run mit bmv true) = pipetting (run mit bmv false).
Proof. vm_compute. reflexivity. Qed.

Lemma waits_same mit bmv dry :
  waits_and_pauses (run mit bmv dry) = SelectASizeCleaning.run mit bmv dry.
Proof. destruct dry; reflexivity. Qed.

Lemma pip50_volumes_run mit bmv dry :
  pip50_volumes None (run mit bmv dry) = true.
Proof. destruct dry; vm_compute; reflexivity. Qed.

Lemma brought_run mit bmv dry :
  brought Pip50 dnase_free_water (run mit bmv dry) == - (240)
  /\ brought Pip50 dna_wash_buffer (run mit bmv dry) == - (600)
  /\ brought Pip50 water_magbead_mix (run mit bmv dry) == - (312)
  /\ brought Pip50 Waste (run mit bmv dry) == 1020.
Proof. destruct dry; repeat split; vm_compute; reflexivity. Qed.

Lemma mixes_only_app cap a b :
  mixes_only cap a -> mixes_only cap b -> mixes_only cap (a ++ b).
Proof.
  induction 1; intro Hb; cbn [app]; [exact Hb| |].
  - apply mo_mix; auto.
  - apply mo_other; auto.
Qed.

Lemma mixes_only_flat_map {A} cap (f : A -> list call) l :
  (forall x, mixes_only cap (f x)) -> mixes_only cap (flat_map f l).
Proof.
  intro H. induction l as [|x l IH]; simpl; [constructor|].
  apply mixes_only_app; auto.
Qed.

Lemma mixes_only_mixing cap w mvol reps :
  0 < min2 mvol 1000 * 0.8 -> min2 mvol 1000 * 0.8 <= cap ->
  mixes_only cap (mixing w Pip1000 mvol reps).
Proof.
  intros H1 H2. unfold mixing. apply mixes_only_flat_map. intros _.
  apply mo_mix; auto. constructor.
Qed.

Lemma mixes_only_bead_mixing cap w mvol reps :
  200 <= cap -> mixes_only cap (bead_mixing w Pip1000 mvol reps).
Proof.
  intros H. unfold bead_mixing. apply mixes_only_flat_map. intros _.
  apply mo_mix; [lra|exact H|]. apply mo_mix; [lra|exact H|]. constructor.
Qed.

Ltac others :=
  repeat (apply mo_other; [exact I|]); try apply mo_nil.

Lemma mixes_only_50 cap w mvol reps :
  mixes_only cap (mixing w Pip50 mvol reps).
Proof.
  unfold mixing. apply mixes_only_flat_map. intros _. others.
Qed.

Lemma mixes_only_run mit bmv dry :
  0 < bmv -> mixes_only 800 (run mit bmv dry).
Proof.
  intro H. destruct (mixing_volume_bounds bmv H) as [M1 M2].
  unfold run.
  repeat first
    [ apply mixes_only_mixing; assumption
    | apply mixes_only_50
    | apply mixes_only_bead_mixing; lra
    | apply mixes_only_app
    | apply mixes_only_flat_map; intro
    | match goal with |- context [if ?b then _ else _] => destruct b end
    | progress others ].
Qed.

End SelectASizePipettingFacts.

Module SelectASizePipettingSpec.
Import Py PyFacts Flex SelectASizePipetting SelectASizePipettingFacts.
Local Open Scope Q_scope.

(** X17. Tips of the clean-up script.  For all parameters, every call is
    made with tips on the pipette it uses, no tips are picked up over
    others, and the run ends without tips.  Tips taken from column [c] of a
    rack reach into the reservoirs and into column [c] of the sample and
    elution plates only, so that no tip meets two sample columns.  The tips
    dropped are the twelve columns of the transfer rack (in STEP 8), of the
    wash rack (STEP 10) and of the elution rack (STEP 15); the columns 0, 1
    and 3 of the 1000 uL rack are returned.  A dry run changes the waits and
    the pause only: its calls on the pipettes, drops included, are those of
    the normal run, [drop_tip_50] and [drop_tip_1000] being never called. *)
Theorem tips_stay_with_their_column
    (magbead_incubation_time bead_mixing_volume : Q) (DryRun : bool) :
  let cs := run magbead_incubation_time bead_mixing_volume DryRun in
  (exists s, tips_replay (mk_tips_on None None) cs = Some s
             /\ on50 s = None /\ on1000 s = None)
  /\ fates true (mk_tips_on None None) cs
     = rack_columns TransferTips50 (seq 0 12)
       ++ rack_columns WashTips50 (seq 0 12)
       ++ rack_columns ElutionTips50 (seq 0 12)
  /\ pipetting cs
     = pipetting (run magbead_incubation_time bead_mixing_volume false)
  /\ waits_and_pauses cs
     = SelectASizeCleaning.run magbead_incubation_time bead_mixing_volume
                               DryRun.
Proof.
  intro cs.
  pose proof (tips_check_run magbead_incubation_time bead_mixing_volume
                DryRun) as C.
  unfold tips_check in C. fold cs in C.
  apply andb_true_iff in C as [C1 C2].
  split; [|split; [|split]].
  - destruct (tips_replay (mk_tips_on None None) cs) as [s|];
      [|discriminate C1].
    exists s. split; [reflexivity|].
    destruct (on50 s), (on1000 s); try discriminate C1. split; reflexivity.
  - now apply rack_fates_eqb_eq.
  - subst cs. destruct DryRun; [apply pipetting_same|reflexivity].
  - apply waits_same.
Qed.

(** X18. Volumes of the clean-up script.  For every positive
    [bead_mixing_volume], the 1000 uL pipette only mixes: each of its
    aspirates is followed at once by a dispense of the same volume into the
    same well, and the volume (200 uL in [bead_mixing], which ignores
    [mvol]; 80 % of [min(mvol, 1000)] in [mixing]) is positive and at most
    800 uL.  The 50 uL pipette always dispenses what it has just aspirated,
    a positive volume of at most 50 uL.  Over the run its eight channels
    take 1920 uL of water, 4800 uL of wash buffer and 2496 uL of bead mix
    out of the reservoir, no more than the 3000, 6000 and 3347.5 uL loaded,
    and bring 8160 uL to the waste. *)
Theorem volumes_fit_tips_and_reagents
    (magbead_incubation_time bead_mixing_volume : Q) (DryRun : bool) :
  0 < bead_mixing_volume ->
  let cs := run magbead_incubation_time bead_mixing_volume DryRun in
  mixes_only 800 cs
  /\ pip50_volumes None cs = true
  /\ Forall (fun l => 8 * - brought Pip50 (fst l) cs <= snd l) loaded
  /\ 8 * - brought Pip50 dnase_free_water cs == 1920
  /\ 8 * - brought Pip50 dna_wash_buffer cs == 4800
  /\ 8 * - brought Pip50 water_magbead_mix cs == 2496
  /\ 8 * brought Pip50 Waste cs == 8160.
Proof.
  intros H cs.
  destruct (brought_run magbead_incubation_time bead_mixing_volume DryRun)
    as (B1 & B2 & B3 & B4).
  fold cs in B1, B2, B3, B4.
  split; [now apply mixes_only_run|].
  split; [apply pip50_volumes_run|].
  split.
  - unfold loaded. repeat constructor; cbn [fst snd];
      rewrite ?B1, ?B2, ?B3; lra.
  - rewrite B1, B2, B3, B4. repeat split; reflexivity.
Qed.

Lemma volumes_fit_tips_and_reagents_witness :
  8 * - brought Pip50 dna_wash_buffer (run 5 200 false) == 4800
  /\ pip50_volumes None (run 5 200 false) = true.
Proof.
  destruct (volumes_fit_tips_and_reagents 5 200 false)
    as (_ & P & _ & _ & W & _).
  - reflexivity.
  - split; [exact W|exact P].
Defined.

End SelectASizePipettingSpec.

Module Zymo48TransfersSpec.
Import Py PyFacts Zymo48Transfers.
Local Open Scope Q_scope.

(** X16. A positive volume is moved in the fewest transfers of at most
    980 uL, all equal: [vol_per_trans] is positive and at most 980, so that
    a transfer and its 20 uL air gap fit the 1000 uL tip; the [num_trans]
    transfers add up to the volume; one transfer less, of 980 uL at most,
    would not.  A volume of zero (or down to -980) stops the script with
    [ZeroDivisionError]. *)
Theorem transfers_fit_the_tip vol :
  (0 < vol ->
   exists v,
     vol_per_trans vol = Ok v
     /\ transfers vol = Ok (repeat v (Z.to_nat (num_trans vol)))
     /\ (1 <= num_trans vol)%Z
     /\ 0 < v /\ v <= 980 /\ v + air_gap <= tip_capacity
     /\ v * inject_Z (num_trans vol) == vol
     /\ inject_Z (num_trans vol - 1) * 980 < vol)
  /\ (-(980) < vol -> vol <= 0 ->
      vol_per_trans vol = Raise ZeroDivisionError
      /\ transfers vol = Raise ZeroDivisionError).
Proof.
  assert (vol / 980 == vol * (1 # 980)) as D by field.
  pose proof (Qle_ceiling (vol / 980)) as Up.
  pose proof (Qceiling_lt (vol / 980)) as Lo.
  fold (math_ceil (vol / 980)) in Up, Lo. fold (num_trans vol) in Up, Lo.
  rewrite D in Up, Lo.
  unfold Z.sub in Lo. rewrite inject_Z_plus in Lo.
  change (inject_Z (- (1))) with (- (1)) in Lo.
  split.
  - intro Hv.
    assert (1 <= num_trans vol)%Z as N.
    { unfold num_trans, math_ceil. apply ceil_pos. rewrite D. lra. }
    assert (1 <= inject_Z (num_trans vol)) as N'.
    { change 1 with (inject_Z 1). rewrite <- Zle_Qle. exact N. }
    unfold transfers, vol_per_trans.
    destruct (Z.eqb_spec (num_trans vol) 0) as [E|_]; [lia|].
    eexists. split; [reflexivity|]. split; [reflexivity|].
    split; [exact N|].
    assert (0 < vol / inject_Z (num_trans vol)) as P.
    { apply Qlt_shift_div_l; lra. }
    assert (vol / inject_Z (num_trans vol) <= 980) as B.
    { apply Qle_shift_div_r; lra. }
    split; [exact P|]. split; [exact B|].
    split; [unfold air_gap, tip_capacity; lra|].
    split; [field; lra|].
    unfold Z.sub. rewrite inject_Z_plus.
    change (inject_Z (- (1))) with (- (1)). lra.
  - intros H1 H2.
    assert (num_trans vol = 0)%Z as E.
    { assert (-1 < num_trans vol)%Z.
      { rewrite Zlt_Qlt. change (inject_Z (-1)) with (- (1)). lra. }
      assert (num_trans vol <= 0)%Z.
      { unfold num_trans, math_ceil. apply ceil_le_Z. rewrite D.
        change (inject_Z 0) with 0. lra. }
      lia. }
    unfold transfers, vol_per_trans. rewrite E. split; reflexivity.
Qed.

Lemma transfers_fit_the_tip_witness :
  transfers 2000 = Ok (repeat (2000 / 3) 3)
  /\ vol_per_trans 0 = Raise ZeroDivisionError.
Proof.
  split.
  - destruct (proj1 (transfers_fit_the_tip 2000)) as (v & E & T & _).
    + reflexivity.
    + rewrite T. vm_compute in E. injection E as <-. reflexivity.
  - apply (proj2 (transfers_fit_the_tip 0)); [reflexivity|discriminate].
Defined.

End Zymo48TransfersSpec.

Module ZymoLiquidsFacts.
Import Py PyFacts ZymoLiquids.
Local Open Scope Q_scope.

Lemma sum_by_app {A} (f : A -> Q) a b :
  sum_by f (a ++ b) == sum_by f a + sum_by f b.
Proof.
  induction a as [|x a IH]; simpl.
  - rewrite sum_by_nil. lra.
  - rewrite !sum_by_cons, IH. lra.
Qed.

Lemma sum_by_repeat (x : Q) k :
  sum_by (fun s => s) (repeat x k) == inject_Z (Z.of_nat k) * x.
Proof.
  induction k as [|k IH].
  - rewrite sum_by_nil. change (inject_Z (Z.of_nat 0)) with 0. lra.
  - cbn [repeat]. rewrite sum_by_cons, IH.
    rewrite Nat2Z.inj_succ. unfold Z.succ. rewrite inject_Z_plus.
    change (inject_Z 1) with 1. lra.
Qed.

Lemma all_but_last (a b : Q) (n : nat) :
  map (fun i => if (Z.of_nat i =? Z.of_nat (S n) - 1)%Z then a else b)
      (seq 0 (S n))
  = repeat b n ++ [a].
Proof.
  rewrite seq_S, map_app. f_equal.
  - assert (forall l, (forall i, In i l -> (i < n)%nat) ->
              map (fun i => if (Z.of_nat i =? Z.of_nat (S n) - 1)%Z
                            then a else b) l
              = repeat b (List.length l)) as H.
    { induction l as [|i l IH]; intro Hl; [reflexivity|].
      cbn [map List.length repeat].
      rewrite IH by (intros; apply Hl; now right). f_equal.
      assert (i < n)%nat by (apply Hl; now left).
      destruct (Z.eqb_spec (Z.of_nat i) (Z.of_nat (S n) - 1));
        [lia|reflexivity]. }
    rewrite H; [now rewrite length_seq|].
    intros i Hi. apply in_seq in Hi. lia.
  - cbn [map Nat.add].
    destruct (Z.eqb_spec (Z.of_nat n) (Z.of_nat (S n) - 1)); [reflexivity|lia].
Qed.

(** The [while] loop ends within the fuel it is given, having subtracted
    [limit] some [m] times. *)
Lemma reduce_left_ok limit : 0 < limit -> forall fuel left,
  left <= inject_Z (Z.of_nat fuel) * limit + limit ->
  exists left' (m : nat),
    reduce_left fuel limit left = Ok left'
    /\ left' == left - inject_Z (Z.of_nat m) * limit
    /\ left' <= limit
    /\ (0 < left -> 0 < left')
    /\ (left <= limit -> m = 0%nat).
Proof.
  intro Hl. induction fuel as [|fuel IH]; intros left Hf; cbn [reduce_left];
    destruct (Qltb limit left) eqn:E.
  - apply Qltb_true in E. change (inject_Z (Z.of_nat 0)) with 0 in Hf. lra.
  - apply Qltb_false in E. exists left, 0%nat.
    change (inject_Z (Z.of_nat 0)) with 0. repeat split; auto; lra.
  - apply Qltb_true in E.
    rewrite Nat2Z.inj_succ in Hf. unfold Z.succ in Hf.
    rewrite inject_Z_plus in Hf. change (inject_Z 1) with 1 in Hf.
    destruct (IH (left - limit)) as (left' & m & E' & H1 & H2 & H3 & H4);
      [lra|].
    exists left', (S m). rewrite E'. split; [reflexivity|].
    rewrite Nat2Z.inj_succ. unfold Z.succ. rewrite inject_Z_plus.
    change (inject_Z 1) with 1.
    split; [lra|]. split; [exact H2|]. split; [|lra].
    intros _. apply H3. lra.
  - apply Qltb_false in E. exists left, 0%nat.
    change (inject_Z (Z.of_nat 0)) with 0. repeat split; auto; lra.
Qed.

Lemma mult_lt_cancel (a b : Z) (limit : Q) :
  0 < limit -> inject_Z a * limit < inject_Z b * limit -> (a < b)%Z.
Proof.
  intros Hl H. rewrite Zlt_Qlt. apply (Qmult_lt_r _ _ limit Hl). exact H.
Qed.

Section Shares.

Variables sample_max sampnum : Z.
Variable n_wells : nat.
Hypothesis wells_pos : (0 < n_wells)%nat.
Hypothesis max_pos : (0 < sample_max)%Z.
Hypothesis samples_pos : (0 < sampnum)%Z.

Local Notation "'LIMIT'" := (limit_of sample_max n_wells).
Local Notation "'ITERATIONS'" := (iterations_of sample_max sampnum n_wells).

Lemma limit_pos : 0 < LIMIT.
Proof.
  unfold limit_of. apply Qlt_shift_div_l.
  - change 0 with (inject_Z 0). rewrite <- Zlt_Qlt. lia.
  - rewrite Qmult_0_l. change 0 with (inject_Z 0). rewrite <- Zlt_Qlt. lia.
Qed.

Lemma iterations_bounds :
  (1 <= ITERATIONS)%Z
  /\ inject_Z sampnum <= inject_Z ITERATIONS * LIMIT
  /\ inject_Z (ITERATIONS - 1) * LIMIT < inject_Z sampnum.
Proof.
  pose proof limit_pos as L.
  assert (0 < inject_Z sampnum) as Sp
    by (change 0 with (inject_Z 0); rewrite <- Zlt_Qlt; lia).
  unfold iterations_of, math_ceil.
  pose proof (Qle_ceiling (inject_Z sampnum / LIMIT)) as Up.
  pose proof (Qceiling_lt (inject_Z sampnum / LIMIT)) as Lo.
  split; [|split].
  - apply ceil_pos. apply Qlt_shift_div_l; lra.
  - apply (Qmult_le_r _ _ LIMIT L) in Up.
    assert (inject_Z sampnum / LIMIT * LIMIT == inject_Z sampnum) as E
      by (field; lra).
    lra.
  - apply (Qmult_lt_r _ _ LIMIT L) in Lo.
    assert (inject_Z sampnum / LIMIT * LIMIT == inject_Z sampnum) as E
      by (field; lra).
    lra.
Qed.

(** When the samples fit [sample_max], there are wells enough. *)
Lemma iterations_le_wells :
  (sampnum <= sample_max)%Z -> (ITERATIONS <= Z.of_nat n_wells)%Z.
Proof.
  intro H. pose proof limit_pos as L.
  unfold iterations_of, math_ceil. apply ceil_le_Z.
  apply Qle_shift_div_r; [exact L|].
  assert (inject_Z (Z.of_nat n_wells) * LIMIT == inject_Z sample_max) as E.
  { unfold limit_of. field. intro E.
    assert (inject_Z 0 < inject_Z (Z.of_nat n_wells)) as P
      by (rewrite <- Zlt_Qlt; lia).
    change (inject_Z 0) with 0 in P. lra. }
  rewrite E. rewrite <- Zle_Qle. exact H.
Qed.

Lemma samples_per_well_ok :
  exists per_well,
    samples_per_well sample_max sampnum n_wells = Ok per_well
    /\ sum_by (fun s => s) per_well == inject_Z sampnum
    /\ Forall (fun s => 0 < s /\ s <= LIMIT) per_well
    /\ List.length per_well = Z.to_nat ITERATIONS.
Proof.
  pose proof limit_pos as L.
  destruct iterations_bounds as (I1 & I2 & I3).
  assert (0 < inject_Z sampnum) as Sp
    by (change 0 with (inject_Z 0); rewrite <- Zlt_Qlt; lia).
  unfold samples_per_well.
  destruct (Nat.eqb_spec n_wells 0) as [E0|_]; [lia|]. cbv zeta.
  destruct (Qeq_bool LIMIT 0) eqn:EL; [apply Qeq_bool_iff in EL; lra|].
  destruct (Z.to_nat ITERATIONS) as [|n] eqn:En; [lia|].
  assert (ITERATIONS = Z.of_nat (S n)) as EI by lia.
  rewrite EI in *. clear En.
  assert (inject_Z (Z.of_nat (S n) - 1) == inject_Z (Z.of_nat n)) as EN
    by (apply inject_Z_injective; lia).
  rewrite EN in I3.
  destruct (reduce_left_ok LIMIT L (S n) (inject_Z sampnum - LIMIT))
    as (left & m & ER & H1 & H2 & H3 & H4); [lra|].
  rewrite ER, all_but_last.
  eexists. split; [reflexivity|].
  assert (inject_Z (Z.of_nat (S n)) == inject_Z (Z.of_nat n) + 1) as ES.
  { rewrite Nat2Z.inj_succ. unfold Z.succ. rewrite inject_Z_plus.
    reflexivity. }
  rewrite ES in I2.
  destruct (Qlt_le_dec LIMIT (inject_Z sampnum)) as [Big|Small].
  - (* more samples than one well takes *)
    assert (0 < left) as Hp by (apply H3; lra).
    assert (Qltb 0 left = true) as -> by (apply Qltb_true; exact Hp).
    assert (Z.of_nat m + 1 = Z.of_nat n)%Z as Em.
    { assert (Z.of_nat m + 1 < Z.of_nat n + 1)%Z.
      { apply (mult_lt_cancel _ _ LIMIT L).
        rewrite !inject_Z_plus. change (inject_Z 1) with 1. lra. }
      assert (Z.of_nat n < Z.of_nat m + 1 + 1)%Z.
      { apply (mult_lt_cancel _ _ LIMIT L).
        rewrite !inject_Z_plus. change (inject_Z 1) with 1. lra. }
      lia. }
    assert (inject_Z (Z.of_nat n) == inject_Z (Z.of_nat m) + 1) as Em'.
    { rewrite <- Em, inject_Z_plus. reflexivity. }
    split; [|split].
    + rewrite sum_by_app, sum_by_repeat, sum_by_cons, sum_by_nil.
      rewrite H1, Em'. ring.
    + apply Forall_app. split.
      * apply Forall_forall. intros x Hx. apply repeat_spec in Hx. subst.
        lra.
      * constructor; [lra|constructor].
    + rewrite length_app, repeat_length. simpl. lia.
  - (* one well takes them all *)
    assert (m = 0%nat) as -> by (apply H4; lra).
    change (inject_Z (Z.of_nat 0)) with 0 in H1.
    assert (n = 0%nat) as ->.
    { assert (Z.of_nat n < 1)%Z; [|lia].
      apply (mult_lt_cancel _ _ LIMIT L). change (inject_Z 1) with 1. lra. }
    cbn [repeat app].
    assert (Qltb 0 left = false) as -> by (apply Qltb_false; lra).
    destruct (Qltb left 0) eqn:E2.
    + apply Qltb_true in E2. split; [|split].
      * rewrite sum_by_cons, sum_by_nil. lra.
      * constructor; [lra|constructor].
      * reflexivity.
    + apply Qltb_false in E2. split; [|split].
      * rewrite sum_by_cons, sum_by_nil. lra.
      * constructor; [lra|constructor].
      * reflexivity.
Qed.

End Shares.

Lemma sum_by_map {A B} (f : B -> Q) (g : A -> B) l :
  sum_by f (map g l) == sum_by (fun x => f (g x)) l.
Proof.
  induction l as [|x l IH]; [reflexivity|].
  cbn [map]. rewrite !sum_by_cons, IH. reflexivity.
Qed.

Lemma sum_by_affine {A} (f : A -> Q) (a b : Q) l :
  sum_by (fun x => a * (f x + b)) l
  == a * (sum_by f l + inject_Z (Z.of_nat (List.length l)) * b).
Proof.
  induction l as [|x l IH].
  - rewrite !sum_by_nil. change (inject_Z (Z.of_nat (List.length []))) with 0.
    lra.
  - rewrite !sum_by_cons, IH. cbn [List.length].
    rewrite Nat2Z.inj_succ. unfold Z.succ. rewrite inject_Z_plus.
    change (inject_Z 1) with 1. lra.
Qed.

Lemma sum_by_fst_combine {B} (l : list Q) (l' : list B) :
  List.length l = List.length l' ->
  sum_by (fun sw : Q * B => fst sw) (combine l l') == sum_by (fun s => s) l.
Proof.
  revert l'. induction l as [|x l IH]; intros [|y l'] H; simpl in H;
    try discriminate H; [reflexivity|].
  cbn [combine]. rewrite !sum_by_cons, IH by lia. reflexivity.
Qed.

End ZymoLiquidsFacts.

Module ZymoLiquidsSpec.
Import Py PyFacts ZymoLiquids ZymoLiquidsFacts.
Local Open Scope Q_scope.

(** X12. [liquids_] provides for every sample.  For a reagent spread over
    a list of wells, a positive number of samples that does not exceed
    [sample_max] and a volume that is not zero, the call ends normally.  It
    loads the first [iterations] wells of the list, which has at least that
    many; it counts for each well a number of samples that is positive and
    at most [limit], and these numbers add up to [sampnum]; so the volumes
    it declares add up to [vol] times the samples plus [extra_samples] for
    each well loaded. *)
Theorem liquids_provide_for_every_sample (W : Type)
    (sample_max sampnum : Z) (special_liquid : string) (special_vol : Q)
    (liq : string) (wells : list W) (vol : Q) :
  wells <> [] -> (0 < sampnum <= sample_max)%Z ->
  ~ vol == 0 -> ~ special_vol == 0 ->
  let iterations := iterations_of sample_max sampnum (List.length wells) in
  exists extra loads,
    extra_samples special_liquid special_vol liq vol = Ok extra
    /\ liquids_ W sample_max sampnum special_liquid special_vol liq
                (inr wells) vol = Ok loads
    /\ (1 <= iterations <= Z.of_nat (List.length wells))%Z
    /\ map fst loads = firstn (Z.to_nat iterations) wells
    /\ Forall (fun l => exists samples,
                 0 < samples
                 /\ samples <= limit_of sample_max (List.length wells)
                 /\ snd l = vol * (samples + inject_Z extra)) loads
    /\ sum_by snd loads
       == vol * (inject_Z sampnum + inject_Z iterations * inject_Z extra).
Proof.
  intros Hw [Hs Hm] Hv Hsv iterations.
  assert (0 < List.length wells)%nat as Hn
    by (destruct wells; [congruence|simpl; lia]).
  assert (0 < sample_max)%Z as Hmax by lia.
  destruct (samples_per_well_ok sample_max sampnum _ Hn Hmax Hs)
    as (per_well & E & Hsum & Hall & Hlen).
  destruct (iterations_bounds sample_max sampnum _ Hn Hmax Hs) as (I1 & _ & _).
  pose proof (iterations_le_wells sample_max sampnum _ Hn Hmax Hm) as I2.
  fold iterations in Hlen, I1, I2.
  unfold liquids_, extra_samples. cbv zeta.
  set (divisor := if String.eqb liq special_liquid then special_vol else vol).
  assert (Qeq_bool divisor 0 = false) as ->.
  { destruct (Qeq_bool divisor 0) eqn:E0; [|reflexivity].
    apply Qeq_bool_iff in E0. subst divisor.
    destruct (String.eqb liq special_liquid); tauto. }
  rewrite E. eexists _, _. split; [reflexivity|]. split; [reflexivity|].
  split; [lia|].
  assert (List.length (firstn (List.length per_well) wells)
          = List.length per_well) as Hf by (rewrite length_firstn; lia).
  split; [|split].
  - rewrite map_map. cbn [fst].
    rewrite <- Hlen.
    clear - Hf. revert Hf. generalize (firstn (List.length per_well) wells).
    induction per_well as [|s per_well IH]; intros [|w l] H; simpl in H;
      try discriminate H; [reflexivity|].
    cbn [combine map snd]. f_equal. apply IH. lia.
  - apply Forall_map. apply Forall_forall. intros [s w] Hin.
    apply in_combine_l in Hin. rewrite Forall_forall in Hall.
    destruct (Hall s Hin) as [A B]. exists s. auto.
  - rewrite sum_by_map. cbn [snd fst].
    rewrite (sum_by_affine (fun sw => fst sw)).
    rewrite sum_by_fst_combine by (symmetry; exact Hf).
    rewrite Hsum, length_combine, Hf, Nat.min_id, Hlen.
    rewrite Z2Nat.id by lia. reflexivity.
Qed.

Lemma liquids_provide_for_every_sample_witness :
  exists loads,
    liquids_ string 48 24 "MagBinding Buffer With Beads" 620 "MagWash 1"
             (inr ["A7"; "A8"]%string) 500 = Ok loads
    /\ map fst loads = ["A7"%string]
    /\ sum_by snd loads == 13500.
Proof.
  destruct (liquids_provide_for_every_sample string 48 24
              "MagBinding Buffer With Beads" 620 "MagWash 1"
              ["A7"; "A8"]%string 500)
    as (extra & loads & Ee & E & _ & Hm & _ & Hs).
  - discriminate.
  - lia.
  - intro H. discriminate H.
  - intro H. discriminate H.
  - exists loads. split; [exact E|]. split; [exact Hm|].
    rewrite Hs. vm_compute in Ee. injection Ee as <-. reflexivity.
Defined.

End ZymoLiquidsSpec.

Module ZymoRunsFacts.
Import Py PyFacts Flex ZymoRuns.
Local Open Scope Q_scope.

(** [math.ceil(n / 8)] for a number of samples. *)
Definition columns (n : nat) : nat :=
  Z.to_nat (math_ceil (inject_Z (Z.of_nat n) / 8)).

Lemma columns_le n k : (n <= 8 * k)%nat -> (columns n <= k)%nat.
Proof.
  intro H. unfold columns, math_ceil.
  assert (Qceiling (inject_Z (Z.of_nat n) / 8) <= Z.of_nat k)%Z; [|lia].
  apply ceil_le_Z. apply Qle_shift_div_r; [reflexivity|].
  change 8 with (inject_Z 8). rewrite <- inject_Z_mult, <- Zle_Qle. lia.
Qed.

Lemma columns_gt n k : (8 * k < n)%nat -> (k < columns n)%nat.
Proof.
  intro H. unfold columns, math_ceil.
  pose proof (Qle_ceiling (inject_Z (Z.of_nat n) / 8)) as L.
  assert (inject_Z (Z.of_nat k) < inject_Z (Z.of_nat n) / 8) as G.
  { apply Qlt_shift_div_l; [reflexivity|].
    change 8 with (inject_Z 8). rewrite <- inject_Z_mult, <- Zlt_Qlt. lia. }
  assert (inject_Z (Z.of_nat k)
          < inject_Z (Qceiling (inject_Z (Z.of_nat n) / 8))) as G' by lra.
  rewrite <- Zlt_Qlt in G'. lia.
Qed.

Lemma nats_eqb_eq a b : nats_eqb a b = true -> a = b.
Proof.
  revert b. induction a as [|x a IH]; intros [|y b] H; simpl in H;
    try discriminate H; [reflexivity|].
  apply andb_true_iff in H as [H1 H2]. apply Nat.eqb_eq in H1.
  f_equal; auto.
Qed.

Lemma arange_empty (start stop : Q) : stop <= start -> arange_len start stop 1 = 0%nat.
Proof.
  intro H. unfold arange_len, math_ceil.
  assert (Qceiling ((stop - start) / 1) <= 0)%Z; [|lia].
  apply ceil_le_Z. change (inject_Z 0) with 0.
  assert ((stop - start) / 1 == stop - start) as -> by field. lra.
Qed.

Lemma countdown_empty {St : Type} line (start stop : Q) (s : St) :
  stop <= start -> countdown line start stop 1 s = ([], Ok (tt, s)).
Proof.
  intro H. unfold countdown. rewrite (arange_empty _ _ H). reflexivity.
Qed.

Lemma zymo24_no_wait sample_count dry_run :
  waits (Zymo24.trace sample_count dry_run) = [].
Proof.
  unfold Zymo24.trace, Zymo24.run, Zymo24.bind_, Zymo24.wash, Zymo24.elute,
    Zymo24.remove_supernatant, Zymo24.sample_index_columns,
    Zymo24.supernatant_tips, Zymo24.elution_tips, Zymo24.initial_runtime,
    Zymo24.remaining_tips.
  generalize (Zymo24.num_sample_columns sample_count) as k. intro k.
  destruct dry_run; FlexSpec.by_columns k.
Qed.

Lemma zymo24_no_pause sample_count dry_run :
  pauses (Zymo24.trace sample_count dry_run) = [].
Proof.
  unfold Zymo24.trace, Zymo24.run, Zymo24.bind_, Zymo24.wash, Zymo24.elute,
    Zymo24.remove_supernatant, Zymo24.sample_index_columns,
    Zymo24.supernatant_tips, Zymo24.elution_tips, Zymo24.initial_runtime,
    Zymo24.remaining_tips.
  generalize (Zymo24.num_sample_columns sample_count) as k. intro k.
  destruct dry_run; FlexSpec.by_columns k.
Qed.

Lemma zymo24_counters_ok sample_count dry_run :
  (sample_count <= 48)%nat -> zymo24_counters sample_count dry_run = true.
Proof.
  intro H. apply (columns_le _ 6) in H.
  change (columns sample_count)
    with (Zymo24.num_sample_columns sample_count) in H.
  revert H.
  unfold zymo24_counters, Zymo24.final_runtime, Zymo24.run, Zymo24.bind_,
    Zymo24.wash, Zymo24.elute,
    Zymo24.remove_supernatant, Zymo24.sample_index_columns,
    Zymo24.supernatant_tips, Zymo24.elution_tips, Zymo24.initial_runtime,
    Zymo24.remaining_tips.
  generalize (Zymo24.num_sample_columns sample_count) as k. intros k H.
  destruct dry_run;
    (do 7 (destruct k as [|k]; [vm_compute; reflexivity|]); lia).
Qed.

Lemma zymo48_complete_ok dry_run heater_shaker num_samples :
  (1 <= num_samples <= 48)%nat ->
  zymo48_complete dry_run heater_shaker num_samples = true.
Proof.
  intros [H1 H2]. apply (columns_le _ 6) in H2.
  apply (columns_gt _ 0) in H1.
  change (columns num_samples) with (Zymo48.num_cols num_samples) in H1, H2.
  revert H1 H2.
  unfold zymo48_complete, Zymo48.run, Zymo48.bind_, Zymo48.wash,
    Zymo48.elute, Zymo48.remove_supernatant, Zymo48.samples_m.
  generalize (Zymo48.num_cols num_samples) as k. intros k H1 H2.
  destruct k as [|k]; [lia|].
  destruct dry_run, heater_shaker;
    (do 6 (destruct k as [|k]; [vm_compute; reflexivity|]); lia).
Qed.

Lemma zymo48_overflow dry_run heater_shaker num_samples :
  (48 < num_samples)%nat ->
  Zymo48.run dry_run heater_shaker num_samples Zymo48.initial_globals
  = ([PickUpTip 0; DropTip; PickUpTip 8; DropTip; PickUpTip 16; DropTip;
      PickUpTip 24; DropTip; PickUpTip 32; DropTip; PickUpTip 40; DropTip;
      PickUpTip 48], Raise IndexError).
Proof.
  intros H. apply (columns_gt _ 6) in H.
  change (columns num_samples) with (Zymo48.num_cols num_samples) in H.
  revert H.
  unfold Zymo48.run, Zymo48.bind_, Zymo48.wash,
    Zymo48.elute, Zymo48.remove_supernatant, Zymo48.samples_m.
  generalize (Zymo48.num_cols num_samples) as k. intros k H.
  do 7 (destruct k as [|k]; [lia|]).
  destruct dry_run, heater_shaker; vm_compute; reflexivity.
Qed.

End ZymoRunsFacts.

Module ZymoRunsSpec.
Import Py PyFacts Flex ZymoRuns ZymoRunsFacts.
Local Open Scope Q_scope.

(** X9. The 24-sample script never waits.  Its countdown loops run over
    [np.arange(duration, -0.5)], whose step is 1 and which is empty for
    every duration of -0.5 or more: [shake_mix] and [move_to_magnet] issue
    no [ctx.delay] whatever the timer, and no run, dry or not and for any
    sample count, contains a timed wait. *)
Theorem countdowns_never_wait :
  (forall line duration (r : Zymo24.RunTimeParameters),
     -(0.5) <= duration ->
     countdown line duration (-(0.5)) 1 r = ([], Ok (tt, r)))
  /\ (forall duration r,
        -(0.5) <= duration ->
        Zymo24.shake_mix duration r = ([], Ok (tt, r))
        /\ Zymo24.move_to_magnet duration r = ([], Ok (tt, r)))
  /\ (forall sample_count dry_run,
        waits (Zymo24.trace sample_count dry_run) = []).
Proof.
  split; [|split].
  - intros. now apply countdown_empty.
  - intros d r H. split.
    + unfold Zymo24.shake_mix. now apply countdown_empty.
    + unfold Zymo24.move_to_magnet, when.
      destruct (Qltb 0 d); [now apply countdown_empty|reflexivity].
  - apply zymo24_no_wait.
Qed.

(** X10. No run of the 24-sample script pauses: neither for the waste bin
    nor for the liquid waste.  For up to 48 samples the run ends with
    [DROP_COUNT] at twice the number of sample columns (at most 12, below
    the threshold of 18) and with [WASTE_VOL] at 28960 whatever the number
    of columns (below the threshold of 185000): [track_waste] is called
    once for each supernatant removal and counts the eight wells of one
    column. *)
Theorem run_never_pauses sample_count dry_run :
  pauses (Zymo24.trace sample_count dry_run) = []
  /\ ((sample_count <= 48)%nat ->
      exists r,
        Zymo24.final_runtime sample_count dry_run = Some r
        /\ Zymo24.WASTE_VOL r == 28960
        /\ Zymo24.DROP_COUNT r
           = (2 * Zymo24.num_sample_columns sample_count)%nat
        /\ (2 * Zymo24.num_sample_columns sample_count <= 12)%nat).
Proof.
  split; [apply zymo24_no_pause|]. intro H.
  pose proof (zymo24_counters_ok sample_count dry_run H) as C.
  unfold zymo24_counters in C.
  destruct (Zymo24.final_runtime sample_count dry_run) as [r|];
    [|discriminate C].
  apply andb_true_iff in C as [C1 C2].
  exists r. split; [reflexivity|]. split; [now apply Qeq_bool_iff|].
  split; [now apply Nat.eqb_eq|].
  pose proof (columns_le _ 6 H) as K.
  change (columns sample_count)
    with (Zymo24.num_sample_columns sample_count) in K. lia.
Qed.

(** X11. The five tip racks of the 48-sample script are enough, and every
    tip is used once.  A run on 1 to 48 samples ends normally; its
    pick-ups are the tips 0, 8, 16, ... of the racks in this order, one for
    each call of [tiptrack]: [8 * num_cols + 4] of them, or
    [6 * num_cols + 2] in a dry run, so at most 52 of the 60 columns.  With
    more than 48 samples the run stops with [IndexError] at the seventh
    sample column of the binding step, holding its seventh tip. *)
Theorem tips_suffice dry_run heater_shaker num_samples :
  (1 <= num_samples)%nat ->
  let es := Zymo48.trace dry_run heater_shaker num_samples in
  let m := zymo48_pick_ups dry_run (Zymo48.num_cols num_samples) in
  if (num_samples <=? 48)%nat
  then (exists g,
          Zymo48.run dry_run heater_shaker num_samples Zymo48.initial_globals
          = (es, Ok (tt, g))
          /\ Zymo48.tip1k g = (8 * m)%nat)
       /\ picked_tips es = zymo48_tips m
       /\ NoDup (picked_tips es)
       /\ (8 * m <= Zymo48.n_tips)%nat
  else Zymo48.run dry_run heater_shaker num_samples Zymo48.initial_globals
       = ([PickUpTip 0; DropTip; PickUpTip 8; DropTip; PickUpTip 16; DropTip;
           PickUpTip 24; DropTip; PickUpTip 32; DropTip; PickUpTip 40;
           DropTip; PickUpTip 48], Raise IndexError).
Proof.
  intros H1 es m. destruct (Nat.leb_spec num_samples 48) as [H2|H2].
  - pose proof (zymo48_complete_ok dry_run heater_shaker num_samples
                  (conj H1 H2)) as C.
    unfold zymo48_complete in C. fold m in C. subst es. unfold Zymo48.trace.
    destruct (Zymo48.run dry_run heater_shaker num_samples
                Zymo48.initial_globals) as [es [[[] g]| |]];
      try discriminate C.
    apply andb_true_iff in C as [C C3]. apply andb_true_iff in C as [C1 C2].
    apply nats_eqb_eq in C1. apply Nat.eqb_eq in C2. apply Nat.leb_le in C3.
    cbn [fst]. split; [exists g; split; [reflexivity|exact C2]|].
    split; [exact C1|]. split; [|exact C3].
    rewrite C1. unfold zymo48_tips.
    apply Finite.Injective_map_NoDup; [|apply seq_NoDup].
    intros a b Hab. lia.
  - now apply zymo48_overflow.
Qed.

Lemma tips_suffice_witness :
  List.length (picked_tips (Zymo48.trace false true 48)) = 52%nat
  /\ NoDup (picked_tips (Zymo48.trace false true 48)).
Proof.
  pose proof (tips_suffice false true 48) as H.
  cbv zeta in H. change (48 <=? 48)%nat with true in H. cbv iota in H.
  destruct H as (_ & E & N & _); [lia|].
  split; [|exact N]. rewrite E. reflexivity.
Defined.

End ZymoRunsSpec.

Module Zymo24LiquidFacts.
Import Py PyFacts Flex Zymo24 Zymo24Calls Zymo24Liquid.
Local Open Scope Q_scope.

Lemma checks sample_count dry_run :
  (1 <= sample_count <= 48)%nat ->
  same_tracked sample_count dry_run = true
  /\ tips_ok sample_count dry_run = true
  /\ waste_ok sample_count dry_run = true
  /\ reagents_ok sample_count dry_run = true.
Proof.
  intros [H1 H2]. apply (ZymoRunsFacts.columns_le _ 6) in H2.
  apply (ZymoRunsFacts.columns_gt _ 0) in H1.
  change (ZymoRunsFacts.columns sample_count)
    with (num_sample_columns sample_count) in H1, H2.
  revert H1 H2.
  unfold same_tracked, tips_ok, waste_ok, reagents_ok, calls,
    generate_liquids, rounded_sample_count,
    run, bind_, wash, elute, remove_supernatant,
    elution_sample_index_columns,
    Zymo24.run, Zymo24.bind_, Zymo24.wash, Zymo24.elute,
    Zymo24.remove_supernatant, sample_index_columns,
    supernatant_tips, elution_tips, initial_runtime, remaining_tips.
  generalize (num_sample_columns sample_count) as k. intros k H1 H2.
  destruct k as [|k]; [lia|].
  destruct dry_run;
    (do 6 (destruct k as [|k];
           [split; [|split; [|split]]; vm_compute; reflexivity|]); lia).
Qed.

Lemma Q_eqb_eq a b : Q_eqb a b = true -> a = b.
Proof.
  destruct a as [n d], b as [n' d']. unfold Q_eqb. simpl.
  intro H. apply andb_true_iff in H as [H1 H2].
  apply Z.eqb_eq in H1. apply Pos.eqb_eq in H2. now subst.
Qed.

Lemma event_eqb_eq a b : event_eqb a b = true -> a = b.
Proof.
  destruct a, b; simpl; intro H; try discriminate H; try reflexivity.
  - apply Nat.eqb_eq in H. now subst.
  - apply andb_true_iff in H as [H1 H2]. apply Nat.eqb_eq in H1.
    apply Q_eqb_eq in H2. now subst.
  - apply andb_true_iff in H as [H H3]. apply andb_true_iff in H as [H1 H2].
    apply Nat.eqb_eq in H1. apply Q_eqb_eq in H2, H3. now subst.
  - apply String.eqb_eq in H. now subst.
  - apply Bool.eqb_prop in H. now subst.
Qed.

Lemma trace_eqb_eq a b : trace_eqb a b = true -> a = b.
Proof.
  revert b. induction a as [|x a IH]; intros [|y b] H; simpl in H;
    try discriminate H; [reflexivity|].
  apply andb_true_iff in H as [H1 H2]. apply event_eqb_eq in H1.
  f_equal; auto.
Qed.

Lemma runtime_eqb_eq r r' : runtime_eqb r r' = true -> r = r'.
Proof.
  destruct r, r'. unfold runtime_eqb. simpl. intro H.
  repeat (apply andb_true_iff in H as [H ?]).
  repeat match goal with
         | E : (_ =? _)%nat = true |- _ => apply Nat.eqb_eq in E
         | E : Q_eqb _ _ = true |- _ => apply Q_eqb_eq in E
         end.
  now subst.
Qed.

End Zymo24LiquidFacts.

Module Zymo24LiquidSpec.
Import Py PyFacts Flex Zymo24 Zymo24Calls Zymo24Liquid Zymo24LiquidFacts.
Local Open Scope Q_scope.

(** X13. The pipetting of the 24-sample script respects the tips.  For 1
    to 48 samples the run with its liquid calls ends normally, and its calls
    on tips, waits and pauses are those of the run without them.  Replayed
    on the pipette, every call is accepted: liquid is moved with tips on
    only, every aspirated volume is positive, every dispense expels exactly
    what the tips hold, tips are empty when they are returned or dropped,
    and the run ends without tips.  The tips never hold more than 920 uL
    (a 900 uL wash and its 20 uL air gap) of their 1000 uL. *)
Theorem pipetting_respects_tips sample_count dry_run :
  (1 <= sample_count <= 48)%nat ->
  let cs := calls sample_count dry_run in
  (exists r,
     run sample_count dry_run (initial_runtime sample_count)
     = (cs, Ok (tt, r))
     /\ Zymo24.run sample_count dry_run (initial_runtime sample_count)
        = (tracked cs, Ok (tt, r)))
  /\ (exists s, tip_replay (mk_tip false 0) cs = Some s
                /\ attached s = false)
  /\ tip_peak 0 0 cs == 920
  /\ 920 <= tip_capacity.
Proof.
  intros H cs. destruct (checks sample_count dry_run H) as (C1 & C2 & _).
  split; [|split; [|split]].
  - unfold same_tracked in C1. subst cs. unfold calls.
    destruct (run sample_count dry_run (initial_runtime sample_count))
      as [cs [[[] r]| |]]; try discriminate C1.
    destruct (Zymo24.run sample_count dry_run (initial_runtime sample_count))
      as [es [[[] r']| |]]; try discriminate C1.
    apply andb_true_iff in C1 as [C1 C1'].
    apply trace_eqb_eq in C1. apply runtime_eqb_eq in C1'. subst.
    exists r'. split; reflexivity.
  - unfold tips_ok in C2. apply andb_true_iff in C2 as [C2 _]. fold cs in C2.
    destruct (tip_replay (mk_tip false 0) cs) as [s|]; [|discriminate C2].
    exists s. split; [reflexivity|]. now apply negb_true_iff.
  - unfold tips_ok in C2. apply andb_true_iff in C2 as [_ C2].
    now apply Qeq_bool_iff.
  - unfold tip_capacity. lra.
Qed.

Lemma pipetting_respects_tips_witness :
  tip_peak 0 0 (calls 24 false) == 920
  /\ List.length (calls 24 false) = 568%nat.
Proof.
  destruct (pipetting_respects_tips 24 false) as (_ & _ & P & _).
  - lia.
  - split; [exact P|]. vm_compute. reflexivity.
Defined.

(** X14. [track_waste] counts one column where the run empties them all.
    For 1 to 48 samples, the volume the calls of the run send to the liquid
    waste is, for each of the eight channels, 4620 uL for every sample
    column: the five supernatants (820, 500, 500, 900 and 900 uL) and five
    times the extra 200 uL.  [WASTE_VOL] ends at 28960, which is eight
    times the five supernatants of one column, whatever the number of
    columns, and less than what the calls send. *)
Theorem waste_counted_for_one_column sample_count dry_run :
  (1 <= sample_count <= 48)%nat ->
  let cs := calls sample_count dry_run in
  let n := inject_Z (Z.of_nat (num_sample_columns sample_count)) in
  received LiquidWaste cs == 4620 * n
  /\ exists r,
       final_runtime sample_count dry_run = Some r
       /\ WASTE_VOL r == 8 * (820 + 500 + 500 + 900 + 900)
       /\ 8 * received LiquidWaste cs == n * (WASTE_VOL r + 8 * (5 * 200))
       /\ WASTE_VOL r < 8 * received LiquidWaste cs.
Proof.
  intros H cs n.
  destruct (checks sample_count dry_run H) as (_ & _ & C3 & _).
  unfold waste_ok in C3. apply Qeq_bool_iff in C3. fold cs n in C3.
  split; [exact C3|].
  assert (sample_count <= 48)%nat as H48 by lia.
  pose proof (ZymoRunsFacts.zymo24_counters_ok sample_count dry_run H48) as R.
  unfold ZymoRuns.zymo24_counters in R.
  destruct (final_runtime sample_count dry_run) as [r|]; [|discriminate R].
  apply andb_true_iff in R as [W _]. apply Qeq_bool_iff in W.
  exists r. split; [reflexivity|]. split; [rewrite W; reflexivity|].
  split; [rewrite C3, W; ring|].
  rewrite C3, W.
  assert (1 <= n) as N.
  { subst n. change 1 with (inject_Z 1). rewrite <- Zle_Qle.
    assert (0 < ZymoRunsFacts.columns sample_count)%nat
      by (apply ZymoRunsFacts.columns_gt; lia).
    change (ZymoRunsFacts.columns sample_count)
      with (num_sample_columns sample_count) in *. lia. }
  lra.
Qed.

Lemma waste_counted_for_one_column_witness :
  received LiquidWaste (calls 48 false) == 27720.
Proof.
  destruct (waste_counted_for_one_column 48 false) as [R _].
  - lia.
  - rewrite R. reflexivity.
Defined.

(** X15. The reagent wells are declared to hold what the run takes out of
    them.  For 1 to 48 samples the calls of [liquids_] end normally and load
    wells of the two reagent reservoirs only; for each of these wells, the
    volume eight channels take out of it over the run (what they aspirate
    less what the mixing puts back) is at most the volume declared for it. *)
Theorem reagents_declared_suffice sample_count dry_run :
  (1 <= sample_count <= 48)%nat ->
  exists loads,
    generate_liquids sample_count liquids = Ok loads
    /\ (forall l, In l loads -> In (fst l) reagent_wells)
    /\ forall w, In w reagent_wells ->
         8 * - received w (calls sample_count dry_run) <= declared w loads.
Proof.
  intros H. destruct (checks sample_count dry_run H) as (_ & _ & _ & C4).
  unfold reagents_ok in C4.
  destruct (generate_liquids sample_count liquids) as [loads| |];
    try discriminate C4.
  apply andb_true_iff in C4 as [C4 C5]. rewrite forallb_forall in C4, C5.
  exists loads. split; [reflexivity|]. split.
  - intros l Hl. apply C5 in Hl. apply existsb_exists in Hl as (w & Hw & E).
    assert (fst l = w) as ->; [|exact Hw].
    destruct (fst l), w; simpl in E; try discriminate E;
      try (apply Nat.eqb_eq in E; now subst); reflexivity.
  - intros w Hw. apply C4 in Hw. apply Qle_bool_iff in Hw. lra.
Qed.

Lemma reagents_declared_suffice_witness :
  exists loads,
    generate_liquids 48 liquids = Ok loads
    /\ declared (Reservoir1 1) loads == 11780
    /\ 8 * - received (Reservoir1 1) (calls 48 false) == 9920.
Proof.
  destruct (reagents_declared_suffice 48 false) as (loads & E & _ & _).
  - lia.
  - exists loads. split; [exact E|].
    vm_compute in E. injection E as <-. split; vm_compute; reflexivity.
Defined.

End Zymo24LiquidSpec.
